(** * TemporaryMail backend: the mailbox provisioning engine

    A shallow embedding of the server module of the repository (the
    Express application that proxies the mail.tm API): the upstream
    client [mailTmRequest], the domain catalog [getAvailableDomains], the
    rotation selector [pickMailTmDomain], the provisioning engine
    [provisionMailboxWithMailTm] and the in-memory mailbox registry,
    followed by the properties the specification states about them.

    Conventions of the embedding.
    - JSON data coming from the upstream is a [JsVal]; integers are [Z]
      (fractional numbers do not occur in the modelled paths).
    - Instants are milliseconds since the epoch, as [Z]; an ISO string
      produced by [toISOString] and parsed back by [dayjs] denotes the same
      number of milliseconds, so the strings themselves are not modelled.
    - An [async] function is a function of the results of the calls it
      awaits; a thrown exception is the [Throw] case of [Result].  One
      call is followed from start to end: no other handler is taken to run
      between its awaits.
    - The process-wide variables ([domainRotationIndex], [cachedDomains],
      [mailboxes]) form the record [Server], threaded through the monad
      [M]. *)

From Stdlib Require Import ZArith Lia Bool Ascii String.
From stdpp Require Import base option list strings gmap sorting.
From Equations Require Import Equations.
From Equations.Prop Require Import Logic.

Set Warnings "-register-all".

Local Open Scope string_scope.
Local Open Scope Z_scope.

(** ** JavaScript values *)

Inductive JsVal : Type :=
| JUndefined
| JNull
| JBool (b : bool)
| JNum (n : Z)
| JStr (s : string)
| JArr (elems : list JsVal)
| JObj (fields : list (string * JsVal)).

(** ToBoolean. *)
Definition truthy (v : JsVal) : bool :=
  match v with
  | JUndefined | JNull => false
  | JBool b => b
  | JNum n => negb (n =? 0)
  | JStr s => negb (String.eqb s "")
  | JArr _ | JObj _ => true
  end.

(** [a || b]. *)
Definition jsOr (a b : JsVal) : JsVal := if truthy a then a else b.

Fixpoint assoc (k : string) (fields : list (string * JsVal)) : JsVal :=
  match fields with
  | [] => JUndefined
  | (k', v) :: rest => if String.eqb k k' then v else assoc k rest
  end.

(** [v.k]: [None] stands for the TypeError raised on [null] and
    [undefined]; a key that is absent reads as [undefined].  Only own
    properties of objects are modelled. *)
Definition prop (v : JsVal) (k : string) : option JsVal :=
  match v with
  | JUndefined | JNull => None
  | JObj fields => Some (assoc k fields)
  | _ => Some JUndefined
  end.

(** [v?.k]. *)
Definition optProp (v : JsVal) (k : string) : JsVal :=
  match prop v k with
  | Some x => x
  | None => JUndefined
  end.

(** [typeof v === "string"]. *)
Definition asString (v : JsVal) : option string :=
  match v with
  | JStr s => Some s
  | _ => None
  end.

(** ** Strings *)

(** [hay.includes(needle)]. *)
Definition includes (needle hay : string) : bool :=
  match String.index 0 needle hay with
  | Some _ => true
  | None => false
  end.

(** [s.split(sep)] for a separator of one character. *)
Fixpoint splitOn (sep : ascii) (s : string) : list string :=
  match s with
  | EmptyString => [EmptyString]
  | String c rest =>
      if Ascii.eqb c sep then EmptyString :: splitOn sep rest
      else match splitOn sep rest with
           | [] => [String c EmptyString]
           | seg :: segs => String c seg :: segs
           end
  end.

(** [s[i]] inside a template: the character at [i]. *)
Definition charAt (s : string) (i : nat) : string :=
  match String.get i s with
  | Some c => String c EmptyString
  | None => "undefined"
  end.

(** ** Exceptions and results *)

Record JsError : Type := mkError {
  err_name : string;
  err_message : string;
  err_status : JsVal;
  err_data : JsVal;
  err_rawBodySnippet : option string;
  err_availableDomains : option (list string);
}.

(** [new Error(message)]. *)
Definition newError (message : string) : JsError :=
  mkError "Error" message JUndefined JUndefined None None.

(** The TypeError of a property read on [null] or [undefined]. *)
Definition typeError : JsError :=
  mkError "TypeError" "Cannot read properties of null" JUndefined JUndefined
    None None.

(** The TypeError of calling a property that is not a function. *)
Definition notAFunction (callee : string) : JsError :=
  mkError "TypeError" (callee +:+ " is not a function") JUndefined JUndefined
    None None.

(** The RangeError of [toISOString] on a date that is not valid. *)
Definition rangeError : JsError :=
  mkError "RangeError" "Invalid time value" JUndefined JUndefined None None.

Definition withStatus (status : Z) (e : JsError) : JsError :=
  mkError (err_name e) (err_message e) (JNum status) (err_data e)
    (err_rawBodySnippet e) (err_availableDomains e).

Inductive Result (A : Type) : Type :=
| Ok (a : A)
| Throw (e : JsError).
Arguments Ok {A} a.
Arguments Throw {A} e.

Definition isThrow {A} (r : Result A) : bool :=
  match r with
  | Ok _ => false
  | Throw _ => true
  end.

(** ** Host functions

    [toLowerCase], [localeCompare] and [JSON.parse] belong to the
    JavaScript runtime (the first two depend on Unicode and ICU tables);
    the development is parametric in them.  [localeCompare a b] is the sign
    of [a.localeCompare(b)]; [jsonParse] is [None] on a SyntaxError;
    [jsNumber v] is [Number(v)], [None] for NaN; [jsToString v] is
    [String(v)].
    Two pieces of the module that only rewrite message texts are kept
    as parameters as well, since nothing below depends on the wording:
    [messageFromRemote] is the choice of the sentence in [mailTmRequest]
    (from the status, the raw body and the parsed body), and
    [sanitizedMessage] the rewriting of [err.message] in the Express error
    handler. *)
Class JsRuntime : Type := {
  toLowerCase : string -> string;
  localeCompare : string -> string -> comparison;
  jsonParse : string -> option JsVal;
  jsNumber : JsVal -> option Z;
  jsToString : JsVal -> string;
  messageFromRemote : Z -> string -> JsVal -> string;
  sanitizedMessage : JsError -> string;
}.

(** ** Process-wide state *)

Record DomainCache : Type := mkCache {
  cache_expiresAt : Z;
  cache_items : list JsVal;
}.

Record Mailbox : Type := mkMailbox {
  mailboxId : string;
  address : string;
  domain : string;
  createdAt : Z;
  expiresAt : Z;
  password : string;
  accountId : JsVal;
  token : JsVal;
  tokenExpiresAt : Z;
  refreshToken : JsVal;
  lastMessageCount : Z;
}.

Record Server : Type := mkServer {
  domainRotationIndex : Z;
  cachedDomains : DomainCache;
  mailboxes : gmap string Mailbox;
}.

(** [let domainRotationIndex = 0], [let cachedDomains = { expiresAt: 0,
    items: [] }], [const mailboxes = new Map()]. *)
Definition initialServer : Server :=
  mkServer 0 (mkCache 0 []) ∅.

Definition setRotationIndex (i : Z) (s : Server) : Server :=
  mkServer i (cachedDomains s) (mailboxes s).

Definition setCachedDomains (c : DomainCache) (s : Server) : Server :=
  mkServer (domainRotationIndex s) c (mailboxes s).

Definition setMailboxes (m : gmap string Mailbox) (s : Server) : Server :=
  mkServer (domainRotationIndex s) (cachedDomains s) m.

(** State and exceptions: a computation reads and writes the server
    state and either returns or throws; what it wrote before throwing
    stays written. *)
Definition M (A : Type) : Type := Server -> Result A * Server.

Definition ret {A} (a : A) : M A := fun s => (Ok a, s).
Definition throw {A} (e : JsError) : M A := fun s => (Throw e, s).
Definition bind {A B} (m : M A) (k : A -> M B) : M B :=
  fun s =>
    match m s with
    | (Ok a, s') => k a s'
    | (Throw e, s') => (Throw e, s')
    end.
Definition tryCatch {A} (m : M A) (handler : JsError -> M A) : M A :=
  fun s =>
    match m s with
    | (Ok a, s') => (Ok a, s')
    | (Throw e, s') => handler e s'
    end.
Definition getState : M Server := fun s => (Ok s, s).
Definition modify (f : Server -> Server) : M unit := fun s => (Ok tt, f s).
Definition liftResult {A} (r : Result A) : M A := fun s => (r, s).

Declare Scope js_scope.
Delimit Scope js_scope with js.
Notation "x <- m ;; k" := (bind m (fun x => k))
  (at level 100, m at next level, right associativity) : js_scope.
Notation "m ;;; k" := (bind m (fun _ => k))
  (at level 100, right associativity) : js_scope.

(** ** Constants *)

Definition MAILBOX_TTL_MINUTES : Z := 15.
Definition CLEANUP_INTERVAL_MS : Z := 60 * 1000.
Definition MAILBOX_LOCAL_PART_LENGTH : nat := 10.
Definition PASSWORD_LENGTH : nat := 24.
Definition DOMAIN_CACHE_TTL_MS : Z := 10 * 60 * 1000.

(** The time values of [Date]: at most 8.64e15 ms on either side of the
    epoch.  A date made from a number outside is not valid. *)
Definition MAX_TIME_VALUE : Z := 8640000000000000.

Definition validTimeValue (t : Z) : bool :=
  (- MAX_TIME_VALUE <=? t) && (t <=? MAX_TIME_VALUE).

Definition DEFAULT_PREFERRED_DOMAINS : list string :=
  [ "comfythings.com"; "elyxstore.com"; "ketoblisslabs.com"; "ekii.de";
    "asia-mail.com"; "doer.sbs"; "badfist.com"; "besenica.com"; "mail.tm" ].

Definition alphabet : string := "abcdefghijklmnopqrstuvwxyz0123456789".
Definition letters : string := "abcdefghijklmnopqrstuvwxyz".

(** [arr[i]] for a numeric index: [undefined] outside the array. *)
Definition jsIndex {A} (l : list A) (i : Z) : option A :=
  if i <? 0 then None else l !! Z.to_nat i.

(** [arr.length]. *)
Definition len {A} (l : list A) : Z := Z.of_nat (length l).

(** [v.length] for a value other than [null] and [undefined]: the length
    of an array or of a string, the property of that name of an object.
    Strings are only tested for being empty through it. *)
Definition jsLength (v : JsVal) : JsVal :=
  match v with
  | JArr elems => JNum (len elems)
  | JStr s => JNum (Z.of_nat (String.length s))
  | JObj fields => assoc "length" fields
  | _ => JUndefined
  end.

(** [arr.includes(s)] on an array of strings. *)
Definition includesStr (l : list string) (s : string) : bool :=
  existsb (String.eqb s) l.

Section Backend.

Context {rt : JsRuntime}.

(** ** Upstream client *)

(** What one [fetch] of [mailTmRequest] comes to: a response whose body
    was read ([response.status], [await response.text()]), or a rejection
    (of [fetch] itself or of reading the body). *)
Inductive FetchOutcome : Type :=
| Responded (status : Z) (text : string)
| Rejected (e : JsError).

(** The rejection caused by [controller.abort()] when the timer set at the
    start of the call ([timeoutMs], 55 s on Vercel and 30 s elsewhere)
    fires before the response: a DOMException named AbortError, which has
    no [status] property. *)
Definition abortError : JsError :=
  mkError "AbortError" "This operation was aborted" JUndefined JUndefined
    None None.

(** [response.ok]. *)
Definition responseOk (status : Z) : bool :=
  (200 <=? status) && (status <=? 299).

(** [Math.min(1000 * Math.pow(2, retries), 5000)]. *)
Definition backoffDelay (retries : nat) : Z :=
  Z.min (1000 * 2 ^ Z.of_nat retries) 5000.

(** [text ? JSON.parse(text) : null], [null] again when parsing throws. *)
Definition parseBody (text : string) : JsVal :=
  if String.eqb text "" then JNull
  else match jsonParse text with
       | Some v => v
       | None => JNull
       end.

(** The error built for a response that is not ok and not retried. *)
Definition responseError (status : Z) (text : string) (data : JsVal)
  : JsError :=
  mkError "Error" (messageFromRemote status text data) (JNum status) data
    (if negb (truthy data) && negb (String.eqb text "")
     then Some (String.substring 0 200 text) else None)
    None.

(** One pass through the body of [mailTmRequest]: it returns, throws, or
    sleeps and calls itself with [retries + 1]. *)
Inductive Attempt : Type :=
| Settled (r : Result JsVal)
| RetryAfter (delay : Z).

(** The [catch] block. *)
Definition onCaught (e : JsError) (retries maxRetries : nat) : Attempt :=
  if (String.eqb (err_name e) "AbortError"
      || String.eqb (err_name e) "TimeoutError"
      || String.eqb (err_name e) "TypeError")
     && (retries <? maxRetries)%nat
  then RetryAfter (backoffDelay retries)
  else Settled (Throw e).

(** The [try] block on the outcome of its fetch; what it throws goes
    through the [catch] block. *)
Definition attempt (o : FetchOutcome) (retries maxRetries : nat) : Attempt :=
  match o with
  | Responded status text =>
      let data := parseBody text in
      if negb (responseOk status) then
        if (500 <=? status) && (retries <? maxRetries)%nat
        then RetryAfter (backoffDelay retries)
        else onCaught (responseError status text data) retries maxRetries
      else Settled (Ok data)
  | Rejected e => onCaught e retries maxRetries
  end.

(** [mailTmRequest(pathFragment, { retries, maxRetries })].  [fetch n] is
    what the fetch issued with [retries = n] comes to; the result is
    paired with the delays slept before the retries, in order. *)
Equations? mailTmRequest (fetch : nat -> FetchOutcome)
    (retries maxRetries : nat) : Result JsVal * list Z
    by wf (maxRetries - retries)%nat lt :=
  mailTmRequest fetch retries maxRetries
    with inspect (attempt (fetch retries) retries maxRetries) => {
    | exist _ (Settled r) _ => (r, []);
    | exist _ (RetryAfter delay) Hretry =>
        let rec := mailTmRequest fetch (S retries) maxRetries in
        (fst rec, delay :: snd rec) }.
Proof.
  revert Hretry. unfold attempt, onCaught.
  destruct (Nat.ltb_spec retries maxRetries) as [Hlt|Hge]; [lia|].
  destruct (fetch retries) as [status text|e]; rewrite ?andb_false_r;
    [|discriminate].
  destruct (negb (responseOk status)); discriminate.
Qed.

(** ** Domain catalog *)

(** [payload?.["hydra:member"] || []].  The member is an array in the
    upstream's collection format; a truthy member of another shape is not
    modelled and reads as the empty array. *)
Definition hydraMember (payload : JsVal) : list JsVal :=
  match jsOr (optProp payload "hydra:member") (JArr []) with
  | JArr elems => elems
  | _ => []
  end.

(** [getAvailableDomains()]: [now] is [Date.now()], [request] the result of
    [mailTmRequest("/domains")], which is awaited only when the cache is
    empty or stale. *)
Definition getAvailableDomains (now : Z) (request : Result JsVal)
  : M (list JsVal) :=
  (s <- getState ;;
   if negb (len (cache_items (cachedDomains s)) =? 0)
      && (cache_expiresAt (cachedDomains s) >? now)
   then ret (cache_items (cachedDomains s))
   else
     tryCatch
       (payload <- liftResult request ;;
        let domains := hydraMember payload in
        modify (setCachedDomains (mkCache (now + DOMAIN_CACHE_TTL_MS) domains)) ;;;
        ret domains)
       (fun error =>
          s' <- getState ;;
          if len (cache_items (cachedDomains s')) >? 0
          then ret (cache_items (cachedDomains s'))
          else throw error))%js.

Definition normalizeDomainEntry (entry : JsVal) : JsVal :=
  if negb (truthy entry) then JNull
  else match entry with
       | JStr _ => entry
       | _ => jsOr (jsOr (jsOr (optProp entry "domain")
                               (optProp entry "name"))
                         (optProp entry "address"))
                   JNull
       end.

(** [entries.map(normalizeDomainEntry).filter(d => typeof d === "string")]. *)
Definition listDomainStrings (entries : list JsVal) : list string :=
  omap (fun entry => asString (normalizeDomainEntry entry)) entries.

Definition isPreferred (domain : string) : bool :=
  includesStr DEFAULT_PREFERRED_DOMAINS (toLowerCase domain).

Definition dquote : string := String (ascii_of_nat 34) EmptyString.

(** The error of [pickMailTmDomain] for a requested domain that the
    catalog does not list. *)
Definition unknownDomainError (preferredDomain : string)
    (domainStrings : list string) : JsError :=
  mkError "Error"
    ("Requested domain " +:+ dquote +:+ preferredDomain +:+ dquote
       +:+ " is not available. Try one of: "
       +:+ String.concat ", " domainStrings)
    (JNum 422) JUndefined None (Some domainStrings).

(** ** Domain rotation selector *)

(** The end of [pickMailTmDomain], reached when no domain is requested:
    round-robin over the preferred domains that are available, or over the
    whole list when none is.  The result is [undefined] ([None]) when the
    index falls outside the array. *)
Definition pickByRotation (domainStrings : list string) : M (option string) :=
  (let availablePreferred := List.filter isPreferred domainStrings in
   if len availablePreferred >? 0
   then
     s <- getState ;;
     let selectedDomain :=
       jsIndex availablePreferred
         (Z.rem (domainRotationIndex s) (len availablePreferred)) in
     modify (setRotationIndex
               (Z.rem (domainRotationIndex s + 1) (len availablePreferred))) ;;;
     ret selectedDomain
   else
     s <- getState ;;
     let selectedDomain :=
       jsIndex domainStrings
         (Z.rem (domainRotationIndex s) (len domainStrings)) in
     modify (setRotationIndex
               (Z.rem (domainRotationIndex s + 1) (len domainStrings))) ;;;
     ret selectedDomain)%js.

(** [if (preferredDomain)]: a string that is not empty. *)
Definition requestedDomain (preferredDomain : option string) : option string :=
  match preferredDomain with
  | Some d => if String.eqb d "" then None else Some d
  | None => None
  end.

(** [pickMailTmDomain(preferredDomain)]. *)
Definition pickMailTmDomain (now : Z) (request : Result JsVal)
    (preferredDomain : option string) : M (option string) :=
  (domains <- getAvailableDomains now request ;;
   if len domains =? 0
   then throw (newError "No disposable domains available")
   else
     let domainStrings := listDomainStrings domains in
     if len domainStrings =? 0
     then throw (newError "Domain list is empty")
     else
       match requestedDomain preferredDomain with
       | Some requested =>
           let normalizedPreferred := toLowerCase requested in
           match List.find
                   (fun d => String.eqb (toLowerCase d) normalizedPreferred)
                   domainStrings with
           | Some found =>
               if String.eqb found ""
               then throw (unknownDomainError requested domainStrings)
               else ret (Some found)
           | None => throw (unknownDomainError requested domainStrings)
           end
       | None => pickByRotation domainStrings
       end)%js.

(** ** Ordering of the domains to try *)

(** The comparator [(a, b) => a.toLowerCase().localeCompare(b.toLowerCase())]. *)
Definition compareDomains (a b : string) : comparison :=
  localeCompare (toLowerCase a) (toLowerCase b).

(** [Array.prototype.sort] is stable; with a consistent comparator its
    result is the stable sorted arrangement, computed here by insertion
    from the right. *)
Fixpoint insertDomain (x : string) (l : list string) : list string :=
  match l with
  | [] => [x]
  | y :: rest =>
      match compareDomains x y with
      | Gt => y :: insertDomain x rest
      | _ => x :: l
      end
  end.

Fixpoint sortDomains (l : list string) : list string :=
  match l with
  | [] => []
  | x :: rest => insertDomain x (sortDomains rest)
  end.

(** [arr.findIndex(pred)], [-1] when there is none. *)
Fixpoint findIndex {A} (pred : A -> bool) (l : list A) : Z :=
  match l with
  | [] => -1
  | x :: rest =>
      if pred x then 0
      else let i := findIndex pred rest in
           if i <? 0 then -1 else i + 1
  end.

(** One block of the chain in [provisionMailboxWithMailTm]:
    [const i = domainsToTry.findIndex(d => d.toLowerCase() === name);
     if (i >= 0) { const x = domainsToTry.splice(i, 1)[0];
                   domainsToTry.unshift(x); }]. *)
Definition moveToFront (name : string) (domainsToTry : list string)
  : list string :=
  let i := findIndex (fun d => String.eqb (toLowerCase d) name) domainsToTry in
  if i >=? 0 then
    match domainsToTry !! Z.to_nat i with
    | Some x => x :: delete (Z.to_nat i) domainsToTry
    | None => domainsToTry
    end
  else domainsToTry.

(** The names of the chain, in the order of the blocks. *)
Definition moveChain : list string :=
  [ "comfythings.com"; "badfist.com"; "besenica.com"; "asia-mail.com";
    "doer.sbs"; "ekii.de"; "ketoblisslabs.com"; "elyxstore.com"; "mail.tm" ].

(** The sort followed by the chain of blocks. *)
Definition reorderDomains (domainsToTry : list string) : list string :=
  fold_left (fun l name => moveToFront name l) moveChain
    (sortDomains domainsToTry).

(** [getAvailablePreferredDomains()]. *)
Definition getAvailablePreferredDomains (now : Z) (request : Result JsVal)
  : M (list string) :=
  (domains <- getAvailableDomains now request ;;
   let domainStrings := listDomainStrings domains in
   let preferred := List.filter isPreferred domainStrings in
   ret (sortDomains preferred))%js.

(** ** Random identifiers *)

(** [s[Math.floor(Math.random() * s.length)]]: a draw is a natural
    number, reduced below the length of [s]. *)
Definition randomChar (s : string) (draw : nat) : string :=
  charAt s (draw mod String.length s).

(** [generateIdentifier(length)]; [draw i] is the draw of iteration [i]. *)
Definition generateIdentifier (draw : nat -> nat) (length : nat) : string :=
  String.concat "" (map (fun i => randomChar alphabet (draw i)) (seq 0 length)).

Definition generateLocalPart (draw : nat -> nat) : string :=
  let firstChar := randomChar letters (draw 0%nat) in
  let rest :=
    String.concat ""
      (map (fun i => randomChar alphabet (draw (S i)))
           (seq 0 (MAILBOX_LOCAL_PART_LENGTH - 1))) in
  firstChar +:+ rest.

Definition generatePassword (draw : nat -> nat) : string :=
  generateIdentifier draw PASSWORD_LENGTH.

(** ** Authentication *)

Record Auth : Type := mkAuth {
  auth_token : JsVal;
  auth_refreshToken : JsVal;
  auth_tokenExpiresAt : Z;
}.

(** [authenticateMailTm(address, password)]: [request] is the result of the
    POST to [/token], [now] is [dayjs()].  The instant
    [dayjs().add(expiresIn, "second")] is [now + expiresIn * 1000]; when it
    is not a time value of [Date], [toISOString] throws a RangeError. *)
Definition authenticateMailTm (now : Z) (request : Result JsVal)
  : Result Auth :=
  match request with
  | Throw e => Throw e
  | Ok data =>
      let expiresIn :=
        match jsNumber (optProp data "expires_in") with
        | Some n => if n =? 0 then 3600 else n
        | None => 3600
        end in
      let tokenExpiresAt := now + expiresIn * 1000 in
      if validTimeValue tokenExpiresAt
      then Ok (mkAuth (optProp data "token")
                      (jsOr (optProp data "refresh_token") JNull)
                      tokenExpiresAt)
      else Throw rangeError
  end.

(** ** Provisioning engine *)

(** What [provisionMailboxWithMailTm] resolves to. *)
Record Credential : Type := mkCredential {
  remote_accountId : JsVal;
  remote_address : string;
  remote_domain : string;
  remote_password : string;
  remote_token : JsVal;
  remote_tokenExpiresAt : Z;
  remote_refreshToken : JsVal;
}.

(** Everything one call of [provisionMailboxWithMailTm] observes.  The two
    catalog reads come with their [Date.now()] and the result their
    [/domains] request would have.  The calls of the trial loops are
    indexed by the position of the domain ([domainOffset], 0 in the branch
    for a requested domain) and by [attempt]: the result of the POST to
    [/accounts], the result of the POST to [/token], the [dayjs()] of
    [authenticateMailTm], and the draws of [Math.random] in that pass (the
    first 10 make the local part, the next 24 the password). *)
Record Observed : Type := mkObserved {
  firstNow : Z;
  firstDomains : Result JsVal;
  secondNow : Z;
  secondDomains : Result JsVal;
  accounts : nat -> nat -> Result JsVal;
  tokens : nat -> nat -> Result JsVal;
  authNow : nat -> nat -> Z;
  draws : nat -> nat -> nat -> nat;
}.

(** The local variables of the rotation loop: the counter
    [rateLimitedDomains] and, for reference, the pauses awaited so far as
    (base, spread) in milliseconds. *)
Record Trial : Type := mkTrial {
  rateLimitedDomains : Z;
  pauses : list (Z * Z);
}.

(** Where control goes after one pass of a loop body. *)
Inductive Flow (S R : Type) : Type :=
| Continue (st : S)
| Break (st : S)
| Return (r : R).
#[global] Arguments Continue {S R} st.
#[global] Arguments Break {S R} st.
#[global] Arguments Return {S R} r.

(** [for (let i = from; i < from + count; i += 1) body]: the loop either
    runs out ([inl], with the final local state) or returns ([inr]). *)
Fixpoint forLoop {S R} (count from : nat) (body : nat -> S -> M (Flow S R))
    (st : S) : M (S + R) :=
  match count with
  | O => ret (inl st)
  | Datatypes.S count' =>
      (flow <- body from st ;;
       match flow with
       | Continue st' => forLoop count' (Datatypes.S from) body st'
       | Break st' => ret (inl st')
       | Return r => ret (inr r)
       end)%js
  end.

(** [address.split("@")[1] || domain]. *)
Definition actualDomainOf (address domain : string) : string :=
  match splitOn "@"%char address !! 1%nat with
  | Some seg => if String.eqb seg "" then domain else seg
  | None => domain
  end.

(** The [try] block shared by both trial loops: create the account,
    authenticate, and build the result.  [advance] is the statement the
    rotation loop has between the two (the cursor update); the object
    literal reads [account.id] after it. *)
Definition createAndAuthenticate (obs : Observed) (domain : string)
    (domainOffset attempt : nat) (advance : M unit) : M Credential :=
  (let localPart := generateLocalPart (draws obs domainOffset attempt) in
   let address := localPart +:+ "@" +:+ domain in
   let password :=
     generatePassword (fun i => draws obs domainOffset attempt
                                  (MAILBOX_LOCAL_PART_LENGTH + i)%nat) in
   account <- liftResult (accounts obs domainOffset attempt) ;;
   auth <- liftResult (authenticateMailTm (authNow obs domainOffset attempt)
                         (tokens obs domainOffset attempt)) ;;
   let actualDomain := actualDomainOf address domain in
   advance ;;;
   match prop account "id" with
   | None => throw typeError
   | Some id =>
       ret (mkCredential id address actualDomain password
              (auth_token auth) (auth_tokenExpiresAt auth)
              (auth_refreshToken auth))
   end)%js.

(** [error.status >= k] and [error.status === k] for the statuses that
    occur: a number, or [undefined]. *)
Definition statusAtLeast (k : Z) (e : JsError) : bool :=
  match err_status e with
  | JNum n => k <=? n
  | _ => false
  end.

Definition statusIs (k : Z) (e : JsError) : bool :=
  match err_status e with
  | JNum n => n =? k
  | _ => false
  end.

(** [v?.includes(needle)] read as a condition; [None] is the TypeError of
    calling [includes] on a value that has none. *)
Definition optIncludes (v : JsVal) (needle : string) : option bool :=
  match v with
  | JUndefined | JNull => Some false
  | JStr s => Some (includes needle s)
  | JArr elems =>
      Some (existsb (fun x => match x with
                              | JStr s => String.eqb s needle
                              | _ => false
                              end) elems)
  | _ => None
  end.

(** [a || b] on conditions, [b] evaluated only when [a] is false. *)
Definition orElse (a b : option bool) : option bool :=
  match a with
  | Some true => Some true
  | Some false => b
  | None => None
  end.

(** [error.data?.detail?.includes("rate") || ... ||
     error.data?.message?.includes("limit")]. *)
Definition mentionsRateLimit (e : JsError) : option bool :=
  orElse (optIncludes (optProp (err_data e) "detail") "rate")
    (orElse (optIncludes (optProp (err_data e) "detail") "limit")
       (orElse (optIncludes (optProp (err_data e) "message") "rate")
          (optIncludes (optProp (err_data e) "message") "limit"))).

Definition pauseUnlessLast (domainOffset maxDomainsToTry : nat)
    (pause : Z * Z) (t : Trial) : Trial :=
  if (Z.of_nat domainOffset <? Z.of_nat maxDomainsToTry - 1)
  then mkTrial (rateLimitedDomains t) (pauses t ++ [pause])
  else t.

Definition countRateLimited (t : Trial) : Trial :=
  mkTrial (rateLimitedDomains t + 1) (pauses t).

(** The [catch] block of the rotation loop. *)
Definition onProvisionError (error : JsError)
    (domainOffset attempt maxDomainsToTry : nat) (t : Trial)
  : M (Flow Trial (Credential * Trial)) :=
  if statusAtLeast 500 error then
    ret (Break (pauseUnlessLast domainOffset maxDomainsToTry (200, 300) t))
  else if statusIs 429 error then
    ret (Break (pauseUnlessLast domainOffset maxDomainsToTry (100, 200)
                  (countRateLimited t)))
  else
    match (if statusIs 422 error then mentionsRateLimit error else Some false) with
    | None => throw typeError
    | Some true =>
        ret (Break (pauseUnlessLast domainOffset maxDomainsToTry (100, 200)
                      (countRateLimited t)))
    | Some false =>
        if statusIs 400 error || statusIs 409 error then
          ret (Continue
                 (if (attempt <? 1)%nat
                  then mkTrial (rateLimitedDomains t) (pauses t ++ [(50, 0)])
                  else t))
        else ret (Break t)
    end.

Definition advanceRotation (domainsToTry : list string) : M unit :=
  (s <- getState ;;
   modify (setRotationIndex
             (Z.rem (domainRotationIndex s + 1) (len domainsToTry))))%js.

(** The body of the inner loop of the rotation branch.  The credential
    returned is paired with the local variables at that point, which the
    function itself only writes to the log. *)
Definition rotationAttempt (obs : Observed) (domainsToTry : list string)
    (maxDomainsToTry domainOffset : nat) (domain : string)
    (attempt : nat) (t : Trial) : M (Flow Trial (Credential * Trial)) :=
  tryCatch
    (credential <- createAndAuthenticate obs domain domainOffset attempt
                     (advanceRotation domainsToTry) ;;
     ret (Return (credential, t)))%js
    (fun error =>
       onProvisionError error domainOffset attempt maxDomainsToTry t).

(** [domainsToTry[currentIndex]] inside the template of the address. *)
Definition domainAt (domainsToTry : list string) (currentIndex : Z) : string :=
  match jsIndex domainsToTry currentIndex with
  | Some d => d
  | None => "undefined"
  end.

(** The body of the outer loop: the inner loop over [attempt]. *)
Definition rotationDomain (obs : Observed) (domainsToTry : list string)
    (maxDomainsToTry : nat) (startIndex : Z) (domainOffset : nat)
    (t : Trial) : M (Flow Trial (Credential * Trial)) :=
  (let currentIndex :=
     Z.rem (startIndex + Z.of_nat domainOffset) (len domainsToTry) in
   let domain := domainAt domainsToTry currentIndex in
   inner <- forLoop 2 0
              (rotationAttempt obs domainsToTry maxDomainsToTry domainOffset
                 domain) t ;;
   match inner with
   | inl t' => ret (Continue t')
   | inr returned => ret (Return returned)
   end)%js.

Definition rateLimitedMessage : string :=
  "Unable to allocate mailbox. All domains are currently rate-limited. Please wait a few seconds and try again.".

Definition unavailableMessage : string :=
  "Unable to allocate mailbox at this time. The email service may be temporarily unavailable. Please try again in a few moments.".

(** The branch of [provisionMailboxWithMailTm] for a requested domain. *)
Definition provisionRequested (obs : Observed) (requested : string)
  : M Credential :=
  (picked <- pickMailTmDomain (firstNow obs) (firstDomains obs)
               (Some requested) ;;
   let domain := match picked with Some d => d | None => "undefined" end in
   outcome <- forLoop 5 0
                (fun attempt (_ : unit) =>
                   tryCatch
                     (credential <- createAndAuthenticate obs domain 0 attempt
                                      (ret tt) ;;
                      ret (Return credential))
                     (fun error =>
                        if statusIs 400 error || statusIs 409 error
                           || statusIs 422 error
                        then ret (Continue tt)
                        else throw error))
                tt ;;
   match outcome with
   | inr credential => ret credential
   | inl _ => throw (newError "Unable to allocate mailbox at this time")
   end)%js.

(** The rotation branch, from the list of domains to try on. *)
Definition rotateThrough (obs : Observed) (domainsToTry : list string)
  : M (Credential * Trial) :=
  (if len domainsToTry =? 0 then throw (newError "No domains available")
   else
     let maxDomainsToTry := Nat.min (length domainsToTry) 15 in
     s <- getState ;;
     let startIndex := Z.rem (domainRotationIndex s) (len domainsToTry) in
     outcome <- forLoop maxDomainsToTry 0
                  (rotationDomain obs domainsToTry maxDomainsToTry startIndex)
                  (mkTrial 0 []) ;;
     match outcome with
     | inr returned => ret returned
     | inl t =>
         advanceRotation domainsToTry ;;;
         let errorMessage :=
           if rateLimitedDomains t >=? Z.of_nat maxDomainsToTry - 2
           then rateLimitedMessage
           else unavailableMessage in
         throw (newError errorMessage)
     end)%js.

(** [provisionMailboxWithMailTm(preferredDomain)]. *)
Definition domainsToTryOf (availablePreferred allDomainStrings : list string)
  : list string :=
  reorderDomains
    (if len availablePreferred >? 0 then availablePreferred
     else allDomainStrings).

Definition provisionMailboxWithMailTm (obs : Observed)
    (preferredDomain : option string) : M Credential :=
  match requestedDomain preferredDomain with
  | Some requested => provisionRequested obs requested
  | None =>
      (availablePreferred <-
         getAvailablePreferredDomains (firstNow obs) (firstDomains obs) ;;
       allDomains <- getAvailableDomains (secondNow obs) (secondDomains obs) ;;
       let allDomainStrings := listDomainStrings allDomains in
       returned <- rotateThrough obs
                     (domainsToTryOf availablePreferred allDomainStrings) ;;
       ret (fst returned))%js
  end.

(** ** Mailbox registry *)

Definition ttlMs : Z := MAILBOX_TTL_MINUTES * 60 * 1000.

(** [ensureMailbox(mailboxId)], [now] being [dayjs()]. *)
Definition ensureMailbox (now : Z) (id : string) : M Mailbox :=
  (s <- getState ;;
   match mailboxes s !! id with
   | None =>
       throw (withStatus 404 (newError "Mailbox not found or expired"))
   | Some mailbox =>
       if now >? expiresAt mailbox
       then
         modify (fun s => setMailboxes (delete id (mailboxes s)) s) ;;;
         throw (withStatus 410 (newError "Mailbox expired"))
       else ret mailbox
   end)%js.

(** [createMailbox(preferredDomain)]: [id] is the value of [uuid()], [now]
    the [dayjs()] of [createdAt]. *)
Definition createMailbox (obs : Observed) (id : string) (now : Z)
    (preferredDomain : option string) : M Mailbox :=
  (remote <- provisionMailboxWithMailTm obs preferredDomain ;;
   let createdAt := now in
   let expiresAt := createdAt + ttlMs in
   let mailbox :=
     mkMailbox id (remote_address remote) (remote_domain remote)
       createdAt expiresAt (remote_password remote)
       (remote_accountId remote) (remote_token remote)
       (remote_tokenExpiresAt remote) (remote_refreshToken remote) 0 in
   modify (fun s => setMailboxes (<[id := mailbox]> (mailboxes s)) s) ;;;
   ret mailbox)%js.

(** The callback of [setInterval]: every mailbox with
    [now.isAfter(mailbox.expiresAt)] is deleted. *)
Definition cleanup (now : Z) : M unit :=
  modify (fun s =>
            setMailboxes
              (filter (fun entry => now <= expiresAt entry.2) (mailboxes s)) s).

(** [buildMailboxResponse(mailbox)], as the JSON object sent; the two
    instants are shown by their millisecond count. *)
Definition buildMailboxResponse (mailbox : Mailbox) : JsVal :=
  JObj [ ("mailboxId", JStr (mailboxId mailbox));
         ("address", JStr (address mailbox));
         ("domain", JStr (domain mailbox));
         ("createdAt", JNum (createdAt mailbox));
         ("expiresAt", JNum (expiresAt mailbox));
         ("messageCount",
           JNum (if lastMessageCount mailbox =? 0 then 0
                 else lastMessageCount mailbox)) ].

(** Assignments to the fields of a mailbox object. *)
Definition setExpiresAt (t : Z) (m : Mailbox) : Mailbox :=
  mkMailbox (mailboxId m) (address m) (domain m) (createdAt m) t
    (password m) (accountId m) (token m) (tokenExpiresAt m)
    (refreshToken m) (lastMessageCount m).

Definition setAuth (a : Auth) (m : Mailbox) : Mailbox :=
  mkMailbox (mailboxId m) (address m) (domain m) (createdAt m) (expiresAt m)
    (password m) (accountId m) (auth_token a) (auth_tokenExpiresAt a)
    (auth_refreshToken a) (lastMessageCount m).

Definition setLastMessageCount (n : Z) (m : Mailbox) : Mailbox :=
  mkMailbox (mailboxId m) (address m) (domain m) (createdAt m) (expiresAt m)
    (password m) (accountId m) (token m) (tokenExpiresAt m)
    (refreshToken m) n.

(** ** Reading the inbox *)

(** What the upstream answers during one [fetchMailboxMessages], as
    functions of what the request carries: the POST to [/token] of the
    address and the password, the GET of [/messages] of the bearer token,
    and the GET of the detail of the entry at a position of the list of the
    bearer token.  [checkNow] and [authNowInbox] are the [dayjs()] of
    [ensureMailTmToken] and of [authenticateMailTm]. *)
Record Inbox : Type := mkInbox {
  checkNow : Z;
  authNowInbox : Z;
  tokenRequest : string -> string -> Result JsVal;
  listRequest : JsVal -> Result JsVal;
  detailRequest : JsVal -> nat -> Result JsVal;
}.

(** A computation on one mailbox object, which it may assign to. *)
Definition OnMailbox (A : Type) : Type := Mailbox -> Result A * Mailbox.

(** [ensureMailTmToken(mailbox)]. *)
Definition ensureMailTmToken (inbox : Inbox) : OnMailbox JsVal :=
  fun mailbox =>
    if truthy (token mailbox) && (checkNow inbox <? tokenExpiresAt mailbox)
    then (Ok (token mailbox), mailbox)
    else
      match authenticateMailTm (authNowInbox inbox)
              (tokenRequest inbox (address mailbox) (password mailbox)) with
      | Throw e => (Throw e, mailbox)
      | Ok auth => (Ok (auth_token auth), setAuth auth mailbox)
      end.

(** [arr.join("")]: [null] and [undefined] elements give the empty
    string. *)
Definition joinEmpty (elems : list JsVal) : string :=
  String.concat ""
    (map (fun v => match v with
                   | JUndefined | JNull => ""
                   | _ => jsToString v
                   end) elems).

(** The callback of [successfulMessages.map]; [None] is the TypeError of
    reading [message.id] on [null] or [undefined]. *)
Definition normalizeMessage (message : JsVal) : option JsVal :=
  match prop message "id" with
  | None => None
  | Some id =>
      let from := optProp message "from" in
      Some (JObj
        [ ("id", id);
          ("from", jsOr (jsOr (optProp from "address") (optProp from "name"))
                        (JStr "unknown"));
          ("subject", jsOr (optProp message "subject") (JStr "(no subject)"));
          ("body", jsOr (jsOr (optProp message "text")
                              (optProp message "intro"))
                        (JStr ""));
          ("html", match optProp message "html" with
                   | JArr elems => JStr (joinEmpty elems)
                   | html => jsOr html (JStr "")
                   end);
          ("intro", optProp message "intro");
          ("seen", optProp message "seen");
          ("receivedAt", optProp message "createdAt") ])
  end.

(** [xs.map(f)] for a callback that may throw. *)
Fixpoint mapThrowing {A B} (f : A -> option B) (l : list A) : option (list B) :=
  match l with
  | [] => Some []
  | x :: rest =>
      match f x with
      | None => None
      | Some y =>
          match mapThrowing f rest with
          | None => None
          | Some ys => Some (y :: ys)
          end
      end
  end.

(** [Promise.allSettled(...)] followed by the filter on ["fulfilled"] and
    the map to [result.value]: the values of the calls that succeeded, in
    the order of the calls. *)
Definition fulfilledValues (settled : list (Result JsVal)) : list JsVal :=
  omap (fun r => match r with Ok v => Some v | Throw _ => None end) settled.

(** [fetchMailboxMessages(mailbox)].  [members] is whatever the list
    holds under [hydra:member]: the function returns early when its
    [length] is falsy, and [members.map] exists for an array only. *)
Definition fetchMailboxMessages (inbox : Inbox) : OnMailbox (list JsVal) :=
  fun mailbox =>
    match ensureMailTmToken inbox mailbox with
    | (Throw e, mailbox) => (Throw e, mailbox)
    | (Ok token, mailbox) =>
        match listRequest inbox token with
        | Throw e => (Throw e, mailbox)
        | Ok list =>
            let members := jsOr (optProp list "hydra:member") (JArr []) in
            if negb (truthy (jsLength members))
            then (Ok [], setLastMessageCount 0 mailbox)
            else
              match members with
              | JArr items =>
                  match mapThrowing (fun item => prop item "id") items with
                  | None => (Throw typeError, mailbox)
                  | Some _ =>
                      let detailed :=
                        imap (fun i _ => detailRequest inbox token i) items in
                      let successfulMessages := fulfilledValues detailed in
                      match mapThrowing normalizeMessage successfulMessages
                      with
                      | None => (Throw typeError, mailbox)
                      | Some normalized =>
                          (Ok normalized,
                           setLastMessageCount (len normalized) mailbox)
                      end
                  end
              | _ => (Throw (notAFunction "members.map"), mailbox)
              end
        end
    end.

(** ** Routes *)

Record Response : Type := mkResponse {
  res_status : Z;
  res_body : JsVal;
}.

(** The Express error handler, reached through [next(error)]. *)
Definition errorHandler (err : JsError) : Response :=
  let status :=
    match err_status err with
    | JNum n => if n =? 0 then 500 else n
    | _ => 500
    end in
  mkResponse status
    (JObj [ ("error", JStr (sanitizedMessage err)); ("status", JNum status) ]).

(** A route handler ends with [res.json(...)] or with [next(error)]. *)
Definition respond (handler : M Response) (s : Server) : Response * Server :=
  match handler s with
  | (Ok response, s') => (response, s')
  | (Throw error, s') => (errorHandler error, s')
  end.

(** [POST /api/mailboxes]; [domain] is [req.body?.domain || null]. *)
Definition postMailboxes (obs : Observed) (id : string) (now : Z)
    (domain : option string) : M Response :=
  (mailbox <- createMailbox obs id now (requestedDomain domain) ;;
   ret (mkResponse 201 (buildMailboxResponse mailbox)))%js.

(** [GET /api/mailboxes/:mailboxId]. *)
Definition getMailbox (now : Z) (id : string) : M Response :=
  (mailbox <- ensureMailbox now id ;;
   ret (mkResponse 200 (buildMailboxResponse mailbox)))%js.

(** The object that [ensureMailbox] returned is the one the registry
    holds: an assignment to it is visible under its key. *)
Definition onMailbox {A} (id : string) (f : OnMailbox A) (mailbox : Mailbox)
  : M (A * Mailbox) :=
  fun s =>
    match f mailbox with
    | (r, mailbox') =>
        let s' := setMailboxes (<[id := mailbox']> (mailboxes s)) s in
        match r with
        | Ok a => (Ok (a, mailbox'), s')
        | Throw e => (Throw e, s')
        end
    end.

(** [GET /api/mailboxes/:mailboxId/messages]. *)
Definition getMessages (now : Z) (inbox : Inbox) (id : string) : M Response :=
  (mailbox <- ensureMailbox now id ;;
   fetched <- onMailbox id (fetchMailboxMessages inbox) mailbox ;;
   ret (mkResponse 200
          (JObj [ ("mailbox", buildMailboxResponse fetched.2);
                  ("messages", JArr fetched.1) ])))%js.

(** [POST /api/mailboxes/:mailboxId/extend]: [now] is the [dayjs()] of
    [ensureMailbox], [extendNow] the one of the handler. *)
Definition postExtend (now extendNow : Z) (id : string) : M Response :=
  (mailbox <- ensureMailbox now id ;;
   extended <- onMailbox id
                 (fun m => (Ok tt, setExpiresAt (extendNow + ttlMs) m))
                 mailbox ;;
   ret (mkResponse 200 (buildMailboxResponse extended.2)))%js.

(** [POST /api/mailboxes/:mailboxId/messages]. *)
Definition postMessages (now : Z) (id : string) : M Response :=
  (_ <- ensureMailbox now id ;;
   ret (mkResponse 501
          (JObj [ ("error",
                   JStr "Sending emails via API is not supported. Send from any email client to this address.");
                  ("status", JNum 501) ])))%js.

End Backend.

(** ** Notions used by the statements *)

Section Notions.

Context {rt : JsRuntime}.

(** A network or timeout failure: the fetch was rejected with an error
    named AbortError, TimeoutError or TypeError (the last one is what
    [fetch] rejects with when the network fails). *)
Definition isNetworkOrTimeout (o : FetchOutcome) : bool :=
  match o with
  | Rejected e =>
      String.eqb (err_name e) "AbortError"
      || String.eqb (err_name e) "TimeoutError"
      || String.eqb (err_name e) "TypeError"
  | Responded _ _ => false
  end.

(** A 5xx response. *)
Definition isServerError (o : FetchOutcome) : bool :=
  match o with
  | Responded status _ => (500 <=? status) && (status <=? 599)
  | Rejected _ => false
  end.

(** A 4xx response. *)
Definition isClientError (o : FetchOutcome) : bool :=
  match o with
  | Responded status _ => (400 <=? status) && (status <=? 499)
  | Rejected _ => false
  end.

(** A response carries a status code of HTTP, between 100 and 599. *)
Definition validStatus (o : FetchOutcome) : Prop :=
  match o with
  | Responded status _ => 100 <= status <= 599
  | Rejected _ => True
  end.

(** A history of calls of [getAvailableDomains], each with its
    [Date.now()] and the result its request has when it is made; the
    server states passed through, the last one first. *)
Fixpoint statesAfter (calls : list (Z * Result JsVal)) (s : Server)
  : list Server :=
  match calls with
  | [] => [s]
  | (now, request) :: rest =>
      statesAfter rest (snd (getAvailableDomains now request s)) ++ [s]
  end.

(** The state in which the next call is made. *)
Definition stateAfter (calls : list (Z * Result JsVal)) (s : Server) : Server :=
  match statesAfter calls s with
  | last :: _ => last
  | [] => s
  end.

(** The reading of C4 over histories: a call raises exactly when its
    fetch fails and the cache has held no entries at any time so far. *)
Definition raisesOnlyWhenNeverPopulated : Prop :=
  forall (calls : list (Z * Result JsVal)) (now : Z) (request : Result JsVal),
    isThrow (fst (getAvailableDomains now request
                    (stateAfter calls initialServer))) = true
    <-> isThrow request = true
        /\ Forall (fun s => cache_items (cachedDomains s) = [])
             (statesAfter calls initialServer).

(** Two mailboxes that differ at most in [password], [accountId],
    [token] and [refreshToken]. *)
Definition sameButCredentials (m m' : Mailbox) : Prop :=
  mailboxId m = mailboxId m'
  /\ address m = address m'
  /\ domain m = domain m'
  /\ createdAt m = createdAt m'
  /\ expiresAt m = expiresAt m'
  /\ tokenExpiresAt m = tokenExpiresAt m'
  /\ lastMessageCount m = lastMessageCount m'.

(** Two server states that differ at most in those fields of the
    mailboxes they hold. *)
Definition agreeButCredentials (s s' : Server) : Prop :=
  domainRotationIndex s = domainRotationIndex s'
  /\ cachedDomains s = cachedDomains s'
  /\ forall id,
       match mailboxes s !! id, mailboxes s' !! id with
       | Some m, Some m' => sameButCredentials m m'
       | None, None => True
       | _, _ => False
       end.

(** The reading of the last part of C10 on the messages route: the
    response does not change when the credential fields do. *)
Definition messagesIgnoreCredentials : Prop :=
  forall (now : Z) (inbox : Inbox) (id : string) (s s' : Server),
    agreeButCredentials s s' ->
    fst (respond (getMessages now inbox id) s)
    = fst (respond (getMessages now inbox id) s').

(** [null] and [undefined], the values a property cannot be read from. *)
Definition isNullish (v : JsVal) : bool :=
  match v with
  | JUndefined | JNull => true
  | _ => false
  end.

(** What the inbox should show: going through the positions of the
    summaries in order, the normalised record of each detail call that
    succeeded. *)
Definition normalizedSuccesses (detail : nat -> Result JsVal) (n : nat)
  : list JsVal :=
  omap (fun i => match detail i with
                 | Ok v => normalizeMessage v
                 | Throw _ => None
                 end) (seq 0 n).

(** The positions whose detail call succeeded. *)
Definition succeeded (detail : nat -> Result JsVal) (n : nat) : list nat :=
  List.filter (fun i => negb (isThrow (detail i))) (seq 0 n).

(** The bodies of the detail calls that succeeded, in the order of the
    summaries. *)
Definition successfulBodies (detail : nat -> Result JsVal) (n : nat)
  : list JsVal :=
  omap (fun i => match detail i with
                 | Ok v => Some v
                 | Throw _ => None
                 end) (seq 0 n).

(** The first of the candidates that is truthy, else the fallback. *)
Fixpoint firstTruthy (candidates : list JsVal) (fallback : JsVal) : JsVal :=
  match candidates with
  | [] => fallback
  | v :: rest => if truthy v then v else firstTruthy rest fallback
  end.

(** The flat record shown for a message of the provider: its id; the
    address of its sender, else the name, else unknown; its subject, else
    a placeholder; its text, else its intro, else nothing; its HTML body
    with the fragments of an array joined; its intro and seen flag; and
    its creation instant as [receivedAt]. *)
Definition flatRecordOf (message record : JsVal) : Prop :=
  let sender := optProp message "from" in
  record
  = JObj
      [ ("id", optProp message "id");
        ("from",
          firstTruthy [ optProp sender "address"; optProp sender "name" ]
            (JStr "unknown"));
        ("subject",
          firstTruthy [ optProp message "subject" ] (JStr "(no subject)"));
        ("body",
          firstTruthy [ optProp message "text"; optProp message "intro" ]
            (JStr ""));
        ("html",
          match optProp message "html" with
          | JArr fragments => JStr (joinEmpty fragments)
          | html => firstTruthy [ html ] (JStr "")
          end);
        ("intro", optProp message "intro");
        ("seen", optProp message "seen");
        ("receivedAt", optProp message "createdAt") ].

(** The reading of C8: whenever the token step and the list call succeed
    and the list holds summaries, the call returns, with one record for
    each detail call that succeeded. *)
Definition failedDetailsNeverFailTheCall : Prop :=
  forall (inbox : Inbox) (mailbox mailbox1 : Mailbox)
         (token listing : JsVal) (summaries : list JsVal),
    ensureMailTmToken inbox mailbox = (Ok token, mailbox1) ->
    listRequest inbox token = Ok listing ->
    optProp listing "hydra:member" = JArr summaries ->
    Forall (fun item => isNullish item = false) summaries ->
    exists kept,
      fst (fetchMailboxMessages inbox mailbox) = Ok kept
      /\ length kept
         = length (succeeded (detailRequest inbox token) (length summaries)).

(** Whether a string has an at sign. *)
Fixpoint containsAt (s : string) : bool :=
  match s with
  | EmptyString => false
  | String c rest => Ascii.eqb c "@"%char || containsAt rest
  end.

(** The domain tried at position [k] of a trial sequence started with the
    cursor at [C]. *)
Definition trialDomain (domainsToTry : list string) (C : Z) (k : nat)
  : option string :=
  domainsToTry
    !! Z.to_nat ((C mod len domainsToTry + Z.of_nat k) mod len domainsToTry).

(** A successful POST to [/accounts] carries a JSON body other than
    [null]. *)
Definition accountsHaveBodies (obs : Observed) : Prop :=
  forall domainOffset attempt account,
    accounts obs domainOffset attempt = Ok account ->
    isNullish account = false.

(** The error that ends the [try] block of the pass at a position and an
    attempt, if one does: the error of the account creation, else the
    error of the authentication (the one of its request, or the RangeError
    of an expiry that is not a date), else the TypeError of reading [id]
    on an account without a body. *)
Definition attemptError (obs : Observed) (domainOffset attempt : nat)
  : option JsError :=
  match accounts obs domainOffset attempt with
  | Throw e => Some e
  | Ok account =>
      match authenticateMailTm (authNow obs domainOffset attempt)
              (tokens obs domainOffset attempt) with
      | Throw e => Some e
      | Ok _ => if isNullish account then Some typeError else None
      end
  end.

(** A rate-limit answer: status 429, or status 422 with a detail or a
    message that mentions rate or limit. *)
Definition isRateLimitAnswer (e : JsError) : bool :=
  statusIs 429 e
  || (statusIs 422 e
      && match mentionsRateLimit e with
         | Some b => b
         | None => false
         end).

(** A collision answer, after which the same domain is tried again. *)
Definition isCollision (e : JsError) : bool :=
  statusIs 400 e || statusIs 409 e.

(** A domain of the trial sequence is rate-limited when the answer that
    ends its trial is a rate-limit answer: the first answer, or the second
    one after a collision. *)
Definition domainRateLimited (obs : Observed) (domainOffset : nat) : bool :=
  match attemptError obs domainOffset 0 with
  | None => false
  | Some e0 =>
      if isCollision e0 then
        match attemptError obs domainOffset 1 with
        | Some e1 => isRateLimitAnswer e1
        | None => false
        end
      else isRateLimitAnswer e0
  end.

(** The number of rate-limited domains among the first [trialCount] of
    the trial sequence. *)
Definition rateLimitedAmong (obs : Observed) (trialCount : nat) : Z :=
  Z.of_nat (length (List.filter (domainRateLimited obs) (seq 0 trialCount))).

(** The reading of C5: after two domains that answer 429, a third domain
    whose account creation succeeds and whose token request returns a token
    gives the credential, on that domain, with two domains counted. *)
Definition thirdDomainServesAfterTwoRateLimits : Prop :=
  forall (obs : Observed) (domainsToTry : list string) (s : Server)
         (e1 e2 : JsError) (account data : JsVal) (third : string),
    (3 <= length domainsToTry)%nat ->
    0 <= domainRotationIndex s ->
    accounts obs 0%nat 0%nat = Throw e1 -> err_status e1 = JNum 429 ->
    accounts obs 1%nat 0%nat = Throw e2 -> err_status e2 = JNum 429 ->
    accounts obs 2%nat 0%nat = Ok account ->
    tokens obs 2%nat 0%nat = Ok data ->
    truthy (optProp data "token") = true ->
    trialDomain domainsToTry (domainRotationIndex s) 2 = Some third ->
    containsAt third = false ->
    exists credential t,
      fst (rotateThrough obs domainsToTry s) = Ok (credential, t)
      /\ remote_domain credential = third
      /\ rateLimitedDomains t = 2.

(** The reading of C6 for the cursor: when the loop over the trial
    sequence runs to its end, the call leaves the cursor one position after
    the one it found. *)
Definition exhaustionLeavesCursorOneAhead : Prop :=
  forall (obs : Observed) (domainsToTry : list string) (s s' : Server)
         (t : Trial),
    domainsToTry <> [] ->
    0 <= domainRotationIndex s ->
    forLoop (Nat.min (length domainsToTry) 15) 0
      (rotationDomain obs domainsToTry (Nat.min (length domainsToTry) 15)
         (Z.rem (domainRotationIndex s) (len domainsToTry)))
      (mkTrial 0 []) s = (Ok (inl t), s') ->
    domainRotationIndex (snd (rotateThrough obs domainsToTry s))
    = (domainRotationIndex s + 1) mod len domainsToTry.

(** The order of the names at the front after the chain: the last block
    of the chain puts its name first. *)
Definition priorityOrder : list string :=
  [ "mail.tm"; "elyxstore.com"; "ketoblisslabs.com"; "ekii.de"; "doer.sbs";
    "asia-mail.com"; "besenica.com"; "badfist.com"; "comfythings.com" ].

(** [a] does not come after [b] in the order of the sort. *)
Definition domainLe (a b : string) : Prop := compareDomains a b <> Gt.

(** Whether a list has an entry whose lower-case form is [name]. *)
Definition hasDomain (l : list string) (name : string) : bool :=
  existsb (fun d => String.eqb (toLowerCase d) name) l.

(** The names of the chain that a list has, in the order of the front. *)
Definition presentPriority (l : list string) : list string :=
  List.filter (hasDomain l) priorityOrder.

(** The output starts with at most [n] entries placed by the chain, and
    the entries after them are in the order of the sort.  With [n = 8]
    this is the reading of C2 for its eight names. *)
Definition frontOfAtMost (n : nat) (l : list string) : Prop :=
  exists front rest : list string,
    reorderDomains l = (front ++ rest)%list
    /\ (length front <= n)%nat
    /\ StronglySorted domainLe rest.

(** The reading of C3: a call settled by a fetch that hit the time ceiling
    fails with an error whose [status] is the string timeout. *)
Definition timeoutHasStatusTimeout : Prop :=
  forall fetch : nat -> FetchOutcome,
    let run := mailTmRequest fetch 0 3 in
    fetch (length (snd run)) = Rejected abortError ->
    exists e, fst run = Throw e /\ err_status e = JStr "timeout".

(** The entries of a catalog payload: the array it holds under
    [hydra:member], none when it holds nothing truthy there. *)
Definition catalogEntries (payload : JsVal) (entries : list JsVal) : Prop :=
  jsOr (optProp payload "hydra:member") (JArr []) = JArr entries.

(** A catalog request that failed, or whose payload has entries in that
    sense. *)
Definition listsDomains (request : Result JsVal) : Prop :=
  match request with
  | Ok payload => exists entries, catalogEntries payload entries
  | Throw _ => True
  end.

(** A computation that leaves a component of the server state as it found
    it, whether it returns or throws. *)
Definition keeps {A B} (proj : Server -> B) (m : M A) : Prop :=
  forall s, proj (snd (m s)) = proj s.

(** The body of the loop of [provisionMailboxWithMailTm] for a requested
    domain. *)
Definition requestedAttempt (obs : Observed) (domain : string)
    (attempt : nat) (_ : unit) : M (Flow unit Credential) :=
  tryCatch
    (credential <- createAndAuthenticate obs domain 0 attempt (ret tt) ;;
     ret (Return credential))%js
    (fun error =>
       if statusIs 400 error || statusIs 409 error || statusIs 422 error
       then ret (Continue tt)
       else throw error).

(** [[400, 409, 422].includes(error.status)]. *)
Definition isRetriedStatus (e : JsError) : bool :=
  statusIs 400 e || statusIs 409 e || statusIs 422 e.

(** Whether a character occurs in a string, and whether a string is made
    of the characters of another. *)
Fixpoint occursIn (c : ascii) (chars : string) : bool :=
  match chars with
  | EmptyString => false
  | String c' rest => Ascii.eqb c c' || occursIn c rest
  end.

Fixpoint madeOf (chars s : string) : bool :=
  match s with
  | EmptyString => true
  | String c rest => occursIn c chars && madeOf chars rest
  end.

End Notions.

(** What [Array.prototype.sort] asks of a comparator to define the
    result (a consistent comparator): here, that [localeCompare] is
    antisymmetric and transitive.  The last law says that two different
    strings do not collate as equal, which holds for names written in
    printable ASCII. *)
Class ConsistentCollation (rt : JsRuntime) : Prop := {
  collation_antisym :
    forall a b, localeCompare b a = CompOpp (localeCompare a b);
  collation_trans :
    forall a b c, localeCompare a b <> Gt -> localeCompare b c <> Gt ->
                  localeCompare a c <> Gt;
  collation_separates :
    forall a b, localeCompare a b = Eq -> a = b;
}.

(** ** A runtime for closed examples

    On names written in ASCII, [toLowerCase] maps A-Z to a-z and the
    collation of names made of lower-case letters, digits, dots and hyphens
    that differ in a letter follows the alphabet; the examples below only
    use such names.  The other host functions are filled with the simplest
    choice. *)

Definition lowerAscii (c : ascii) : ascii :=
  let n := nat_of_ascii c in
  if (65 <=? n)%nat && (n <=? 90)%nat then ascii_of_nat (n + 32) else c.

Fixpoint lowerString (s : string) : string :=
  match s with
  | EmptyString => EmptyString
  | String c rest => String (lowerAscii c) (lowerString rest)
  end.

Definition asciiRuntime : JsRuntime :=
  {| toLowerCase := lowerString;
     localeCompare := String.compare;
     jsonParse := fun _ => None;
     jsNumber := fun v => match v with JNum n => Some n | _ => None end;
     jsToString := fun v => match v with JStr s => s | _ => "" end;
     messageFromRemote := fun _ _ _ => "mail.tm request failed";
     sanitizedMessage := err_message |}.

(** A catalog payload of the upstream, from its domain names. *)
Definition catalogOf (names : list string) : JsVal :=
  JObj [ ("hydra:member", JArr (map JStr names)) ].

(** A mailbox of the registry, for the examples. *)
Definition sampleMailbox (token : JsVal) : Mailbox :=
  mkMailbox "box-1" "kq3v9x0a1b@mail.tm" "mail.tm" 1000 901000
    "s3cr3t" (JStr "acc-1") token 3601000 JNull 0.

Definition sampleServer (token : JsVal) : Server :=
  mkServer 0 (mkCache 0 []) {[ "box-1" := sampleMailbox token ]}.

(** An upstream that accepts the bearer token [fresh] only and has no
    messages. *)
Definition strictInbox : Inbox :=
  mkInbox 2000 2000
    (fun _ _ => Throw (withStatus 401 (newError "Invalid credentials.")))
    (fun token =>
       match token with
       | JStr "fresh" => Ok (JObj [ ("hydra:member", JArr []) ])
       | _ => Throw (withStatus 401 (newError "Invalid JWT Token"))
       end)
    (fun _ _ => Throw (withStatus 404 (newError "Not Found"))).

(** A 503, then a timeout, then a 404: two retries, after 1000 ms and
    2000 ms, and none after the 404. *)
Definition sampleFetch (i : nat) : FetchOutcome :=
  match i with
  | 0%nat => Responded 503 "busy"
  | 1%nat => Rejected abortError
  | _ => Responded 404 ""
  end.

(** An upstream that answers 429 on the first two domains of the trial
    sequence and creates the account on the third. *)
Definition twoRateLimited : Observed :=
  mkObserved 1000 (Ok (catalogOf [])) 1000 (Ok (catalogOf []))
    (fun domainOffset _ =>
       match domainOffset with
       | 0%nat | 1%nat =>
           Throw (withStatus 429 (newError "Too Many Requests"))
       | _ => Ok (JObj [ ("id", JStr "acc-7") ])
       end)
    (fun _ _ => Ok (JObj [ ("token", JStr "jwt-7") ]))
    (fun _ _ => 5000)
    (fun _ _ k => k).

(** An upstream that answers 429 on the first two domains of the trial
    sequence and, on the third, answers the account creation with a 201
    that has no body. *)
Definition emptyAccountBody : Observed :=
  mkObserved 1000 (Ok (catalogOf [])) 1000 (Ok (catalogOf []))
    (fun domainOffset _ =>
       match domainOffset with
       | 0%nat | 1%nat =>
           Throw (withStatus 429 (newError "Too Many Requests"))
       | _ => Ok JNull
       end)
    (fun _ _ => Ok (JObj [ ("token", JStr "jwt-7") ]))
    (fun _ _ => 5000)
    (fun _ _ k => k).

(** An upstream that answers 429 on every domain. *)
Definition allRateLimited : Observed :=
  mkObserved 1000 (Ok (catalogOf [])) 1000 (Ok (catalogOf []))
    (fun _ _ => Throw (withStatus 429 (newError "Too Many Requests")))
    (fun _ _ => Throw (withStatus 401 (newError "Invalid credentials.")))
    (fun _ _ => 5000)
    (fun _ _ k => k).

(** Three summaries; the detail call of the second one fails. *)
Definition threeSummaries : Inbox :=
  mkInbox 2000 2000
    (fun _ _ => Throw (withStatus 401 (newError "Invalid credentials.")))
    (fun _ =>
       Ok (JObj [ ("hydra:member",
                   JArr [ JObj [ ("id", JStr "m1") ];
                          JObj [ ("id", JStr "m2") ];
                          JObj [ ("id", JStr "m3") ] ]) ]))
    (fun _ i =>
       match i with
       | 0%nat => Ok (JObj [ ("id", JStr "m1"); ("subject", JStr "Welcome");
                             ("html", JArr [ JStr "<p>"; JStr "hi</p>" ]) ])
       | 1%nat => Throw (withStatus 500 (newError "Internal Server Error"))
       | _ => Ok (JObj [ ("id", JStr "m3"); ("text", JStr "plain") ])
       end).

(** Three summaries; the detail call of the second one is answered 200
    with an empty body. *)
Definition emptyDetailBody : Inbox :=
  mkInbox 2000 2000
    (fun _ _ => Throw (withStatus 401 (newError "Invalid credentials.")))
    (fun _ =>
       Ok (JObj [ ("hydra:member",
                   JArr [ JObj [ ("id", JStr "m1") ];
                          JObj [ ("id", JStr "m2") ];
                          JObj [ ("id", JStr "m3") ] ]) ]))
    (fun _ i =>
       match i with
       | 0%nat => Ok (JObj [ ("id", JStr "m1"); ("subject", JStr "Welcome") ])
       | 1%nat => Ok JNull
       | _ => Ok (JObj [ ("id", JStr "m3"); ("text", JStr "plain") ])
       end).

(** An upstream whose catalog lists example.org and mail.tm, that refuses
    the first address of a call as already used and creates the account on
    the second. *)
Definition collidingThenCreated : Observed :=
  mkObserved 1000 (Ok (catalogOf [ "example.org"; "mail.tm" ]))
    1000 (Ok (catalogOf [ "example.org"; "mail.tm" ]))
    (fun _ attempt =>
       match attempt with
       | 0%nat =>
           Throw (withStatus 422
                    (newError "address: This value is already used."))
       | _ => Ok (JObj [ ("id", JStr "acc-9") ])
       end)
    (fun _ _ => Ok (JObj [ ("token", JStr "jwt-9") ]))
    (fun _ _ => 5000)
    (fun _ _ k => k).

(** An upstream whose catalog lists one other name and two preferred
    ones, and that creates every account it is asked for. *)
Definition mixedCatalog : Observed :=
  mkObserved 1000 (Ok (catalogOf [ "zeta.org"; "mail.tm"; "Ekii.de" ]))
    1000 (Ok (catalogOf [ "zeta.org"; "mail.tm"; "Ekii.de" ]))
    (fun _ _ => Ok (JObj [ ("id", JStr "acc-3") ]))
    (fun _ _ => Ok (JObj [ ("token", JStr "jwt-3") ]))
    (fun _ _ => 5000)
    (fun _ _ k => k).

(** A catalog payload whose only entry has no name. *)
Definition namelessCatalog : JsVal :=
  JObj [ ("hydra:member", JArr [ JNum 5 ]) ].

(** * Properties *)

Section Rotation.

Context {rt : JsRuntime}.

Lemma bind_Ok {A B} (m : M A) (k : A -> M B) s a s' :
  m s = (Ok a, s') -> bind m k s = k a s'.
Proof. intros Hm. unfold bind. rewrite Hm. reflexivity. Qed.

Lemma bind_Throw {A B} (m : M A) (k : A -> M B) s e s' :
  m s = (Throw e, s') -> bind m k s = (Throw e, s').
Proof. intros Hm. unfold bind. rewrite Hm. reflexivity. Qed.

Lemma len_nonneg {A} (l : list A) : 0 <= len l.
Proof. unfold len. lia. Qed.

Lemma len_pos {A} (l : list A) : l <> [] -> 0 < len l.
Proof. destruct l; [congruence|]. unfold len. simpl. lia. Qed.

Lemma len_zero {A} (l : list A) : len l = 0 -> l = [].
Proof. destruct l; [reflexivity|]. unfold len. simpl. lia. Qed.

(** Reading the catalog leaves the cursor alone. *)
Lemma getAvailableDomains_cursor now request s r s' :
  getAvailableDomains now request s = (r, s') ->
  domainRotationIndex s' = domainRotationIndex s.
Proof.
  unfold getAvailableDomains, bind, getState, tryCatch, liftResult, modify,
    ret, throw.
  destruct (negb _ && _); [intros [= <- <-]; reflexivity|].
  destruct request as [payload|e]; simpl.
  - intros [= <- <-]. reflexivity.
  - destruct (_ >? 0); intros [= <- <-]; reflexivity.
Qed.

(** An index taken modulo the length is inside the array. *)
Lemma jsIndex_rem {A} (l : list A) (C : Z) :
  0 <= C -> l <> [] ->
  exists x, l !! Z.to_nat (C mod len l) = Some x
            /\ jsIndex l (Z.rem C (len l)) = Some x.
Proof.
  intros HC Hl. pose proof (len_pos l Hl) as HL.
  rewrite Z.rem_mod_nonneg by lia.
  pose proof (Z.mod_pos_bound C (len l) HL) as Hb.
  destruct (lookup_lt_is_Some_2 l (Z.to_nat (C mod len l))) as [x Hx].
  { unfold len in *. lia. }
  exists x. split; [exact Hx|].
  unfold jsIndex. destruct (Z.ltb_spec (C mod len l) 0); [lia|exact Hx].
Qed.

(** The cursor starts at 0 and every assignment to it keeps it from
    being negative. *)
Lemma advance_nonneg (C L : Z) : 0 <= C -> 0 <= L -> 0 <= Z.rem (C + 1) L.
Proof.
  intros HC HL. destruct (Z.eq_dec L 0) as [->|Hpos].
  - replace (Z.rem (C + 1) 0) with (C + 1)
      by (destruct (C + 1); reflexivity).
    lia.
  - apply Z.rem_nonneg; lia.
Qed.

Lemma pickByRotation_nonneg (domainStrings : list string) (s : Server) :
  0 <= domainRotationIndex s ->
  0 <= domainRotationIndex (snd (pickByRotation domainStrings s)).
Proof.
  intros HC. unfold pickByRotation, bind, getState, modify, ret.
  destruct (_ >? 0); cbn; apply advance_nonneg; auto using len_nonneg.
Qed.

Lemma advanceRotation_nonneg (domainsToTry : list string) (s : Server) :
  0 <= domainRotationIndex s ->
  0 <= domainRotationIndex (snd (advanceRotation domainsToTry s)).
Proof.
  intros HC. unfold advanceRotation, bind, getState, modify. cbn.
  apply advance_nonneg; auto using len_nonneg.
Qed.

(** One round-robin pick over a given list of candidates. *)
Lemma pickByRotation_spec (domainStrings : list string) (s : Server) :
  0 <= domainRotationIndex s -> domainStrings <> [] ->
  let preferred := List.filter isPreferred domainStrings in
  let candidates := if len preferred >? 0 then preferred else domainStrings in
  exists selected,
    candidates !! Z.to_nat (domainRotationIndex s mod len candidates)
      = Some selected
    /\ pickByRotation domainStrings s
       = (Ok (Some selected),
          setRotationIndex ((domainRotationIndex s + 1) mod len candidates) s).
Proof.
  intros HC Hne preferred candidates. unfold pickByRotation.
  fold preferred. subst candidates.
  destruct (Z.gtb_spec (len preferred) 0) as [Hp|Hp].
  - assert (preferred <> []) as Hpne.
    { intros E. rewrite E in Hp. unfold len in Hp. simpl in Hp. lia. }
    destruct (jsIndex_rem preferred _ HC Hpne) as (x & Hx & Hj).
    exists x. split; [exact Hx|].
    unfold bind, getState, modify, ret. rewrite Hj.
    rewrite Z.rem_mod_nonneg by lia. reflexivity.
  - destruct (jsIndex_rem domainStrings _ HC Hne) as (x & Hx & Hj).
    exists x. split; [exact Hx|].
    unfold bind, getState, modify, ret. rewrite Hj.
    rewrite Z.rem_mod_nonneg by (pose proof (len_pos _ Hne); lia).
    reflexivity.
Qed.

(** C1.  When no domain is requested ([preferredDomain] is absent or
    empty) and the catalog yields the names
    [domainStrings] (not empty), [pickMailTmDomain] called with the cursor
    at [C >= 0] returns the candidate at index [C mod L] and leaves the
    cursor at [(C + 1) mod L], where the candidates are the preferred names
    among [domainStrings] when there is one ([L] is their number) and all
    of [domainStrings] otherwise ([L] is its length).  The rest of the
    state is as the catalog read left it. *)
Theorem pickMailTmDomain_rotation (now : Z) (request : Result JsVal)
    (preferredDomain : option string) (s s1 : Server)
    (domains : list JsVal) :
  requestedDomain preferredDomain = None ->
  0 <= domainRotationIndex s ->
  getAvailableDomains now request s = (Ok domains, s1) ->
  listDomainStrings domains <> [] ->
  let C := domainRotationIndex s in
  let domainStrings := listDomainStrings domains in
  let preferred := List.filter isPreferred domainStrings in
  let picked := pickMailTmDomain now request preferredDomain s in
  (preferred <> [] ->
   exists selected,
     preferred !! Z.to_nat (C mod len preferred) = Some selected
     /\ fst picked = Ok (Some selected)
     /\ domainRotationIndex (snd picked) = (C + 1) mod len preferred
     /\ picked
        = (Ok (Some selected),
           setRotationIndex ((C + 1) mod len preferred) s1))
  /\ (preferred = [] ->
      exists selected,
        domainStrings !! Z.to_nat (C mod len domainStrings) = Some selected
        /\ fst picked = Ok (Some selected)
        /\ domainRotationIndex (snd picked) = (C + 1) mod len domainStrings
        /\ picked
           = (Ok (Some selected),
              setRotationIndex ((C + 1) mod len domainStrings) s1))
  /\ cachedDomains (snd picked) = cachedDomains s1
  /\ mailboxes (snd picked) = mailboxes s1.
Proof.
  intros Hnone HC Hget Hne C domainStrings preferred picked.
  pose proof (getAvailableDomains_cursor _ _ _ _ _ Hget) as Hcur.
  assert (picked = pickByRotation domainStrings s1) as Hpick.
  { subst picked. unfold pickMailTmDomain. rewrite (bind_Ok _ _ _ _ _ Hget).
    destruct (Z.eqb_spec (len domains) 0) as [E|_].
    { apply len_zero in E. subst domains. contradiction Hne. reflexivity. }
    fold domainStrings.
    destruct (Z.eqb_spec (len domainStrings) 0) as [E|_].
    { apply len_zero in E. contradiction. }
    rewrite Hnone. reflexivity. }
  rewrite Hpick.
  assert (0 <= domainRotationIndex s1) as HC1 by (rewrite Hcur; exact HC).
  pose proof (pickByRotation_spec domainStrings s1 HC1 Hne) as Hspec.
  cbv zeta in Hspec. fold preferred in Hspec. rewrite Hcur in Hspec.
  fold C in Hspec.
  split; [|split].
  - intros Hp.
    destruct (Z.gtb_spec (len preferred) 0) as [_|Hle];
      [|pose proof (len_pos _ Hp); lia].
    destruct Hspec as (selected & Hselected & ->).
    exists selected. split; [exact Hselected|]. split; [reflexivity|].
    split; reflexivity.
  - intros Hp. rewrite Hp in Hspec.
    destruct Hspec as (selected & Hselected & ->).
    exists selected. split; [exact Hselected|]. split; [reflexivity|].
    split; reflexivity.
  - destruct Hspec as (selected & _ & ->). split; reflexivity.
Qed.

End Rotation.

(** ** Upstream client: retries and time ceiling *)

Section Upstream.

Context {rt : JsRuntime}.

(** A pass retries only while retries are left. *)
Lemma attempt_retry_lt o retries maxRetries d :
  attempt o retries maxRetries = RetryAfter d -> (retries < maxRetries)%nat.
Proof.
  unfold attempt, onCaught.
  destruct (Nat.ltb_spec retries maxRetries) as [Hlt|Hge]; [trivial|].
  destruct o as [status text|e]; rewrite ?andb_false_r; [|discriminate].
  destruct (negb (responseOk status)); discriminate.
Qed.

Lemma mailTmRequest_step fetch retries maxRetries :
  mailTmRequest fetch retries maxRetries =
  match attempt (fetch retries) retries maxRetries with
  | Settled r => (r, [])
  | RetryAfter delay =>
      (fst (mailTmRequest fetch (S retries) maxRetries),
       delay :: snd (mailTmRequest fetch (S retries) maxRetries))
  end.
Proof.
  funelim (mailTmRequest fetch retries maxRetries).
  - rewrite e. reflexivity.
  - rewrite Hretry. reflexivity.
Qed.

(** A retry always waits [backoffDelay retries]. *)
Lemma attempt_delay o retries maxRetries d :
  attempt o retries maxRetries = RetryAfter d -> d = backoffDelay retries.
Proof.
  unfold attempt, onCaught.
  destruct o as [status text|e].
  - destruct (negb (responseOk status)); [|discriminate].
    destruct ((500 <=? status) && (retries <? maxRetries)%nat);
      [congruence|].
    simpl. discriminate.
  - destruct (_ && _); [congruence|discriminate].
Qed.

(** Whether one pass retries, in terms of the outcome of its fetch. *)
Lemma attempt_retries_iff o retries maxRetries :
  validStatus o ->
  (exists d, attempt o retries maxRetries = RetryAfter d)
  <-> (isServerError o || isNetworkOrTimeout o = true)
      /\ (retries < maxRetries)%nat.
Proof.
  intros Hvalid. unfold attempt, onCaught.
  destruct o as [status text|e]; simpl in *.
  - rewrite orb_false_r. unfold responseOk.
    destruct (Z.leb_spec 500 status) as [H5|H5]; simpl.
    + assert ((status <=? 599) = true) as -> by (apply Z.leb_le; lia).
      assert ((200 <=? status) && (status <=? 299) = false) as ->.
      { apply andb_false_iff. right. apply Z.leb_gt. lia. }
      simpl. destruct (Nat.ltb_spec retries maxRetries) as [Hlt|Hge].
      * split; [intros _; split; [reflexivity|exact Hlt]|eauto].
      * split; [intros [d Hd]; discriminate|intros [_ Hlt]; lia].
    + split; [|intros [[=] _]].
      destruct (negb _); intros [d Hd]; discriminate.
  - destruct (_ || _); simpl.
    + destruct (Nat.ltb_spec retries maxRetries) as [Hlt|Hge].
      * split; [intros _; split; [reflexivity|exact Hlt]|eauto].
      * split; [intros [d Hd]; discriminate|intros [_ Hlt]; lia].
    + split; [intros [d Hd]; discriminate|intros [[=] _]].
Qed.

(** The run of [mailTmRequest] from [retries]: with [k] the number of
    delays it slept, passes [retries .. retries + k - 1] each ended in a
    retry after their own back-off delay, and pass [retries + k] settled
    the call. *)
Lemma mailTmRequest_run fetch maxRetries retries :
  let run := mailTmRequest fetch retries maxRetries in
  let k := length (snd run) in
  (forall j, (j < k)%nat ->
     attempt (fetch (retries + j)%nat) (retries + j) maxRetries
       = RetryAfter (backoffDelay (retries + j))
     /\ snd run !! j = Some (backoffDelay (retries + j)))
  /\ attempt (fetch (retries + k)%nat) (retries + k) maxRetries
     = Settled (fst run).
Proof.
  remember (maxRetries - retries)%nat as budget eqn:Hbudget.
  revert retries Hbudget.
  induction budget as [budget IH] using lt_wf_ind. intros retries Hbudget.
  rewrite (mailTmRequest_step fetch retries maxRetries).
  destruct (attempt (fetch retries) retries maxRetries) as [r|delay] eqn:Hatt.
  - cbn. split; [intros j Hj; lia|]. rewrite Nat.add_0_r. exact Hatt.
  - pose proof (attempt_retry_lt _ _ _ _ Hatt) as Hlt.
    pose proof (attempt_delay _ _ _ _ Hatt) as ->.
    specialize (IH (maxRetries - S retries)%nat ltac:(lia) (S retries) eq_refl).
    cbv zeta in IH. destruct IH as [IHretry IHlast]. cbn [fst snd length].
    split.
    + intros [|j] Hj.
      * rewrite Nat.add_0_r. split; [exact Hatt|reflexivity].
      * replace (retries + S j)%nat with (S retries + j)%nat by lia.
        apply IHretry. lia.
    + replace (retries + S (length (mailTmRequest fetch (S retries) maxRetries).2))%nat
        with (S retries + length (mailTmRequest fetch (S retries) maxRetries).2)%nat
        by lia.
      exact IHlast.
Qed.

(** No more retries are made than the budget allows. *)
Lemma mailTmRequest_budget fetch maxRetries retries :
  (length (snd (mailTmRequest fetch retries maxRetries))
   <= maxRetries - retries)%nat.
Proof.
  destruct (mailTmRequest_run fetch maxRetries retries) as [Hretry _].
  destruct (length (mailTmRequest fetch retries maxRetries).2) as [|k] eqn:Hk;
    [lia|].
  destruct (Hretry k ltac:(lia)) as [Hatt _].
  apply attempt_retry_lt in Hatt. lia.
Qed.


(** C3, as the code has it.  When the fetch that settles a call made with
    the defaults is cut by the time ceiling, the retry budget is spent
    (three retries were made) and the call fails with the abort error
    itself: its [name] is AbortError and its [status] is [undefined]. *)
Theorem mailTmRequest_timeout (fetch : nat -> FetchOutcome) :
  let run := mailTmRequest fetch 0 3 in
  fetch (length (snd run)) = Rejected abortError ->
  length (snd run) = 3%nat
  /\ fst run = Throw abortError
  /\ err_name abortError = "AbortError"
  /\ err_status abortError = JUndefined.
Proof.
  intros run Hcut.
  destruct (mailTmRequest_run fetch 3 0) as [_ Hlast].
  cbn [Nat.add] in Hlast. fold run in Hlast. rewrite Hcut in Hlast.
  pose proof (mailTmRequest_budget fetch 3 0) as Hk. fold run in Hk.
  revert Hlast. unfold attempt, onCaught. cbn.
  destruct (Nat.leb_spec (length run.2) 2) as [Hlt|Hge]; [intros [=]|].
  intros [= Hrun]. repeat split; [lia|congruence].
Qed.

End Upstream.

(** ** Domain catalog: when a failed fetch is raised *)

Section Catalog.

(** [getAvailableDomains] without the monad. *)
Lemma getAvailableDomains_eq (now : Z) (request : Result JsVal) (s : Server) :
  getAvailableDomains now request s =
  let items := cache_items (cachedDomains s) in
  if negb (len items =? 0) && (cache_expiresAt (cachedDomains s) >? now)
  then (Ok items, s)
  else match request with
       | Ok payload =>
           (Ok (hydraMember payload),
            setCachedDomains
              (mkCache (now + DOMAIN_CACHE_TTL_MS) (hydraMember payload)) s)
       | Throw error =>
           if len items >? 0 then (Ok items, s) else (Throw error, s)
       end.
Proof.
  unfold getAvailableDomains, bind, getState, tryCatch, liftResult, modify,
    ret, throw. cbv zeta.
  destruct (negb _ && _); [reflexivity|].
  destruct request as [payload|error]; cbn; [reflexivity|].
  destruct (_ >? 0); reflexivity.
Qed.

(** C4, as the code has it.  [getAvailableDomains] raises exactly when the
    fetch fails and the cache holds no entries at that moment; the error
    raised is the one of the fetch.  Whenever the cache holds entries, a
    failed fetch returns them and leaves the cache as it is, whatever
    [expiresAt] and [now] are. *)
Theorem getAvailableDomains_raises (now : Z) (request : Result JsVal)
    (s : Server) :
  (isThrow (fst (getAvailableDomains now request s)) = true
   <-> isThrow request = true /\ cache_items (cachedDomains s) = [])
  /\ (forall e, fst (getAvailableDomains now request s) = Throw e ->
                request = Throw e)
  /\ (forall e, request = Throw e -> cache_items (cachedDomains s) <> [] ->
        getAvailableDomains now request s
        = (Ok (cache_items (cachedDomains s)), s)).
Proof.
  rewrite getAvailableDomains_eq. cbv zeta.
  destruct (cache_items (cachedDomains s)) as [|entry entries] eqn:Hitems.
  - cbn. destruct request as [payload|e]; cbn.
    + split; [split; [discriminate|intros [[=] _]]|].
      split; [discriminate|intros e [=]].
    + split; [split; [intros _; split; reflexivity|reflexivity]|].
      split; [intros e' [= ->]; reflexivity|intros e' _ Hne; congruence].
  - assert (negb (len (entry :: entries) =? 0) = true) as ->.
    { unfold len. cbn [length]. apply negb_true_iff, Z.eqb_neq. lia. }
    assert ((len (entry :: entries) >? 0) = true) as ->.
    { unfold len. cbn [length]. apply Z.gtb_lt. lia. }
    cbn [andb].
    destruct (cache_expiresAt (cachedDomains s) >? now).
    + cbn. split; [split; [discriminate|intros [_ [=]]]|].
      split; [discriminate|intros e _ _; reflexivity].
    + destruct request as [payload|e]; cbn.
      * split; [split; [discriminate|intros [[=] _]]|].
        split; [discriminate|intros e [=]].
      * split; [split; [discriminate|intros [_ [=]]]|].
        split; [discriminate|intros e' _ _; reflexivity].
Qed.

End Catalog.

(** C4, as stated, fails.  A first fetch fills the cache; after the cache
    has expired a second fetch succeeds with an empty catalog, which
    replaces it; a third call whose fetch fails then raises, although the
    cache had been populated. *)
Lemma raisesOnlyWhenNeverPopulated_fails :
  ~ raisesOnlyWhenNeverPopulated.
Proof.
  intros Hclaim.
  specialize (Hclaim
    [ (1000, Ok (catalogOf ["mail.tm"])); (700000, Ok (catalogOf [])) ]
    700001 (Throw (withStatus 503 (newError "Service Unavailable")))).
  destruct Hclaim as [Hraise _].
  destruct (Hraise eq_refl) as [_ Hnever].
  apply Forall_cons_1 in Hnever. destruct Hnever as [_ Hnever].
  apply Forall_cons_1 in Hnever. destruct Hnever as [Hpopulated _].
  vm_compute in Hpopulated. discriminate.
Qed.

(** ** Mailbox registry *)

Section Registry.

Context {rt : JsRuntime}.

Lemma ensureMailbox_live (now : Z) (id : string) (s : Server) (m : Mailbox) :
  mailboxes s !! id = Some m -> now <= expiresAt m ->
  ensureMailbox now id s = (Ok m, s).
Proof.
  intros Hm Hlive. unfold ensureMailbox, bind, getState, ret. rewrite Hm.
  destruct (Z.gtb_spec now (expiresAt m)); [lia|reflexivity].
Qed.

Lemma ensureMailbox_expired (now : Z) (id : string) (s : Server) (m : Mailbox) :
  mailboxes s !! id = Some m -> expiresAt m < now ->
  ensureMailbox now id s
  = (Throw (withStatus 410 (newError "Mailbox expired")),
     setMailboxes (delete id (mailboxes s)) s).
Proof.
  intros Hm Hdead. unfold ensureMailbox, bind, getState, modify, throw.
  rewrite Hm. destruct (Z.gtb_spec now (expiresAt m)); [reflexivity|lia].
Qed.

Lemma ensureMailbox_missing (now : Z) (id : string) (s : Server) :
  mailboxes s !! id = None ->
  ensureMailbox now id s
  = (Throw (withStatus 404 (newError "Mailbox not found or expired")), s).
Proof.
  intros Hm. unfold ensureMailbox, bind, getState, throw. rewrite Hm.
  reflexivity.
Qed.

(** C9.  For a mailbox that is registered and not expired when the route
    looks it up, the extend route stores [extendNow + 15 minutes] as its
    [expiresAt], [extendNow] being the instant read by the handler, leaves
    its other fields and the other mailboxes as they are, and answers with
    the mailbox so updated; the mailbox stored is the same whatever
    [expiresAt] was before. *)
Theorem postExtend_resets (now extendNow : Z) (id : string) (s : Server)
    (mailbox : Mailbox) :
  mailboxes s !! id = Some mailbox ->
  now <= expiresAt mailbox ->
  let extended := setExpiresAt (extendNow + 15 * 60 * 1000) mailbox in
  let answered := postExtend now extendNow id s in
  (exists stored : Mailbox,
     mailboxes (snd answered) !! id = Some stored
     /\ expiresAt stored = extendNow + 15 * 60 * 1000
     /\ mailboxId stored = mailboxId mailbox
     /\ address stored = address mailbox
     /\ domain stored = domain mailbox
     /\ createdAt stored = createdAt mailbox
     /\ lastMessageCount stored = lastMessageCount mailbox
     /\ password stored = password mailbox
     /\ token stored = token mailbox
     /\ tokenExpiresAt stored = tokenExpiresAt mailbox
     /\ fst answered = Ok (mkResponse 200 (buildMailboxResponse stored))
     /\ optProp (buildMailboxResponse stored) "expiresAt"
        = JNum (extendNow + 15 * 60 * 1000)
     /\ stored = extended)
  /\ (forall other, other <> id ->
        mailboxes (snd answered) !! other = mailboxes s !! other)
  /\ domainRotationIndex (snd answered) = domainRotationIndex s
  /\ cachedDomains (snd answered) = cachedDomains s
  /\ (forall (remaining : Z) (s2 : Server),
        now <= remaining ->
        mailboxes s2 !! id = Some (setExpiresAt remaining mailbox) ->
        mailboxes (snd (postExtend now extendNow id s2)) !! id
        = Some extended)
  /\ answered
     = (Ok (mkResponse 200 (buildMailboxResponse extended)),
        setMailboxes (<[id := extended]> (mailboxes s)) s).
Proof.
  assert (forall (s0 : Server) (m : Mailbox),
            mailboxes s0 !! id = Some m -> now <= expiresAt m ->
            postExtend now extendNow id s0
            = (Ok (mkResponse 200
                     (buildMailboxResponse
                        (setExpiresAt (extendNow + 15 * 60 * 1000) m))),
               setMailboxes
                 (<[id := setExpiresAt (extendNow + 15 * 60 * 1000) m]>
                    (mailboxes s0)) s0)) as Hrun.
  { intros s0 m Hm Hlive. unfold postExtend.
    rewrite (bind_Ok _ _ _ _ _ (ensureMailbox_live _ _ _ _ Hm Hlive)).
    reflexivity. }
  intros Hm Hlive extended answered.
  subst answered. rewrite (Hrun s mailbox Hm Hlive). cbn [fst snd].
  split; [|split; [|split; [|split; [|split]]]]; try reflexivity.
  - exists extended. cbn [mailboxes setMailboxes].
    split; [apply lookup_insert_eq|]. repeat split.
  - intros other Hother. cbn [mailboxes setMailboxes].
    apply lookup_insert_ne. congruence.
  - intros remaining s2 Hremaining Hm2.
    rewrite (Hrun s2 (setExpiresAt remaining mailbox) Hm2 Hremaining).
    cbn [snd mailboxes setMailboxes]. rewrite lookup_insert_eq. reflexivity.
Qed.

Lemma buildMailboxResponse_same (m m' : Mailbox) :
  sameButCredentials m m' ->
  buildMailboxResponse m = buildMailboxResponse m'.
Proof.
  intros (Hid & Haddr & Hdom & Hc & He & _ & Hn). unfold buildMailboxResponse.
  rewrite Hid, Haddr, Hdom, Hc, He, Hn. reflexivity.
Qed.

Lemma agree_insert (s s' : Server) (id : string) (m m' : Mailbox) :
  agreeButCredentials s s' -> sameButCredentials m m' ->
  agreeButCredentials (setMailboxes (<[id := m]> (mailboxes s)) s)
    (setMailboxes (<[id := m']> (mailboxes s')) s').
Proof.
  intros (Hi & Hc & Hm) Hsame. split; [exact Hi|]. split; [exact Hc|].
  intros k. cbn. destruct (decide (id = k)) as [->|Hne].
  - rewrite !lookup_insert_eq. exact Hsame.
  - rewrite !lookup_insert_ne by exact Hne. apply Hm.
Qed.

Lemma agree_delete (s s' : Server) (id : string) :
  agreeButCredentials s s' ->
  agreeButCredentials (setMailboxes (delete id (mailboxes s)) s)
    (setMailboxes (delete id (mailboxes s')) s').
Proof.
  intros (Hi & Hc & Hm). split; [exact Hi|]. split; [exact Hc|].
  intros k. cbn. destruct (decide (id = k)) as [->|Hne].
  - rewrite !lookup_delete_eq. exact I.
  - rewrite !lookup_delete_ne by exact Hne. apply Hm.
Qed.

(** [ensureMailbox] on two states that agree: the same error, or two
    mailboxes that agree. *)
Lemma ensureMailbox_agree (now : Z) (id : string) (s s' : Server) :
  agreeButCredentials s s' ->
  match ensureMailbox now id s, ensureMailbox now id s' with
  | (Ok m, s1), (Ok m', s1') =>
      sameButCredentials m m' /\ s1 = s /\ s1' = s'
      /\ mailboxes s !! id = Some m /\ mailboxes s' !! id = Some m'
  | (Throw e, s1), (Throw e', s1') => e = e' /\ agreeButCredentials s1 s1'
  | _, _ => False
  end.
Proof.
  intros Hagree. pose proof Hagree as (_ & _ & Hm). specialize (Hm id).
  destruct (mailboxes s !! id) as [m|] eqn:E;
    destruct (mailboxes s' !! id) as [m'|] eqn:E'; try contradiction.
  - pose proof Hm as (_ & _ & _ & _ & Hexp & _).
    destruct (Z.le_gt_cases now (expiresAt m)) as [Hlive|Hdead].
    + rewrite (ensureMailbox_live _ _ _ _ E Hlive).
      rewrite (ensureMailbox_live now id s' m' E' ltac:(lia)). auto.
    + rewrite (ensureMailbox_expired _ _ _ _ E Hdead).
      rewrite (ensureMailbox_expired now id s' m' E' ltac:(lia)).
      split; [reflexivity|]. apply agree_delete, Hagree.
  - rewrite (ensureMailbox_missing _ _ _ E), (ensureMailbox_missing _ _ _ E').
    split; [reflexivity|exact Hagree].
Qed.

(** C10, as the code has it.  The object built by [buildMailboxResponse]
    has the six keys mailboxId, address, domain, createdAt, expiresAt and
    messageCount and is the same for two mailboxes that differ in
    [password], [accountId], [token] and [refreshToken].  Hence the
    responses of the read route and of the extend route are the same on two
    server states that differ in those fields only (and the states still
    differ in those fields only afterwards), and the response of the create
    route is the same for two provisioning results with the same address
    and domain. *)
Theorem credentials_not_in_mailbox_responses :
  (forall m : Mailbox,
     exists fields, buildMailboxResponse m = JObj fields
       /\ map fst fields = [ "mailboxId"; "address"; "domain"; "createdAt";
                             "expiresAt"; "messageCount" ])
  /\ (forall m m' : Mailbox,
        sameButCredentials m m' ->
        buildMailboxResponse m = buildMailboxResponse m')
  /\ (forall (now : Z) (id : string) (s s' : Server),
        agreeButCredentials s s' ->
        fst (respond (getMailbox now id) s)
        = fst (respond (getMailbox now id) s')
        /\ agreeButCredentials (snd (respond (getMailbox now id) s))
             (snd (respond (getMailbox now id) s')))
  /\ (forall (now extendNow : Z) (id : string) (s s' : Server),
        agreeButCredentials s s' ->
        fst (respond (postExtend now extendNow id) s)
        = fst (respond (postExtend now extendNow id) s')
        /\ agreeButCredentials (snd (respond (postExtend now extendNow id) s))
             (snd (respond (postExtend now extendNow id) s')))
  /\ (forall (obs obs' : Observed) (id : string) (now : Z)
             (requested : option string) (s s' s1 s1' : Server)
             (remote remote' : Credential),
        provisionMailboxWithMailTm obs (requestedDomain requested) s
          = (Ok remote, s1) ->
        provisionMailboxWithMailTm obs' (requestedDomain requested) s'
          = (Ok remote', s1') ->
        remote_address remote = remote_address remote' ->
        remote_domain remote = remote_domain remote' ->
        fst (respond (postMailboxes obs id now requested) s)
        = fst (respond (postMailboxes obs' id now requested) s')).
Proof.
  split; [intros m; eexists; split; reflexivity|].
  split; [exact buildMailboxResponse_same|].
  split; [|split].
  - intros now id s s' Hagree.
    pose proof (ensureMailbox_agree now id s s' Hagree) as Hens.
    unfold respond, getMailbox, bind.
    destruct (ensureMailbox now id s) as [[m|e] s1];
      destruct (ensureMailbox now id s') as [[m'|e'] s1']; try contradiction.
    + destruct Hens as (Hsame & -> & -> & _). cbn.
      rewrite (buildMailboxResponse_same _ _ Hsame). auto.
    + destruct Hens as [-> Hagree1]. cbn. auto.
  - intros now extendNow id s s' Hagree.
    pose proof (ensureMailbox_agree now id s s' Hagree) as Hens.
    unfold respond, postExtend, bind.
    destruct (ensureMailbox now id s) as [[m|e] s1];
      destruct (ensureMailbox now id s') as [[m'|e'] s1']; try contradiction.
    + destruct Hens as (Hsame & -> & -> & _). cbn.
      assert (sameButCredentials (setExpiresAt (extendNow + ttlMs) m)
                (setExpiresAt (extendNow + ttlMs) m')) as Hsame'.
      { destruct Hsame as (? & ? & ? & ? & ? & ? & ?).
        repeat split; cbn; assumption || reflexivity. }
      rewrite (buildMailboxResponse_same _ _ Hsame').
      split; [reflexivity|]. apply agree_insert; assumption.
    + destruct Hens as [-> Hagree1]. cbn. auto.
  - intros obs obs' id now requested s s' s1 s1' remote remote'
      Hrun Hrun' Haddr Hdom.
    unfold respond, postMailboxes, createMailbox.
    rewrite (bind_Ok _ _ _ _ _ (bind_Ok _ _ _ _ _ Hrun)).
    rewrite (bind_Ok _ _ _ _ _ (bind_Ok _ _ _ _ _ Hrun')).
    cbn. rewrite Haddr, Hdom. reflexivity.
Qed.

End Registry.

(** ** Reading the inbox *)

Section Messages.

Context {rt : JsRuntime}.

Lemma prop_not_nullish (v : JsVal) (k : string) :
  isNullish v = false -> exists x, prop v k = Some x.
Proof. destruct v; cbn; try discriminate; eauto. Qed.

Lemma mapThrowing_ids (members : list JsVal) :
  Forall (fun item => isNullish item = false) members ->
  exists ids, mapThrowing (fun item => prop item "id") members = Some ids.
Proof.
  induction 1 as [|item members Hitem _ [ids IH]]; cbn; [eauto|].
  destruct (prop_not_nullish item "id" Hitem) as [x ->]. rewrite IH. eauto.
Qed.

Lemma normalizeMessage_not_nullish (v : JsVal) :
  isNullish v = false -> exists y, normalizeMessage v = Some y.
Proof.
  intros Hv. unfold normalizeMessage.
  destruct (prop_not_nullish v "id" Hv) as [x ->]. eauto.
Qed.

Lemma normalize_successes (detail : nat -> Result JsVal) (idx : list nat) :
  (forall i v, i ∈ idx -> detail i = Ok v -> isNullish v = false) ->
  let kept := omap (fun i => match detail i with
                             | Ok v => normalizeMessage v
                             | Throw _ => None
                             end) idx in
  mapThrowing normalizeMessage (fulfilledValues (detail <$> idx)) = Some kept
  /\ length kept
     = length (List.filter (fun i => negb (isThrow (detail i))) idx).
Proof.
  induction idx as [|i idx IH]; intros Hobj; [split; reflexivity|].
  destruct IH as [IHmap IHlen].
  { intros j v Hj. apply Hobj. right. exact Hj. }
  unfold fulfilledValues in *. cbn [fmap list_fmap omap list_omap List.filter].
  destruct (detail i) as [v|e] eqn:Hi; cbn [isThrow negb].
  - destruct (normalizeMessage_not_nullish v (Hobj i v ltac:(left) Hi))
      as [y Hy].
    cbn [mapThrowing]. rewrite Hy.
    change (list_omap ?f ?l) with (omap f l). rewrite IHmap.
    split; [reflexivity|]. cbn [length]. f_equal. exact IHlen.
  - split; [exact IHmap|exact IHlen].
Qed.

(** What [normalizeMessage] builds is the flat record of the message. *)
Lemma normalizeMessage_flat (v y : JsVal) :
  normalizeMessage v = Some y -> flatRecordOf v y.
Proof.
  unfold normalizeMessage, flatRecordOf.
  destruct (prop v "id") as [id|] eqn:Hid; [|discriminate].
  intros [= <-].
  assert (optProp v "id" = id) as -> by (unfold optProp; rewrite Hid; reflexivity).
  assert (forall a b c, jsOr (jsOr a b) c = firstTruthy [ a; b ] c) as Hor.
  { intros a b c. unfold jsOr. cbn. destruct (truthy a) eqn:Ha.
    - rewrite Ha. reflexivity.
    - reflexivity. }
  rewrite !Hor. cbv zeta.
  destruct (optProp v "html"); reflexivity.
Qed.

Lemma normalized_flat (detail : nat -> Result JsVal) (idx : list nat) :
  (forall i v, i ∈ idx -> detail i = Ok v -> isNullish v = false) ->
  Forall2 flatRecordOf
    (omap (fun i => match detail i with
                    | Ok v => Some v
                    | Throw _ => None
                    end) idx)
    (omap (fun i => match detail i with
                    | Ok v => normalizeMessage v
                    | Throw _ => None
                    end) idx).
Proof.
  induction idx as [|i idx IH]; intros Hobj; [constructor|].
  specialize (IH (fun j v Hj => Hobj j v (list_elem_of_further _ _ _ Hj))).
  cbn [omap list_omap].
  destruct (detail i) as [v|e] eqn:Hi; [|exact IH].
  destruct (normalizeMessage_not_nullish v (Hobj i v ltac:(left) Hi))
    as [y Hy].
  rewrite Hy. constructor; [apply normalizeMessage_flat, Hy|exact IH].
Qed.


End Messages.

(** ** Provisioning: the rotation loop *)

Section Provisioning.

Context {rt : JsRuntime}.

Lemma append_String (c : ascii) (a b : string) :
  String c a +:+ b = String c (a +:+ b).
Proof. reflexivity. Qed.

Lemma containsAt_app (a b : string) :
  containsAt (a +:+ b) = containsAt a || containsAt b.
Proof.
  induction a as [|c a IH]; [reflexivity|].
  rewrite append_String. cbn. rewrite IH, orb_assoc. reflexivity.
Qed.

Lemma containsAt_concat (parts : list string) :
  Forall (fun p => containsAt p = false) parts ->
  containsAt (String.concat "" parts) = false.
Proof.
  induction 1 as [|p parts Hp Hparts IH]; [reflexivity|].
  cbn [String.concat]. destruct parts as [|q parts]; [exact Hp|].
  change (containsAt (p +:+ "" +:+ String.concat "" (q :: parts)) = false).
  rewrite !containsAt_app, Hp, IH. reflexivity.
Qed.

Lemma splitOn_plain (s : string) :
  containsAt s = false -> splitOn "@"%char s = [s].
Proof.
  induction s as [|c s IH]; cbn; [reflexivity|].
  destruct (Ascii.eqb c "@"%char); cbn; [discriminate|].
  intros Hs. rewrite (IH Hs). reflexivity.
Qed.

Lemma splitOn_local (localPart rest : string) :
  containsAt localPart = false ->
  splitOn "@"%char (localPart +:+ "@" +:+ rest)
  = localPart :: splitOn "@"%char rest.
Proof.
  induction localPart as [|c a IH]; [reflexivity|].
  rewrite append_String. cbn.
  destruct (Ascii.eqb c "@"%char); cbn; [discriminate|].
  intros Ha. rewrite (IH Ha). reflexivity.
Qed.

Lemma randomChar_letters (draw : nat) :
  containsAt (randomChar letters draw) = false.
Proof.
  unfold randomChar.
  pose proof (Nat.mod_upper_bound draw (String.length letters)
                ltac:(discriminate)) as Hlt.
  remember (draw mod String.length letters)%nat as k eqn:Hk. clear Hk.
  cbn in Hlt. do 26 (destruct k as [|k]; [reflexivity|]). lia.
Qed.

Lemma randomChar_alphabet (draw : nat) :
  containsAt (randomChar alphabet draw) = false.
Proof.
  unfold randomChar.
  pose proof (Nat.mod_upper_bound draw (String.length alphabet)
                ltac:(discriminate)) as Hlt.
  remember (draw mod String.length alphabet)%nat as k eqn:Hk. clear Hk.
  cbn in Hlt. do 36 (destruct k as [|k]; [reflexivity|]). lia.
Qed.

(** A generated local part has no at sign. *)
Lemma generateLocalPart_plain (draw : nat -> nat) :
  containsAt (generateLocalPart draw) = false.
Proof.
  unfold generateLocalPart. rewrite containsAt_app, randomChar_letters.
  apply containsAt_concat, Forall_forall. intros p Hp.
  apply list_elem_of_In, in_map_iff in Hp. destruct Hp as (i & <- & _).
  apply randomChar_alphabet.
Qed.

(** The domain recorded for an address built on a domain without an at
    sign is that domain. *)
Lemma actualDomainOf_plain (draw : nat -> nat) (domain : string) :
  containsAt domain = false ->
  actualDomainOf (generateLocalPart draw +:+ "@" +:+ domain) domain = domain.
Proof.
  intros Hd. unfold actualDomainOf.
  rewrite (splitOn_local _ _ (generateLocalPart_plain draw)).
  rewrite (splitOn_plain _ Hd). cbn.
  destruct (String.eqb_spec domain ""); reflexivity.
Qed.

Lemma createAndAuthenticate_rejected obs domain o a advance s e :
  accounts obs o a = Throw e ->
  createAndAuthenticate obs domain o a advance s = (Throw e, s).
Proof.
  intros He. unfold createAndAuthenticate, bind, liftResult. rewrite He.
  reflexivity.
Qed.

Lemma createAndAuthenticate_unauthenticated obs domain o a advance s
    account e :
  accounts obs o a = Ok account ->
  authenticateMailTm (authNow obs o a) (tokens obs o a) = Throw e ->
  createAndAuthenticate obs domain o a advance s = (Throw e, s).
Proof.
  intros Ha He. unfold createAndAuthenticate, bind, liftResult.
  rewrite Ha, He. reflexivity.
Qed.

Lemma createAndAuthenticate_created obs domainsToTry domain o a s
    account auth :
  accounts obs o a = Ok account -> isNullish account = false ->
  authenticateMailTm (authNow obs o a) (tokens obs o a) = Ok auth ->
  exists credential,
    createAndAuthenticate obs domain o a (advanceRotation domainsToTry) s
    = (Ok credential,
       setRotationIndex
         (Z.rem (domainRotationIndex s + 1) (len domainsToTry)) s)
    /\ remote_address credential
       = generateLocalPart (draws obs o a) +:+ "@" +:+ domain
    /\ remote_domain credential
       = actualDomainOf
           (generateLocalPart (draws obs o a) +:+ "@" +:+ domain) domain
    /\ remote_token credential = auth_token auth.
Proof.
  intros Ha Hbody Hd.
  destruct (prop_not_nullish account "id" Hbody) as [id Hid].
  unfold createAndAuthenticate, bind, liftResult, advanceRotation, getState,
    modify, ret.
  rewrite Ha, Hd, Hid. eexists. split; [reflexivity|].
  split; [reflexivity|]. split; reflexivity.
Qed.

(** The [catch] block leaves the server state alone and never returns
    from the function. *)
Lemma onProvisionError_state error o a m t s r s' :
  onProvisionError error o a m t s = (r, s') ->
  s' = s /\ forall returned, r <> Ok (Return returned).
Proof.
  unfold onProvisionError, ret, throw.
  repeat match goal with
         | |- context [if ?c then _ else _] => destruct c
         | |- context [match ?c with Some _ => _ | None => _ end] => destruct c
         end;
    intros [= <- <-]; split; try reflexivity; intros returned; discriminate.
Qed.

(** One pass of the inner loop: a return, or the state is as before. *)
Lemma rotationAttempt_state obs domainsToTry m o domain a t s r s' :
  accountsHaveBodies obs ->
  rotationAttempt obs domainsToTry m o domain a t s = (r, s') ->
  (exists returned, r = Ok (Return returned)) \/ s' = s.
Proof.
  intros Hbodies. unfold rotationAttempt, tryCatch, bind.
  destruct (accounts obs o a) as [account|e] eqn:Ha.
  - destruct (authenticateMailTm (authNow obs o a) (tokens obs o a))
      as [auth|e] eqn:Hd.
    + destruct (createAndAuthenticate_created obs domainsToTry domain o a s
                  account auth Ha (Hbodies _ _ _ Ha) Hd) as (c & -> & _).
      cbn. intros [= <- <-]. left. eauto.
    + rewrite (createAndAuthenticate_unauthenticated _ _ _ _ _ _ _ _ Ha Hd).
      intros Hh. apply onProvisionError_state in Hh. right. apply Hh.
  - rewrite (createAndAuthenticate_rejected _ _ _ _ _ _ _ Ha).
    intros Hh. apply onProvisionError_state in Hh. right. apply Hh.
Qed.

(** A loop whose passes leave the state alone unless they return leaves
    the state alone unless it returns. *)
Lemma forLoop_state {S R} (body : nat -> S -> M (Flow S R)) :
  (forall i st s r s',
     body i st s = (r, s') -> (exists x, r = Ok (Return x)) \/ s' = s) ->
  forall count from st s r s',
    forLoop count from body st s = (r, s') ->
    (exists x, r = Ok (inr x)) \/ s' = s.
Proof.
  intros Hbody count. induction count as [|count IH]; intros from st s r s'.
  - cbn. unfold ret. intros [= <- <-]. right. reflexivity.
  - cbn [forLoop]. unfold bind.
    destruct (body from st s) as [[flow|e] s1] eqn:Hb.
    + destruct flow as [st'|st'|x].
      * destruct (Hbody _ _ _ _ _ Hb) as [[x Hx]| ->]; [discriminate|].
        apply IH.
      * destruct (Hbody _ _ _ _ _ Hb) as [[x Hx]| ->]; [discriminate|].
        unfold ret. intros [= <- <-]. right. reflexivity.
      * unfold ret. intros [= <- <-]. left. eauto.
    + destruct (Hbody _ _ _ _ _ Hb) as [[x Hx]| ->]; [discriminate|].
      intros [= <- <-]. right. reflexivity.
Qed.

Lemma rotationDomain_state obs domainsToTry m start o t s r s' :
  accountsHaveBodies obs ->
  rotationDomain obs domainsToTry m start o t s = (r, s') ->
  (exists returned, r = Ok (Return returned)) \/ s' = s.
Proof.
  intros Hbodies. unfold rotationDomain. cbv zeta. unfold bind at 1.
  destruct (forLoop 2 0 _ t s) as [[inner|e] s1] eqn:Hinner.
  - destruct inner as [t'|x]; unfold ret; intros [= <- <-];
      [|left; eauto].
    destruct (forLoop_state _
                (fun i st s r s' =>
                   rotationAttempt_state obs domainsToTry m o _ i st s r s'
                     Hbodies)
                _ _ _ _ _ _ Hinner) as [[x Hx]| ->]; [discriminate|].
    right. reflexivity.
  - destruct (forLoop_state _
                (fun i st s r s' =>
                   rotationAttempt_state obs domainsToTry m o _ i st s r s'
                     Hbodies)
                _ _ _ _ _ _ Hinner) as [[x Hx]| ->]; [discriminate|].
    intros [= <- <-]. right. reflexivity.
Qed.

(** A domain whose first answer is a 429 is counted and passed over. *)
Lemma rotationDomain_rate_limited obs domainsToTry m start o t s e :
  accounts obs o 0%nat = Throw e -> err_status e = JNum 429 ->
  rotationDomain obs domainsToTry m start o t s
  = (Ok (Continue (pauseUnlessLast o m (100, 200) (countRateLimited t))), s).
Proof.
  intros Ha Hs. unfold rotationDomain. cbv zeta. cbn [forLoop].
  unfold rotationAttempt, tryCatch. unfold bind at 1 2 3.
  rewrite (createAndAuthenticate_rejected _ _ _ _ _ _ _ Ha).
  unfold onProvisionError, statusAtLeast, statusIs. rewrite Hs.
  reflexivity.
Qed.

(** A domain whose first account creation and authentication succeed is
    returned at once, and the cursor moves by one. *)
Lemma rotationDomain_created obs domainsToTry m start o t s account auth :
  accounts obs o 0%nat = Ok account -> isNullish account = false ->
  authenticateMailTm (authNow obs o 0%nat) (tokens obs o 0%nat) = Ok auth ->
  let domain :=
    domainAt domainsToTry (Z.rem (start + Z.of_nat o) (len domainsToTry)) in
  exists credential,
    rotationDomain obs domainsToTry m start o t s
    = (Ok (Return (credential, t)),
       setRotationIndex
         (Z.rem (domainRotationIndex s + 1) (len domainsToTry)) s)
    /\ remote_address credential
       = generateLocalPart (draws obs o 0%nat) +:+ "@" +:+ domain
    /\ remote_domain credential
       = actualDomainOf
           (generateLocalPart (draws obs o 0%nat) +:+ "@" +:+ domain) domain
    /\ remote_token credential = auth_token auth.
Proof.
  intros Ha Hbody Hd domain.
  destruct (createAndAuthenticate_created obs domainsToTry domain o 0%nat s
              account auth Ha Hbody Hd) as (c & Hc & Haddr & Hdom & Htok).
  exists c. split; [|split; [|split]; assumption].
  unfold rotationDomain. cbv zeta. fold domain. cbn [forLoop].
  unfold rotationAttempt, tryCatch. unfold bind at 1 2 3.
  rewrite Hc. reflexivity.
Qed.

Lemma rem_mod_len {A} (l : list A) (C : Z) :
  0 <= C -> l <> [] -> Z.rem C (len l) = C mod len l.
Proof.
  intros HC Hl. pose proof (len_pos l Hl). apply Z.rem_mod_nonneg; lia.
Qed.


Lemma pauseUnlessLast_count o m p t :
  rateLimitedDomains (pauseUnlessLast o m p t) = rateLimitedDomains t.
Proof. unfold pauseUnlessLast. destruct (_ <? _); reflexivity. Qed.

(** What the [catch] block does with the counter, by the kind of the
    answer. *)
Lemma onProvisionError_flow error o a m t s flow s' :
  onProvisionError error o a m t s = (Ok flow, s') ->
  match flow with
  | Return _ => False
  | Break t' =>
      isCollision error = false
      /\ rateLimitedDomains t'
         = rateLimitedDomains t + (if isRateLimitAnswer error then 1 else 0)
  | Continue t' =>
      isCollision error = true /\ isRateLimitAnswer error = false
      /\ rateLimitedDomains t' = rateLimitedDomains t
  end.
Proof.
  unfold onProvisionError, isCollision, isRateLimitAnswer, statusAtLeast,
    statusIs, ret, throw.
  destruct (err_status error) as [| |b|n|str|elems|fields]; cbn;
    try (intros [= <- <-]; cbn; split; [reflexivity|lia]).
  destruct (Z.leb_spec 500 n) as [H5|H5].
  { intros [= <- <-]. rewrite pauseUnlessLast_count.
    destruct (Z.eqb_spec n 429); [lia|]. destruct (Z.eqb_spec n 422); [lia|].
    destruct (Z.eqb_spec n 400); [lia|]. destruct (Z.eqb_spec n 409); [lia|].
    cbn. split; [reflexivity|lia]. }
  destruct (Z.eqb_spec n 429) as [->|H429].
  { intros [= <- <-]. rewrite pauseUnlessLast_count. cbn. auto. }
  destruct (Z.eqb_spec n 422) as [->|H422].
  { cbn. destruct (mentionsRateLimit error) as [[|]|]; [| |discriminate].
    - intros [= <- <-]. rewrite pauseUnlessLast_count. cbn. auto.
    - intros [= <- <-]. cbn. split; [reflexivity|lia]. }
  cbn. destruct (Z.eqb_spec n 400) as [->|H400].
  { intros [= <- <-]. cbn. destruct (_ <=? _)%nat; auto. }
  destruct (Z.eqb_spec n 409) as [->|H409].
  { intros [= <- <-]. cbn. destruct (_ <=? _)%nat; auto. }
  intros [= <- <-]. cbn. split; [reflexivity|lia].
Qed.

Lemma rotationAttempt_flow obs domainsToTry m o domain a t s flow s' :
  rotationAttempt obs domainsToTry m o domain a t s = (Ok flow, s') ->
  match flow with
  | Return _ => attemptError obs o a = None
  | Break t' =>
      exists e, attemptError obs o a = Some e /\ isCollision e = false
        /\ rateLimitedDomains t'
           = rateLimitedDomains t + (if isRateLimitAnswer e then 1 else 0)
  | Continue t' =>
      exists e, attemptError obs o a = Some e /\ isCollision e = true
        /\ isRateLimitAnswer e = false
        /\ rateLimitedDomains t' = rateLimitedDomains t
  end.
Proof.
  unfold rotationAttempt, tryCatch, attemptError.
  unfold createAndAuthenticate, bind, liftResult,
    advanceRotation, getState, modify, ret, throw.
  destruct (accounts obs o a) as [account|e].
  - destruct (authenticateMailTm (authNow obs o a) (tokens obs o a))
      as [auth|e].
    + destruct (isNullish account) eqn:Hnull.
      * assert (prop account "id" = None) as ->
          by (destruct account; try discriminate; reflexivity).
        intros Hh. apply onProvisionError_flow in Hh.
        destruct flow; [eauto|eauto|contradiction].
      * destruct (prop_not_nullish account "id" Hnull) as [id ->].
        intros [= <- <-]. reflexivity.
    + intros Hh. apply onProvisionError_flow in Hh.
      destruct flow; [eauto|eauto|contradiction].
  - intros Hh. apply onProvisionError_flow in Hh.
    destruct flow; [eauto|eauto|contradiction].
Qed.

(** One domain of the trial sequence: the loop goes on to the next one
    with the counter raised exactly when the domain was rate-limited. *)
Lemma rotationDomain_flow obs domainsToTry m start o t s flow s' :
  rotationDomain obs domainsToTry m start o t s = (Ok flow, s') ->
  match flow with
  | Return _ => True
  | Break _ => False
  | Continue t' =>
      rateLimitedDomains t'
      = rateLimitedDomains t + (if domainRateLimited obs o then 1 else 0)
  end.
Proof.
  unfold rotationDomain. cbv zeta. cbn [forLoop].
  set (domain := domainAt _ _).
  unfold bind at 1 2.
  destruct (rotationAttempt obs domainsToTry m o domain 0 t s)
    as [[flow0|e0] s0] eqn:H0; [|discriminate].
  pose proof (rotationAttempt_flow _ _ _ _ _ _ _ _ _ _ H0) as F0.
  unfold domainRateLimited.
  destruct flow0 as [t0|t0|r0].
  - destruct F0 as (e & -> & Hc & Hr & Ht0). rewrite Hc.
    unfold bind at 1.
    destruct (rotationAttempt obs domainsToTry m o domain 1 t0 s0)
      as [[flow1|e1] s1] eqn:H1; [|discriminate].
    pose proof (rotationAttempt_flow _ _ _ _ _ _ _ _ _ _ H1) as F1.
    destruct flow1 as [t1|t1|r1]; cbn; intros [= <- <-].
    + destruct F1 as (e1 & -> & _ & -> & ->). cbn. lia.
    + destruct F1 as (e1 & -> & _ & ->). lia.
    + exact I.
  - cbn. intros [= <- <-]. destruct F0 as (e & -> & -> & ->). reflexivity.
  - cbn. intros [= <- <-]. exact I.
Qed.

(** The counter at the end of the loop counts the rate-limited domains
    among those tried. *)
Lemma rotation_count obs domainsToTry m start count from t s t' s' :
  forLoop count from (rotationDomain obs domainsToTry m start) t s
  = (Ok (inl t'), s') ->
  rateLimitedDomains t'
  = rateLimitedDomains t
    + Z.of_nat (length (List.filter (domainRateLimited obs) (seq from count))).
Proof.
  revert from t s. induction count as [|count IH]; intros from t s.
  - cbn. unfold ret. intros [= <- <-]. lia.
  - cbn [forLoop seq List.filter]. unfold bind.
    destruct (rotationDomain obs domainsToTry m start from t s)
      as [[flow|e] s1] eqn:Hd; [|discriminate].
    pose proof (rotationDomain_flow _ _ _ _ _ _ _ _ _ Hd) as F.
    destruct flow as [t1|t1|r]; [|contradiction|discriminate].
    intros Hrest. apply IH in Hrest. rewrite Hrest, F.
    destruct (domainRateLimited obs from); cbn [length]; lia.
Qed.

(** The rotation branch is what [provisionMailboxWithMailTm] runs when no
    domain is requested, on the list made from the two catalog reads. *)
Lemma provisionMailboxWithMailTm_rotates (obs : Observed)
    (preferredDomain : option string) (s s1 s2 : Server)
    (availablePreferred : list string) (allDomains : list JsVal) :
  requestedDomain preferredDomain = None ->
  getAvailablePreferredDomains (firstNow obs) (firstDomains obs) s
  = (Ok availablePreferred, s1) ->
  getAvailableDomains (secondNow obs) (secondDomains obs) s1
  = (Ok allDomains, s2) ->
  provisionMailboxWithMailTm obs preferredDomain s
  = match rotateThrough obs
            (domainsToTryOf availablePreferred
               (listDomainStrings allDomains)) s2 with
    | (Ok returned, s3) => (Ok (fst returned), s3)
    | (Throw e, s3) => (Throw e, s3)
    end.
Proof.
  intros Hnone Hfirst Hsecond. unfold provisionMailboxWithMailTm.
  rewrite Hnone. rewrite (bind_Ok _ _ _ _ _ Hfirst).
  rewrite (bind_Ok _ _ _ _ _ Hsecond). unfold bind, ret.
  destruct (rotateThrough obs _ s2) as [[returned|e] s3]; reflexivity.
Qed.


End Provisioning.

(** ** Ordering of the domains to try *)

Section Ordering.

Context {rt : JsRuntime} {laws : ConsistentCollation rt}.

Local Open Scope list_scope.

Lemma compare_gt_lt a b : compareDomains a b = Gt -> compareDomains b a = Lt.
Proof.
  unfold compareDomains. intros H. rewrite collation_antisym, H. reflexivity.
Qed.

Lemma compare_lt_gt a b : compareDomains a b = Lt -> compareDomains b a = Gt.
Proof.
  unfold compareDomains. intros H. rewrite collation_antisym, H. reflexivity.
Qed.

Lemma domainLe_trans a b c : domainLe a b -> domainLe b c -> domainLe a c.
Proof. unfold domainLe, compareDomains. apply collation_trans. Qed.

Lemma domainLe_total a b : domainLe a b \/ compareDomains a b = Gt.
Proof.
  unfold domainLe. destruct (compareDomains a b); auto; left; discriminate.
Qed.

Lemma compare_eq_key a b :
  compareDomains a b = Eq -> toLowerCase a = toLowerCase b.
Proof. unfold compareDomains. apply collation_separates. Qed.

(** *** Insertion *)

Lemma insertDomain_le x y l :
  domainLe x y -> insertDomain x (y :: l) = x :: y :: l.
Proof.
  unfold domainLe. cbn. destruct (compareDomains x y); congruence.
Qed.

Lemma insertDomain_gt x y l :
  compareDomains x y = Gt -> insertDomain x (y :: l) = y :: insertDomain x l.
Proof. cbn. intros ->. reflexivity. Qed.

(** Two entries that do not collate as equal can be inserted in either
    order. *)
Lemma insertDomain_comm a x l :
  compareDomains a x <> Eq ->
  insertDomain a (insertDomain x l) = insertDomain x (insertDomain a l).
Proof.
  intros Hne. induction l as [|y l IH].
  - cbn. destruct (compareDomains a x) eqn:Hax; [congruence| |].
    + rewrite (compare_lt_gt _ _ Hax). reflexivity.
    + rewrite (compare_gt_lt _ _ Hax). reflexivity.
  - destruct (domainLe_total x y) as [Hxy|Hxy];
      destruct (domainLe_total a y) as [Hay|Hay].
    + rewrite (insertDomain_le x y l Hxy), (insertDomain_le a y l Hay).
      destruct (compareDomains a x) eqn:Hax; [congruence| |].
      * rewrite (insertDomain_le a x) by (unfold domainLe; congruence).
        rewrite (insertDomain_gt x a) by (apply compare_lt_gt, Hax).
        rewrite (insertDomain_le x y l Hxy). reflexivity.
      * rewrite (insertDomain_gt a x) by exact Hax.
        rewrite (insertDomain_le a y l Hay).
        rewrite (insertDomain_le x a)
          by (unfold domainLe; rewrite (compare_gt_lt _ _ Hax); discriminate).
        reflexivity.
    + rewrite (insertDomain_le x y l Hxy), (insertDomain_gt a y l Hay).
      assert (compareDomains a x = Gt) as Hax.
      { destruct (domainLe_total a x) as [Hle|Hgt]; [|exact Hgt].
        exfalso. apply (domainLe_trans _ _ _ Hle Hxy). exact Hay. }
      rewrite (insertDomain_gt a x _ Hax), (insertDomain_gt a y l Hay).
      rewrite (insertDomain_le x y _ Hxy). reflexivity.
    + rewrite (insertDomain_gt x y l Hxy), (insertDomain_le a y l Hay).
      assert (compareDomains x a = Gt) as Hxa.
      { destruct (domainLe_total x a) as [Hle|Hgt]; [|exact Hgt].
        exfalso. apply (domainLe_trans _ _ _ Hle Hay). exact Hxy. }
      rewrite (insertDomain_le a y _ Hay).
      rewrite (insertDomain_gt x a _ Hxa), (insertDomain_gt x y l Hxy).
      reflexivity.
    + rewrite (insertDomain_gt x y l Hxy), (insertDomain_gt a y l Hay).
      rewrite (insertDomain_gt a y _ Hay), (insertDomain_gt x y _ Hxy).
      rewrite IH. reflexivity.
Qed.

Lemma insertDomain_Forall (P : string -> Prop) x l :
  P x -> Forall P l -> Forall P (insertDomain x l).
Proof.
  intros Hx Hl. induction Hl as [|y l Hy Hl IH]; cbn.
  - constructor; [exact Hx|constructor].
  - destruct (compareDomains x y); repeat constructor; assumption.
Qed.

Lemma insertDomain_sorted x l :
  StronglySorted domainLe l -> StronglySorted domainLe (insertDomain x l).
Proof.
  induction 1 as [|y l Hl IH Hy]; cbn.
  - repeat constructor.
  - destruct (compareDomains x y) eqn:Hxy.
    + constructor; [constructor; assumption|].
      assert (domainLe x y) as Hle by (unfold domainLe; congruence).
      constructor; [exact Hle|].
      eapply Forall_impl; [exact Hy|]. intros z. apply domainLe_trans, Hle.
    + constructor; [constructor; assumption|].
      assert (domainLe x y) as Hle by (unfold domainLe; congruence).
      constructor; [exact Hle|].
      eapply Forall_impl; [exact Hy|]. intros z. apply domainLe_trans, Hle.
    + constructor; [exact IH|].
      apply insertDomain_Forall; [|exact Hy].
      unfold domainLe. rewrite (compare_gt_lt _ _ Hxy). discriminate.
Qed.

Lemma sortDomains_sorted l : StronglySorted domainLe (sortDomains l).
Proof.
  induction l as [|x l IH]; cbn; [constructor|].
  apply insertDomain_sorted, IH.
Qed.

(** Sorting a list that is in order gives it back. *)
Lemma sortDomains_fixed l :
  StronglySorted domainLe l -> sortDomains l = l.
Proof.
  induction 1 as [|x l Hl IH Hx]; cbn; [reflexivity|].
  rewrite IH. destruct Hx as [|y l Hxy _]; [reflexivity|].
  apply insertDomain_le, Hxy.
Qed.

Lemma insertDomain_perm x l : insertDomain x l ≡ₚ x :: l.
Proof.
  induction l as [|y l IH]; cbn; [reflexivity|].
  destruct (compareDomains x y); [reflexivity|reflexivity|].
  rewrite IH. apply Permutation_swap.
Qed.

Lemma sortDomains_perm l : sortDomains l ≡ₚ l.
Proof.
  induction l as [|x l IH]; cbn; [reflexivity|].
  rewrite insertDomain_perm, IH. reflexivity.
Qed.

(** *** Moving a name to the front *)

Lemma findIndex_none {A} (pred : A -> bool) (l : list A) :
  Forall (fun y => pred y = false) l -> findIndex pred l = -1.
Proof.
  induction 1 as [|y l Hy _ IH]; [reflexivity|].
  cbn. rewrite Hy, IH. reflexivity.
Qed.

Lemma findIndex_found {A} (pred : A -> bool) (l1 l2 : list A) (x : A) :
  Forall (fun y => pred y = false) l1 -> pred x = true ->
  findIndex pred (l1 ++ x :: l2) = len l1.
Proof.
  intros Hl1 Hx. induction Hl1 as [|y l1 Hy _ IH]; cbn.
  - rewrite Hx. reflexivity.
  - rewrite Hy, IH. pose proof (len_nonneg l1).
    destruct (Z.ltb_spec (len l1) 0); [lia|].
    unfold len. cbn [length]. lia.
Qed.

(** A list has no entry that satisfies [pred], or a first one. *)
Lemma first_match {A} (pred : A -> bool) (l : list A) :
  Forall (fun y => pred y = false) l
  \/ (exists l1 x l2,
        l = l1 ++ x :: l2
        /\ Forall (fun y => pred y = false) l1 /\ pred x = true).
Proof.
  induction l as [|y l IH]; [left; constructor|].
  destruct (pred y) eqn:Hy.
  - right. exists [], y, l. repeat split; [constructor|exact Hy].
  - destruct IH as [Hall|(l1 & x & l2 & -> & Hl1 & Hx)].
    + left. constructor; assumption.
    + right. exists (y :: l1), x, l2.
      repeat split; [constructor; assumption|exact Hx].
Qed.

(** What one block does: nothing when no entry has the name, and
    otherwise the first entry that has it goes to the front. *)
Lemma moveToFront_none (name : string) (l : list string) :
  Forall (fun d => String.eqb (toLowerCase d) name = false) l ->
  moveToFront name l = l.
Proof.
  intros Hall. unfold moveToFront. rewrite (findIndex_none _ _ Hall).
  reflexivity.
Qed.

Lemma moveToFront_found (name : string) (l1 l2 : list string) (x : string) :
  Forall (fun d => String.eqb (toLowerCase d) name = false) l1 ->
  toLowerCase x = name ->
  moveToFront name (l1 ++ x :: l2) = x :: l1 ++ l2.
Proof.
  intros Hl1 Hx. unfold moveToFront.
  rewrite (findIndex_found _ l1 l2 x Hl1)
    by (rewrite Hx; apply String.eqb_refl).
  pose proof (len_nonneg l1) as Hpos.
  destruct (Z.geb_spec (len l1) 0); [|lia].
  unfold len. rewrite Nat2Z.id, list_lookup_middle by reflexivity.
  rewrite delete_middle. reflexivity.
Qed.

Lemma moveToFront_cases (name : string) (l : list string) :
  (Forall (fun d => String.eqb (toLowerCase d) name = false) l
   /\ moveToFront name l = l)
  \/ (exists l1 x l2,
        l = l1 ++ x :: l2
        /\ Forall (fun d => String.eqb (toLowerCase d) name = false) l1
        /\ toLowerCase x = name
        /\ moveToFront name l = x :: l1 ++ l2).
Proof.
  destruct (first_match (fun d => String.eqb (toLowerCase d) name) l)
    as [Hall|(l1 & x & l2 & -> & Hl1 & Hx)].
  - left. split; [exact Hall|apply moveToFront_none, Hall].
  - right. exists l1, x, l2. apply String.eqb_eq in Hx.
    repeat split; [exact Hl1|exact Hx|apply moveToFront_found; assumption].
Qed.

Lemma sortDomains_middle (l1 l2 : list string) (x : string) :
  Forall (fun a => compareDomains a x <> Eq) l1 ->
  sortDomains (l1 ++ x :: l2) = insertDomain x (sortDomains (l1 ++ l2)).
Proof.
  induction 1 as [|a l1 Ha _ IH]; [reflexivity|].
  cbn [app sortDomains]. rewrite IH. apply insertDomain_comm, Ha.
Qed.

(** A block does not change what the sort of the list is. *)
Lemma sortDomains_moveToFront (name : string) (l : list string) :
  sortDomains (moveToFront name l) = sortDomains l.
Proof.
  destruct (moveToFront_cases name l)
    as [[_ ->]|(l1 & x & l2 & -> & Hl1 & Hx & ->)]; [reflexivity|].
  rewrite sortDomains_middle; [reflexivity|].
  eapply Forall_impl; [exact Hl1|]. cbn. intros a Ha Heq.
  apply compare_eq_key in Heq. rewrite Heq, Hx in Ha.
  rewrite String.eqb_refl in Ha. discriminate.
Qed.

Lemma sortDomains_chain (names : list string) (l : list string) :
  sortDomains (fold_left (fun l name => moveToFront name l) names l)
  = sortDomains l.
Proof.
  revert l. induction names as [|name names IH]; intros l; [reflexivity|].
  cbn [fold_left]. rewrite IH. apply sortDomains_moveToFront.
Qed.

Lemma Forall_sublist {A} (P : A -> Prop) (l1 l2 : list A) :
  l1 `sublist_of` l2 -> Forall P l2 -> Forall P l1.
Proof.
  induction 1 as [|x l1 l2 _ IH|x l1 l2 _ IH]; intros Hall.
  - constructor.
  - inversion Hall; subst. constructor; auto.
  - inversion Hall; subst. auto.
Qed.

Lemma StronglySorted_sublist {A} (R : A -> A -> Prop) (l1 l2 : list A) :
  l1 `sublist_of` l2 -> StronglySorted R l2 -> StronglySorted R l1.
Proof.
  induction 1 as [|x l1 l2 Hsub IH|x l1 l2 _ IH]; intros Hs.
  - constructor.
  - inversion Hs; subst. constructor; [auto|].
    eapply Forall_sublist; eassumption.
  - inversion Hs; subst. auto.
Qed.

Lemma hasDomain_false (l : list string) (name : string) :
  hasDomain l name = false <->
  Forall (fun d => String.eqb (toLowerCase d) name = false) l.
Proof.
  unfold hasDomain. induction l as [|d l IH]; cbn.
  - split; [constructor|reflexivity].
  - rewrite orb_false_iff, IH. split.
    + intros [Hd Hl]. constructor; assumption.
    + intros Hall. inversion Hall; subst. auto.
Qed.

Lemma hasDomain_without (l1 l2 : list string) (x name : string) :
  toLowerCase x <> name ->
  hasDomain (l1 ++ x :: l2) name = hasDomain (l1 ++ l2) name.
Proof.
  intros Hne. unfold hasDomain. rewrite !existsb_app. cbn.
  destruct (String.eqb_spec (toLowerCase x) name); [contradiction|].
  reflexivity.
Qed.

Lemma hasDomain_perm (l l' : list string) (name : string) :
  l ≡ₚ l' -> hasDomain l name = hasDomain l' name.
Proof.
  intros Hperm. unfold hasDomain. apply eq_true_iff_eq.
  rewrite !existsb_exists. split; intros (d & Hd & Hname); exists d;
    (split; [|exact Hname]).
  - apply list_elem_of_In. rewrite <- Hperm. apply list_elem_of_In, Hd.
  - apply list_elem_of_In. rewrite Hperm. apply list_elem_of_In, Hd.
Qed.

(** The chain on a list [acc ++ rest] whose part [acc] has none of the
    names left: the first entry of [rest] with each name that [rest] has
    is put before [acc], the later names first, and the other entries of
    [rest] stay in their order. *)
Lemma chain_front (names : list string) :
  NoDup names ->
  forall acc rest : list string,
    Forall (fun d => toLowerCase d ∉ names) acc ->
    exists front rest' : list string,
      fold_left (fun l name => moveToFront name l) names (acc ++ rest)
      = front ++ acc ++ rest'
      /\ map toLowerCase front = rev (List.filter (hasDomain rest) names)
      /\ rest' `sublist_of` rest.
Proof.
  induction 1 as [|name names Hfresh Hnodup IH]; intros acc rest Hacc.
  - exists [], rest. repeat split; reflexivity.
  - cbn [fold_left List.filter].
    assert (Forall (fun d => toLowerCase d ∉ names) acc) as Hacc'.
    { eapply Forall_impl; [exact Hacc|]. cbn. intros d Hd Hin. apply Hd.
      constructor. exact Hin. }
    assert (Forall (fun d => String.eqb (toLowerCase d) name = false) acc)
      as Hacc_name.
    { eapply Forall_impl; [exact Hacc|]. cbn. intros d Hd.
      apply String.eqb_neq. intros Heq. apply Hd. rewrite Heq. constructor. }
    destruct (moveToFront_cases name rest)
      as [[Hnone _]|(r1 & x & r2 & -> & Hr1 & Hx & _)].
    + rewrite (moveToFront_none name (acc ++ rest))
        by (apply Forall_app_2; assumption).
      apply hasDomain_false in Hnone. rewrite Hnone.
      apply IH, Hacc'.
    + rewrite app_assoc.
      rewrite (moveToFront_found name (acc ++ r1) r2 x)
        by (try apply Forall_app_2; assumption).
      rewrite <- app_assoc.
      assert (hasDomain (r1 ++ x :: r2) name = true) as ->.
      { unfold hasDomain. rewrite existsb_app. cbn.
        rewrite Hx, String.eqb_refl. rewrite orb_true_r. reflexivity. }
      destruct (IH (x :: acc) (r1 ++ r2)) as (front & rest' & Hrun & Hkeys & Hsub).
      { constructor; [rewrite Hx; exact Hfresh|exact Hacc']. }
      exists (front ++ [x]), rest'. split; [|split].
      * change (x :: acc ++ r1 ++ r2) with ((x :: acc) ++ (r1 ++ r2)).
        rewrite Hrun, <- !app_assoc. reflexivity.
      * rewrite map_app, Hkeys. cbn [map rev]. rewrite Hx. f_equal.
        f_equal. apply List.filter_ext_in. intros m Hm. symmetry.
        apply hasDomain_without. rewrite Hx. intros ->.
        apply Hfresh, list_elem_of_In, Hm.
      * etransitivity; [exact Hsub|].
        apply sublist_app; [reflexivity|]. apply sublist_cons. reflexivity.
Qed.

Lemma priorityOrder_chain : priorityOrder = rev moveChain.
Proof. reflexivity. Qed.

Lemma moveChain_NoDup : NoDup moveChain.
Proof. apply (bool_decide_unpack (NoDup moveChain)). vm_compute. exact I. Qed.


End Ordering.

(** ** Upstream client: what a call returns and what it throws *)

Section UpstreamResults.

Context {rt : JsRuntime}.

(** What a pass that settles settles with. *)
Lemma attempt_settled o retries maxRetries r :
  attempt o retries maxRetries = Settled r ->
  match o with
  | Responded status text =>
      if responseOk status then r = Ok (parseBody text)
      else r = Throw (responseError status text (parseBody text))
           /\ (500 <= status -> (maxRetries <= retries)%nat)
  | Rejected e =>
      r = Throw e
      /\ (isNetworkOrTimeout (Rejected e) = true -> (maxRetries <= retries)%nat)
  end.
Proof.
  unfold attempt, onCaught. destruct o as [status text|e]; simpl.
  - destruct (responseOk status); simpl; [intros [= <-]; reflexivity|].
    destruct (Z.leb_spec 500 status) as [H5|H5];
      destruct (Nat.ltb_spec retries maxRetries) as [Hlt|Hge]; simpl;
      try discriminate; intros [= <-]; split; trivial; lia.
  - destruct (_ || _); simpl.
    + destruct (Nat.ltb_spec retries maxRetries) as [Hlt|Hge];
        [discriminate|]. intros [= <-]. split; trivial.
    + intros [= <-]. split; [reflexivity|discriminate].
Qed.

(** X1.  A call of [mailTmRequest] returns a value exactly when the
    fetch that settles it is answered with a 2xx status, and the value is
    then the parsed body of that answer: [null] when the body is empty and
    [null] when it is not JSON. *)
Theorem mailTmRequest_returns_parsed_body (fetch : nat -> FetchOutcome)
    (retries maxRetries : nat) :
  let run := mailTmRequest fetch retries maxRetries in
  let last := fetch (retries + length (snd run))%nat in
  (forall data,
     fst run = Ok data
     <-> exists status text,
           last = Responded status text /\ responseOk status = true
           /\ data = parseBody text)
  /\ parseBody "" = JNull
  /\ (forall text, jsonParse text = None -> parseBody text = JNull).
Proof.
  cbv zeta.
  destruct (mailTmRequest_run fetch maxRetries retries) as [_ Hlast].
  apply attempt_settled in Hlast.
  split; [|split].
  - intros data. split.
    + intros Hok. rewrite Hok in Hlast.
      destruct (fetch _) as [status text|e].
      * destruct (responseOk status) eqn:Hstatus.
        -- injection Hlast as ->. eauto.
        -- destruct Hlast as [[=] _].
      * destruct Hlast as [[=] _].
    + intros (status & text & Hfetch & Hstatus & ->).
      rewrite Hfetch, Hstatus in Hlast. exact Hlast.
  - reflexivity.
  - intros text Hparse. unfold parseBody. rewrite Hparse.
    destruct (String.eqb text ""); reflexivity.
Qed.

Lemma length_substring (n m : nat) (s : string) :
  (String.length (String.substring n m s) <= m)%nat.
Proof.
  revert n m. induction s as [|c s IH]; intros [|n] [|m]; simpl; try lia.
  - specialize (IH 0%nat m). lia.
  - apply IH.
  - apply IH.
Qed.


End UpstreamResults.

(** ** Domain catalog: the cache and the names *)

Section CatalogCache.

Context {rt : JsRuntime}.

Lemma len_cons_test {A} (x : A) (l : list A) : (len (x :: l) =? 0) = false.
Proof. unfold len. cbn [length]. apply Z.eqb_neq. lia. Qed.

Lemma catalogEntries_hydraMember (payload : JsVal) (entries : list JsVal) :
  catalogEntries payload entries -> hydraMember payload = entries.
Proof. unfold catalogEntries, hydraMember. intros ->. reflexivity. Qed.

(** What a call that makes its fetch does with an answer. *)
Lemma getAvailableDomains_fetched (now : Z) (payload : JsVal) (s : Server)
    (entries : list JsVal) :
  cache_items (cachedDomains s) = [] \/ cache_expiresAt (cachedDomains s) <= now ->
  catalogEntries payload entries ->
  getAvailableDomains now (Ok payload) s
  = (Ok entries,
     setCachedDomains (mkCache (now + DOMAIN_CACHE_TTL_MS) entries) s).
Proof.
  intros Hstale Hentries. rewrite getAvailableDomains_eq. cbv zeta.
  rewrite (catalogEntries_hydraMember _ _ Hentries).
  destruct Hstale as [-> | Hexpired]; [reflexivity|].
  assert ((cache_expiresAt (cachedDomains s) >? now) = false) as ->
    by (rewrite Z.gtb_ltb; apply Z.ltb_ge; lia).
  rewrite andb_false_r. reflexivity.
Qed.

(** X3.  A catalog read that fetches entries (the cache was empty or
    stale, the answer holds an array that is not empty under
    [hydra:member]) returns them and stores them with an expiry ten
    minutes later.  Every read before that expiry returns the stored
    entries without looking at the upstream and leaves the state as it is;
    a read at or after it returns what the upstream then answers. *)
Theorem getAvailableDomains_served_from_cache (t0 : Z) (payload : JsVal)
    (entries : list JsVal) (s : Server) :
  cache_items (cachedDomains s) = [] \/ cache_expiresAt (cachedDomains s) <= t0 ->
  catalogEntries payload entries ->
  entries <> [] ->
  let fetched := getAvailableDomains t0 (Ok payload) s in
  fst fetched = Ok entries
  /\ cache_items (cachedDomains (snd fetched)) = entries
  /\ cache_expiresAt (cachedDomains (snd fetched)) = t0 + 10 * 60 * 1000
  /\ (forall now request, now < t0 + 10 * 60 * 1000 ->
        getAvailableDomains now request (snd fetched)
        = (Ok entries, snd fetched))
  /\ (forall now payload' entries',
        t0 + 10 * 60 * 1000 <= now ->
        catalogEntries payload' entries' ->
        fst (getAvailableDomains now (Ok payload') (snd fetched))
        = Ok entries').
Proof.
  intros Hstale Hentries Hmembers. cbv zeta.
  rewrite (getAvailableDomains_fetched _ _ _ _ Hstale Hentries).
  cbn [fst snd]. split; [reflexivity|]. split; [reflexivity|].
  split; [reflexivity|].
  destruct entries as [|entry entries]; [contradiction|].
  split.
  - intros now request Hnow. rewrite getAvailableDomains_eq. cbn.
    rewrite len_cons_test. cbn.
    assert ((t0 + DOMAIN_CACHE_TTL_MS >? now) = true) as ->
      by (apply Z.gtb_lt; unfold DOMAIN_CACHE_TTL_MS; lia).
    reflexivity.
  - intros now payload' entries' Hnow Hentries'.
    erewrite getAvailableDomains_fetched; [reflexivity| |exact Hentries'].
    right. cbn. unfold DOMAIN_CACHE_TTL_MS. lia.
Qed.

(** X4.  A catalog read that fetches an empty catalog returns it, and
    the cache then holds no entries: whatever the instant, the next read
    asks the upstream again, returning its entries or raising its
    failure. *)
Theorem getAvailableDomains_empty_not_cached (t0 : Z) (payload : JsVal)
    (s : Server) :
  cache_items (cachedDomains s) = [] \/ cache_expiresAt (cachedDomains s) <= t0 ->
  catalogEntries payload [] ->
  let fetched := getAvailableDomains t0 (Ok payload) s in
  fst fetched = Ok []
  /\ cache_items (cachedDomains (snd fetched)) = []
  /\ (forall now payload' entries',
        catalogEntries payload' entries' ->
        fst (getAvailableDomains now (Ok payload') (snd fetched))
        = Ok entries')
  /\ (forall now error,
        getAvailableDomains now (Throw error) (snd fetched)
        = (Throw error, snd fetched)).
Proof.
  intros Hstale Hentries. cbv zeta.
  rewrite (getAvailableDomains_fetched _ _ _ _ Hstale Hentries).
  cbn [fst snd]. split; [reflexivity|]. split; [reflexivity|]. split.
  - intros now payload' entries' Hentries'.
    erewrite getAvailableDomains_fetched;
      [reflexivity|left; reflexivity|exact Hentries'].
  - intros now error. rewrite getAvailableDomains_eq. reflexivity.
Qed.

End CatalogCache.

Section DomainNames.

Context {rt : JsRuntime}.

Lemma jsOr_string (a b : JsVal) (d : string) :
  jsOr a b = JStr d -> (a = JStr d /\ d <> "") \/ b = JStr d.
Proof.
  unfold jsOr. destruct (truthy a) eqn:Ha; [|auto].
  intros ->. left. split; [reflexivity|].
  simpl in Ha. intros ->. discriminate.
Qed.

(** A name read from a catalog entry is not the empty string. *)
Lemma normalizeDomainEntry_name (entry : JsVal) (d : string) :
  asString (normalizeDomainEntry entry) = Some d -> d <> "".
Proof.
  unfold normalizeDomainEntry.
  destruct (truthy entry) eqn:Htruthy; simpl; [|discriminate].
  assert (forall x, asString (jsOr x JNull) = Some d -> x = JStr d /\ d <> "")
    as Hor.
  { intros x Hx. destruct (jsOr x JNull) as [| | | |d'| |] eqn:E;
      try discriminate.
    injection Hx as ->. apply jsOr_string in E.
    destruct E as [E|E]; [exact E|discriminate]. }
  destruct entry; try (intros H; apply Hor in H; tauto).
  simpl. intros [= ->]. simpl in Htruthy. intros ->. discriminate.
Qed.

Lemma listDomainStrings_nonempty_names (entries : list JsVal) :
  Forall (fun d => d <> "") (listDomainStrings entries).
Proof.
  unfold listDomainStrings. apply Forall_forall. intros d Hd.
  apply list_elem_of_omap in Hd. destruct Hd as (entry & _ & Hentry).
  apply normalizeDomainEntry_name in Hentry. exact Hentry.
Qed.

Lemma listDomainStrings_cons (entry : JsVal) (entries : list JsVal) :
  listDomainStrings (entry :: entries)
  = match asString (normalizeDomainEntry entry) with
    | Some d => d :: listDomainStrings entries
    | None => listDomainStrings entries
    end.
Proof. reflexivity. Qed.

(** X5.  The names read from catalog entries: none is the empty
    string and there are at most as many as entries.  Entries that are
    strings give those of them that are not empty, in order; entries that
    are objects whose [domain] is a string that is not empty give those
    strings, in order. *)
Theorem listDomainStrings_names (entries : list JsVal) :
  Forall (fun d => d <> "") (listDomainStrings entries)
  /\ (length (listDomainStrings entries) <= length entries)%nat
  /\ (forall names : list string,
        listDomainStrings (map JStr names)
        = List.filter (fun d => negb (String.eqb d "")) names)
  /\ (forall (names : list string) (others : list (string * JsVal)),
        Forall (fun d => d <> "") names ->
        listDomainStrings
          (map (fun d => JObj (("domain", JStr d) :: others)) names)
        = names).
Proof.
  split; [apply listDomainStrings_nonempty_names|].
  split.
  { induction entries as [|entry entries IH]; [reflexivity|].
    rewrite listDomainStrings_cons.
    destruct (asString (normalizeDomainEntry entry)); cbn [length]; lia. }
  split.
  - induction names as [|d names IH]; [reflexivity|].
    cbn [map List.filter]. rewrite listDomainStrings_cons, IH.
    unfold normalizeDomainEntry. simpl.
    destruct (String.eqb d ""); reflexivity.
  - intros names others Hnames.
    induction Hnames as [|d names Hd _ IH]; [reflexivity|].
    cbn [map]. rewrite listDomainStrings_cons, IH.
    assert (String.eqb d "" = false) as Hd' by (apply String.eqb_neq, Hd).
    unfold normalizeDomainEntry, jsOr, optProp. simpl.
    repeat (rewrite Hd'; simpl). reflexivity.
Qed.

(** [find] is the first entry kept by [filter]. *)
Lemma find_filter {A} (p : A -> bool) (l : list A) :
  List.find p l = head (List.filter p l).
Proof.
  induction l as [|x l IH]; [reflexivity|]. simpl.
  destruct (p x); [reflexivity|exact IH].
Qed.

(** X6.  A requested domain is looked up in the names of the catalog
    without regard to case: [pickMailTmDomain] returns the first name that
    matches, as the catalog writes it, and otherwise throws an error with
    status 422 that carries the names available.  In both cases the
    rotation cursor is left where it was. *)
Theorem pickMailTmDomain_requested (now : Z) (request : Result JsVal)
    (requested : string) (s s1 : Server) (domains : list JsVal) :
  requested <> "" ->
  getAvailableDomains now request s = (Ok domains, s1) ->
  listDomainStrings domains <> [] ->
  let names := listDomainStrings domains in
  let matching :=
    List.filter
      (fun d => String.eqb (toLowerCase d) (toLowerCase requested)) names in
  pickMailTmDomain now request (Some requested) s
  = match matching with
    | found :: _ => (Ok (Some found), s1)
    | [] => (Throw (unknownDomainError requested names), s1)
    end
  /\ domainRotationIndex s1 = domainRotationIndex s
  /\ err_status (unknownDomainError requested names) = JNum 422
  /\ err_availableDomains (unknownDomainError requested names) = Some names.
Proof.
  intros Hrequested Hget Hnames names matching.
  split; [|split; [eapply getAvailableDomains_cursor; exact Hget|]];
    [|split; reflexivity].
  unfold pickMailTmDomain. rewrite (bind_Ok _ _ _ _ _ Hget).
  destruct (Z.eqb_spec (len domains) 0) as [E|_].
  { apply len_zero in E. subst domains. contradiction Hnames. reflexivity. }
  fold names.
  destruct (Z.eqb_spec (len names) 0) as [E|_].
  { apply len_zero in E. contradiction. }
  unfold requestedDomain.
  destruct (String.eqb_spec requested "") as [->|_]; [contradiction|].
  rewrite find_filter. fold matching.
  destruct matching as [|found rest] eqn:Hmatching; [reflexivity|].
  cbn [head].
  assert (found <> "") as Hfound.
  { pose proof (listDomainStrings_nonempty_names domains) as Hall.
    rewrite Forall_forall in Hall. apply Hall. fold names.
    assert (found ∈ matching) as Hin by (rewrite Hmatching; left).
    apply list_elem_of_In, filter_In in Hin.
    apply list_elem_of_In. tauto. }
  destruct (String.eqb_spec found "") as [->|_]; [contradiction|].
  reflexivity.
Qed.

(** X7.  On a catalog without entries [pickMailTmDomain] throws
    [No disposable domains available], and on a catalog none of whose
    entries has a name it throws [Domain list is empty], whether a domain
    is requested or not; the error handler answers both with status
    500. *)
Theorem pickMailTmDomain_empty_catalog (now : Z) (request : Result JsVal)
    (preferredDomain : option string) (s s1 : Server) (domains : list JsVal) :
  listsDomains request ->
  getAvailableDomains now request s = (Ok domains, s1) ->
  listDomainStrings domains = [] ->
  let message :=
    match domains with
    | [] => "No disposable domains available"
    | _ :: _ => "Domain list is empty"
    end in
  pickMailTmDomain now request preferredDomain s
  = (Throw (newError message), s1)
  /\ res_status (errorHandler (newError message)) = 500.
Proof.
  intros _ Hget Hnames. cbv zeta. split; [|reflexivity].
  unfold pickMailTmDomain. rewrite (bind_Ok _ _ _ _ _ Hget).
  destruct domains as [|entry entries]; [reflexivity|].
  rewrite len_cons_test, Hnames. reflexivity.
Qed.

End DomainNames.

(** ** Provisioning: what it leaves untouched *)

Section Frames.

Context {rt : JsRuntime}.

Lemma keeps_ret {A B} (proj : Server -> B) (a : A) : keeps proj (ret a).
Proof. intros s. reflexivity. Qed.

Lemma keeps_throw {A B} (proj : Server -> B) (e : JsError) :
  keeps proj (throw (A := A) e).
Proof. intros s. reflexivity. Qed.

Lemma keeps_liftResult {A B} (proj : Server -> B) (r : Result A) :
  keeps proj (liftResult r).
Proof. intros s. reflexivity. Qed.

Lemma keeps_getState {B} (proj : Server -> B) : keeps proj getState.
Proof. intros s. reflexivity. Qed.

Lemma keeps_modify {B} (proj : Server -> B) (f : Server -> Server) :
  (forall s, proj (f s) = proj s) -> keeps proj (modify f).
Proof. intros Hf s. apply Hf. Qed.

Lemma keeps_bind {A A' B} (proj : Server -> B) (m : M A) (k : A -> M A') :
  keeps proj m -> (forall a, keeps proj (k a)) -> keeps proj (bind m k).
Proof.
  intros Hm Hk s. unfold bind. specialize (Hm s).
  destruct (m s) as [[a|e] s1]; cbn in *; [rewrite Hk|]; exact Hm.
Qed.

Lemma keeps_tryCatch {A B} (proj : Server -> B) (m : M A)
    (handler : JsError -> M A) :
  keeps proj m -> (forall e, keeps proj (handler e)) ->
  keeps proj (tryCatch m handler).
Proof.
  intros Hm Hh s. unfold tryCatch. specialize (Hm s).
  destruct (m s) as [[a|e] s1]; cbn in *; [|rewrite Hh]; exact Hm.
Qed.

Lemma keeps_forLoop {S R B} (proj : Server -> B)
    (body : nat -> S -> M (Flow S R)) :
  (forall i st, keeps proj (body i st)) ->
  forall count from st, keeps proj (forLoop count from body st).
Proof.
  intros Hbody count.
  induction count as [|count IH]; intros from st; cbn [forLoop].
  - apply keeps_ret.
  - apply keeps_bind; [apply Hbody|].
    intros [st'|st'|r]; [apply IH|apply keeps_ret|apply keeps_ret].
Qed.

Ltac keeps_step :=
  match goal with
  | |- keeps _ (bind _ _) => apply keeps_bind; [|intros ?]
  | |- keeps _ (tryCatch _ _) => apply keeps_tryCatch; [|intros ?]
  | |- keeps _ (ret _) => apply keeps_ret
  | |- keeps _ (throw _) => apply keeps_throw
  | |- keeps _ (liftResult _) => apply keeps_liftResult
  | |- keeps _ getState => apply keeps_getState
  | |- keeps _ (modify _) => apply keeps_modify; intros ?; reflexivity
  | |- keeps _ (forLoop _ _ _ _) => apply keeps_forLoop; intros ? ?
  | |- keeps _ (if ?c then _ else _) => destruct c
  | |- keeps _ (match ?c with _ => _ end) => destruct c
  end.

Lemma getAvailableDomains_keeps_mailboxes now request :
  keeps mailboxes (getAvailableDomains now request).
Proof. unfold getAvailableDomains. repeat keeps_step. Qed.

Lemma getAvailableDomains_keeps_cursor now request :
  keeps domainRotationIndex (getAvailableDomains now request).
Proof. unfold getAvailableDomains. repeat keeps_step. Qed.

Lemma pickMailTmDomain_keeps_mailboxes now request preferredDomain :
  keeps mailboxes (pickMailTmDomain now request preferredDomain).
Proof.
  unfold pickMailTmDomain, pickByRotation. cbv zeta.
  apply keeps_bind; [apply getAvailableDomains_keeps_mailboxes|intros ?].
  repeat keeps_step.
Qed.

(** Looking up a requested domain leaves the cursor alone. *)
Lemma pickMailTmDomain_keeps_cursor now request preferredDomain requested :
  requestedDomain preferredDomain = Some requested ->
  keeps domainRotationIndex (pickMailTmDomain now request preferredDomain).
Proof.
  intros Hrequested. unfold pickMailTmDomain. rewrite Hrequested. cbv zeta.
  apply keeps_bind; [apply getAvailableDomains_keeps_cursor|intros ?].
  repeat keeps_step.
Qed.

Lemma createAndAuthenticate_keeps {B} (proj : Server -> B) obs domain o a
    advance :
  keeps proj advance ->
  keeps proj (createAndAuthenticate obs domain o a advance).
Proof.
  intros Hadvance. unfold createAndAuthenticate. cbv zeta.
  repeat keeps_step; exact Hadvance.
Qed.

Lemma provisionRequested_loop obs requested :
  provisionRequested obs requested
  = (picked <- pickMailTmDomain (firstNow obs) (firstDomains obs)
                 (Some requested) ;;
     let domain := match picked with Some d => d | None => "undefined" end in
     outcome <- forLoop 5 0 (requestedAttempt obs domain) tt ;;
     match outcome with
     | inr credential => ret credential
     | inl _ => throw (newError "Unable to allocate mailbox at this time")
     end)%js.
Proof. reflexivity. Qed.

Lemma requestedAttempt_keeps {B} (proj : Server -> B) obs domain a st :
  keeps proj (requestedAttempt obs domain a st).
Proof.
  unfold requestedAttempt.
  apply keeps_tryCatch.
  - apply keeps_bind; [|intros ?; apply keeps_ret].
    apply createAndAuthenticate_keeps, keeps_ret.
  - intros e. repeat keeps_step.
Qed.

Lemma requestedDomain_Some preferredDomain requested :
  requestedDomain preferredDomain = Some requested ->
  requested <> "" /\ requestedDomain (Some requested) = Some requested.
Proof.
  unfold requestedDomain. destruct preferredDomain as [d|]; [|discriminate].
  destruct (String.eqb_spec d "") as [|Hd]; [discriminate|].
  intros [= <-]. split; [exact Hd|].
  destruct (String.eqb_spec d ""); [contradiction|reflexivity].
Qed.

Lemma provisionRequested_keeps_cursor obs requested :
  requested <> "" ->
  keeps domainRotationIndex (provisionRequested obs requested).
Proof.
  intros Hrequested. rewrite provisionRequested_loop.
  apply keeps_bind.
  - apply pickMailTmDomain_keeps_cursor with (requested := requested).
    unfold requestedDomain.
    destruct (String.eqb_spec requested ""); [contradiction|reflexivity].
  - intros picked. cbv zeta. apply keeps_bind.
    + apply keeps_forLoop. intros i st. apply requestedAttempt_keeps.
    + intros [?|?]; [apply keeps_throw|apply keeps_ret].
Qed.

Lemma provisionRequested_keeps_mailboxes obs requested :
  keeps mailboxes (provisionRequested obs requested).
Proof.
  rewrite provisionRequested_loop.
  apply keeps_bind; [apply pickMailTmDomain_keeps_mailboxes|].
  intros picked. cbv zeta. apply keeps_bind.
  - apply keeps_forLoop. intros i st. apply requestedAttempt_keeps.
  - intros [?|?]; [apply keeps_throw|apply keeps_ret].
Qed.

Lemma advanceRotation_keeps_mailboxes domainsToTry :
  keeps mailboxes (advanceRotation domainsToTry).
Proof. unfold advanceRotation. repeat keeps_step. Qed.

Lemma onProvisionError_keeps {B} (proj : Server -> B) error o a m t :
  keeps proj (onProvisionError error o a m t).
Proof. unfold onProvisionError. repeat keeps_step. Qed.

Lemma rotateThrough_keeps_mailboxes obs domainsToTry :
  keeps mailboxes (rotateThrough obs domainsToTry).
Proof.
  unfold rotateThrough. cbv zeta.
  destruct (len domainsToTry =? 0); [apply keeps_throw|].
  apply keeps_bind; [apply keeps_getState|intros s0].
  apply keeps_bind.
  - apply keeps_forLoop. intros o t. unfold rotationDomain. cbv zeta.
    apply keeps_bind.
    + apply keeps_forLoop. intros a t'. unfold rotationAttempt.
      apply keeps_tryCatch.
      * apply keeps_bind; [|intros ?; apply keeps_ret].
        apply createAndAuthenticate_keeps, advanceRotation_keeps_mailboxes.
      * intros e. apply onProvisionError_keeps.
    + intros [?|?]; apply keeps_ret.
  - intros [t|returned]; [|apply keeps_ret].
    apply keeps_bind; [apply advanceRotation_keeps_mailboxes|].
    intros _. apply keeps_throw.
Qed.

(** Provisioning does not touch the registry. *)
Lemma provisionMailboxWithMailTm_keeps_mailboxes obs preferredDomain :
  keeps mailboxes (provisionMailboxWithMailTm obs preferredDomain).
Proof.
  unfold provisionMailboxWithMailTm.
  destruct (requestedDomain preferredDomain) as [requested|].
  - apply provisionRequested_keeps_mailboxes.
  - unfold getAvailablePreferredDomains. cbv zeta.
    apply keeps_bind.
    { apply keeps_bind; [apply getAvailableDomains_keeps_mailboxes|].
      intros ?. apply keeps_ret. }
    intros availablePreferred.
    apply keeps_bind; [apply getAvailableDomains_keeps_mailboxes|].
    intros allDomains.
    apply keeps_bind; [apply rotateThrough_keeps_mailboxes|].
    intros ?. apply keeps_ret.
Qed.

(** X8.  Provisioning for a requested domain leaves the rotation
    cursor and the registry as they were, whether it returns a credential
    or throws. *)
Theorem provisionMailboxWithMailTm_requested_frame (obs : Observed)
    (preferredDomain : option string) (requested : string) (s : Server) :
  requestedDomain preferredDomain = Some requested ->
  let after := snd (provisionMailboxWithMailTm obs preferredDomain s) in
  domainRotationIndex after = domainRotationIndex s
  /\ mailboxes after = mailboxes s.
Proof.
  intros Hrequested. cbv zeta. split.
  - unfold provisionMailboxWithMailTm. rewrite Hrequested.
    apply provisionRequested_keeps_cursor.
    apply (requestedDomain_Some _ _ Hrequested).
  - apply provisionMailboxWithMailTm_keeps_mailboxes.
Qed.

End Frames.

(** ** Provisioning for a requested domain, and without any domain *)

Section ProvisioningAttempts.

Context {rt : JsRuntime}.

(** A [try] block that fails, when nothing is done between the
    authentication and the result. *)
Lemma createAndAuthenticate_error obs domain o a s e :
  attemptError obs o a = Some e ->
  createAndAuthenticate obs domain o a (ret tt) s = (Throw e, s).
Proof.
  unfold attemptError, createAndAuthenticate, bind, liftResult, ret, throw.
  destruct (accounts obs o a) as [account|e0]; [|intros [= ->]; reflexivity].
  destruct (authenticateMailTm (authNow obs o a) (tokens obs o a))
    as [auth|e0]; [|intros [= ->]; reflexivity].
  destruct (isNullish account) eqn:Hnull; [|discriminate].
  intros [= <-].
  assert (prop account "id" = None) as ->
    by (destruct account; try discriminate; reflexivity).
  reflexivity.
Qed.

(** A [try] block that succeeds, and the credential it builds. *)
Lemma createAndAuthenticate_fields obs domain o a (advance : M unit) s s1 :
  attemptError obs o a = None ->
  advance s = (Ok tt, s1) ->
  exists account auth credential,
    accounts obs o a = Ok account
    /\ authenticateMailTm (authNow obs o a) (tokens obs o a) = Ok auth
    /\ createAndAuthenticate obs domain o a advance s = (Ok credential, s1)
    /\ remote_address credential
       = generateLocalPart (draws obs o a) +:+ "@" +:+ domain
    /\ remote_domain credential
       = actualDomainOf (remote_address credential) domain
    /\ remote_password credential
       = generatePassword
           (fun i => draws obs o a (MAILBOX_LOCAL_PART_LENGTH + i)%nat)
    /\ remote_accountId credential = optProp account "id"
    /\ remote_token credential = auth_token auth
    /\ remote_tokenExpiresAt credential = auth_tokenExpiresAt auth.
Proof.
  unfold attemptError. intros Hok Hadvance.
  destruct (accounts obs o a) as [account|e0] eqn:Ha; [|discriminate].
  destruct (authenticateMailTm (authNow obs o a) (tokens obs o a))
    as [auth|e0] eqn:Hd; [|discriminate].
  destruct (isNullish account) eqn:Hnull; [discriminate|].
  destruct (prop_not_nullish account "id" Hnull) as [id Hid].
  exists account, auth. eexists. split; [reflexivity|]. split; [reflexivity|].
  unfold createAndAuthenticate, bind, liftResult, ret.
  rewrite Ha, Hd, Hadvance, Hid.
  split; [reflexivity|]. cbn.
  repeat split; try reflexivity.
  unfold optProp. rewrite Hid. reflexivity.
Qed.

Lemma requestedAttempt_error obs domain a st s e :
  attemptError obs 0 a = Some e ->
  requestedAttempt obs domain a st s
  = if isRetriedStatus e then (Ok (Continue tt), s) else (Throw e, s).
Proof.
  intros He. unfold requestedAttempt, tryCatch, bind.
  rewrite (createAndAuthenticate_error _ _ _ _ _ _ He).
  unfold isRetriedStatus. destruct (_ || _); reflexivity.
Qed.

(** Passes that continue without changing anything are skipped. *)
Lemma forLoop_continues {St R} (body : nat -> St -> M (Flow St R)) (st : St)
    (s : Server) (k : nat) :
  forall n from,
    (forall j, (j < k)%nat -> body (from + j)%nat st s = (Ok (Continue st), s)) ->
    forLoop (k + n) from body st s = forLoop n (from + k) body st s.
Proof.
  induction k as [|k IH]; intros n from Hbody.
  - rewrite Nat.add_0_r. reflexivity.
  - cbn [Nat.add forLoop]. unfold bind.
    pose proof (Hbody 0%nat ltac:(lia)) as H0.
    rewrite Nat.add_0_r in H0. rewrite H0.
    replace (from + S k)%nat with (S from + k)%nat by lia.
    apply IH. intros j Hj.
    replace (S from + j)%nat with (from + S j)%nat by lia.
    apply Hbody. lia.
Qed.

(** X9.  The loop of [provisionMailboxWithMailTm] for a requested
    domain.  While the attempts fail with status 400, 409 or 422 the next
    attempt is made, five at most: after five such failures the call
    throws [Unable to allocate mailbox at this time]; the first failure
    with another status, or without one, is thrown as it is; the first
    attempt that succeeds gives the credential, whose address is the local
    part generated for that attempt on the domain picked, whose account id
    is the one of the account created and whose token is the one of the
    authentication. *)
Theorem provisionRequested_attempts (obs : Observed) (requested : string)
    (s s1 : Server) (domain : string) (k : nat) :
  pickMailTmDomain (firstNow obs) (firstDomains obs) (Some requested) s
  = (Ok (Some domain), s1) ->
  (k <= 5)%nat ->
  (forall a, (a < k)%nat ->
     exists e, attemptError obs 0 a = Some e /\ isRetriedStatus e = true) ->
  (k = 5%nat ->
   provisionRequested obs requested s
   = (Throw (newError "Unable to allocate mailbox at this time"), s1))
  /\ (forall e, (k < 5)%nat -> attemptError obs 0 k = Some e ->
        isRetriedStatus e = false ->
        provisionRequested obs requested s = (Throw e, s1))
  /\ ((k < 5)%nat -> attemptError obs 0 k = None ->
      exists account auth credential,
        accounts obs 0 k = Ok account
        /\ authenticateMailTm (authNow obs 0 k) (tokens obs 0 k) = Ok auth
        /\ provisionRequested obs requested s = (Ok credential, s1)
        /\ remote_address credential
           = generateLocalPart (draws obs 0 k) +:+ "@" +:+ domain
        /\ remote_accountId credential = optProp account "id"
        /\ remote_token credential = auth_token auth).
Proof.
  intros Hpick Hk Hretried.
  assert (forall n, (k + n = 5)%nat ->
            provisionRequested obs requested s
            = match forLoop n k (requestedAttempt obs domain) tt s1 with
              | (Ok (inr credential), s2) => (Ok credential, s2)
              | (Ok (inl _), s2) =>
                  (Throw (newError "Unable to allocate mailbox at this time"),
                   s2)
              | (Throw e, s2) => (Throw e, s2)
              end) as Hskip.
  { intros n Hn. rewrite provisionRequested_loop.
    rewrite (bind_Ok _ _ _ _ _ Hpick). cbv zeta. unfold bind at 1.
    rewrite <- Hn.
    rewrite (forLoop_continues (requestedAttempt obs domain) tt s1 k n 0).
    - cbn [Nat.add].
      destruct (forLoop n k _ tt s1) as [[[?|?]|?] ?]; reflexivity.
    - intros j Hj. cbn [Nat.add].
      destruct (Hretried j Hj) as (e & He & Hstatus).
      rewrite (requestedAttempt_error _ _ _ _ _ _ He), Hstatus. reflexivity. }
  split; [|split].
  - intros ->. rewrite (Hskip 0%nat eq_refl). reflexivity.
  - intros e Hlt He Hstatus. rewrite (Hskip (5 - k)%nat ltac:(lia)).
    destruct (5 - k)%nat as [|n] eqn:Hn; [lia|].
    cbn [forLoop]. unfold bind.
    rewrite (requestedAttempt_error _ _ _ _ _ _ He), Hstatus. reflexivity.
  - intros Hlt Hnone. rewrite (Hskip (5 - k)%nat ltac:(lia)).
    destruct (5 - k)%nat as [|n] eqn:Hn; [lia|].
    destruct (createAndAuthenticate_fields obs domain 0 k (ret tt) s1 s1
                Hnone eq_refl)
      as (account & auth & credential & Ha & Hd & Hrun & Haddr & _ & _
          & Hid & Htok & _).
    exists account, auth, credential.
    split; [exact Ha|]. split; [exact Hd|].
    split; [|split; [exact Haddr|split; [exact Hid|exact Htok]]].
    cbn [forLoop]. unfold bind at 1.
    unfold requestedAttempt, tryCatch. unfold bind at 1. rewrite Hrun.
    reflexivity.
Qed.

(** X10.  Without a requested domain, when the catalog gives no
    preferred name and no name at all, [provisionMailboxWithMailTm] throws
    [No domains available] and the cursor is not moved; when the first
    catalog read raises, its error is what the call throws. *)
Theorem provisionMailboxWithMailTm_no_domains (obs : Observed)
    (preferredDomain : option string) (s s1 : Server) :
  requestedDomain preferredDomain = None ->
  (forall domains1 domains2 s2,
     listsDomains (firstDomains obs) ->
     listsDomains (secondDomains obs) ->
     getAvailableDomains (firstNow obs) (firstDomains obs) s
     = (Ok domains1, s1) ->
     getAvailableDomains (secondNow obs) (secondDomains obs) s1
     = (Ok domains2, s2) ->
     List.filter isPreferred (listDomainStrings domains1) = [] ->
     listDomainStrings domains2 = [] ->
     provisionMailboxWithMailTm obs preferredDomain s
     = (Throw (newError "No domains available"), s2)
     /\ domainRotationIndex s2 = domainRotationIndex s)
  /\ (forall e,
        getAvailableDomains (firstNow obs) (firstDomains obs) s
        = (Throw e, s1) ->
        provisionMailboxWithMailTm obs preferredDomain s = (Throw e, s1)).
Proof.
  intros Hnone. split.
  - intros domains1 domains2 s2 _ _ Hfirst Hsecond Hpreferred Hnames.
    split.
    + rewrite (provisionMailboxWithMailTm_rotates obs preferredDomain s s1 s2
                 [] domains2 Hnone).
      * rewrite Hnames. reflexivity.
      * unfold getAvailablePreferredDomains.
        rewrite (bind_Ok _ _ _ _ _ Hfirst). cbv zeta. rewrite Hpreferred.
        reflexivity.
      * exact Hsecond.
    + rewrite (getAvailableDomains_cursor _ _ _ _ _ Hsecond).
      apply (getAvailableDomains_cursor _ _ _ _ _ Hfirst).
  - intros e Hfirst. unfold provisionMailboxWithMailTm. rewrite Hnone.
    unfold getAvailablePreferredDomains. unfold bind at 1 2.
    rewrite Hfirst. reflexivity.
Qed.

(** A loop that returns does so in one of its passes, after the passes
    before it ran out. *)
Lemma forLoop_returns {St R} (body : nat -> St -> M (Flow St R)) :
  forall count from st s x s',
    forLoop count from body st s = (Ok (inr x), s') ->
    exists k st_k s_k,
      (k < count)%nat
      /\ forLoop k from body st s = (Ok (inl st_k), s_k)
      /\ body (from + k)%nat st_k s_k = (Ok (Return x), s').
Proof.
  induction count as [|count IH]; intros from st s x s'.
  - cbn. unfold ret. discriminate.
  - cbn [forLoop]. unfold bind.
    destruct (body from st s) as [[flow|e] s1] eqn:Hb; [|discriminate].
    destruct flow as [st1|st1|r].
    + intros Hrest. apply IH in Hrest.
      destruct Hrest as (k & st_k & s_k & Hk & Hprefix & Hreturn).
      exists (S k), st_k, s_k. split; [lia|]. split.
      * cbn [forLoop]. unfold bind. rewrite Hb. exact Hprefix.
      * replace (from + S k)%nat with (S from + k)%nat by lia. exact Hreturn.
    + unfold ret. discriminate.
    + unfold ret. intros [= <- <-].
      exists 0%nat, st, s. split; [lia|]. split; [reflexivity|].
      rewrite Nat.add_0_r. exact Hb.
Qed.

(** The two passes of the inner loop. *)
Lemma forLoop_two_returns {St R} (body : nat -> St -> M (Flow St R)) st s x s' :
  forLoop 2 0 body st s = (Ok (inr x), s') ->
  body 0%nat st s = (Ok (Return x), s')
  \/ (exists st1 s1,
        body 0%nat st s = (Ok (Continue st1), s1)
        /\ body 1%nat st1 s1 = (Ok (Return x), s')).
Proof.
  cbn [forLoop]. unfold bind.
  destruct (body 0%nat st s) as [[flow|e] s1] eqn:Hb; [|discriminate].
  destruct flow as [st1|st1|r]; unfold ret.
  - destruct (body 1%nat st1 s1) as [[flow|e] s2] eqn:Hb1; [|discriminate].
    destruct flow as [st2|st2|r]; try discriminate.
    intros [= <- <-]. right. eauto.
  - discriminate.
  - intros [= <- <-]. left. reflexivity.
Qed.

(** The domain a pass of the outer loop works on. *)
Lemma domainAt_trial (domainsToTry : list string) (C : Z) (k : nat) :
  0 <= C -> domainsToTry <> [] ->
  trialDomain domainsToTry C k
  = Some (domainAt domainsToTry
            (Z.rem (Z.rem C (len domainsToTry) + Z.of_nat k)
               (len domainsToTry))).
Proof.
  intros HC Hne. pose proof (len_pos _ Hne) as HL.
  unfold trialDomain, domainAt, jsIndex.
  rewrite (rem_mod_len _ _ HC Hne).
  pose proof (Z.mod_pos_bound C (len domainsToTry) HL).
  rewrite Z.rem_mod_nonneg by lia.
  pose proof (Z.mod_pos_bound (C mod len domainsToTry + Z.of_nat k)
                (len domainsToTry) HL) as Hbound.
  destruct (Z.ltb_spec ((C mod len domainsToTry + Z.of_nat k)
                          mod len domainsToTry) 0); [lia|].
  destruct (domainsToTry !! _) as [d|] eqn:Hd; [reflexivity|].
  apply lookup_ge_None in Hd. unfold len in *. lia.
Qed.

(** A credential returned by the rotation branch comes from a pass of
    the loop whose account creation and authentication both succeeded, on
    the domain of that pass; the cursor has moved by one. *)
Lemma rotateThrough_returned (obs : Observed) (domainsToTry : list string)
    (s s' : Server) (credential : Credential) (t : Trial) :
  accountsHaveBodies obs ->
  0 <= domainRotationIndex s ->
  rotateThrough obs domainsToTry s = (Ok (credential, t), s') ->
  exists (k a : nat) (domain : string) (account : JsVal) (auth : Auth),
    (k < Nat.min (length domainsToTry) 15)%nat /\ (a < 2)%nat
    /\ trialDomain domainsToTry (domainRotationIndex s) k = Some domain
    /\ accounts obs k a = Ok account
    /\ authenticateMailTm (authNow obs k a) (tokens obs k a) = Ok auth
    /\ (a = 1%nat ->
        exists e, attemptError obs k 0 = Some e /\ isCollision e = true)
    /\ remote_address credential
       = generateLocalPart (draws obs k a) +:+ "@" +:+ domain
    /\ remote_accountId credential = optProp account "id"
    /\ remote_token credential = auth_token auth
    /\ rateLimitedDomains t = rateLimitedAmong obs k
    /\ s' = setRotationIndex
              ((domainRotationIndex s + 1) mod len domainsToTry) s.
Proof.
  intros Hbodies HC. unfold rotateThrough.
  destruct (Z.eqb_spec (len domainsToTry) 0) as [E|HL]; [discriminate|].
  assert (domainsToTry <> []) as Hne by (intros ->; apply HL; reflexivity).
  cbv zeta. unfold bind at 1. unfold getState at 1.
  set (m := Nat.min (length domainsToTry) 15).
  set (start := Z.rem (domainRotationIndex s) (len domainsToTry)).
  unfold bind at 1.
  destruct (forLoop m 0 _ (mkTrial 0 []) s) as [[[t0|returned]|e] s0]
    eqn:Hloop; [unfold advanceRotation, bind; cbn; discriminate| |discriminate].
  unfold ret. intros [= -> ->].
  apply forLoop_returns in Hloop.
  destruct Hloop as (k & t_k & s_k & Hk & Hprefix & Hreturn).
  cbn [Nat.add] in Hreturn.
  pose proof (rotation_count _ _ _ _ _ _ _ _ _ _ Hprefix) as Hcount.
  destruct (forLoop_state _
              (fun i st s r s' =>
                 rotationDomain_state obs domainsToTry m start i st s r s'
                   Hbodies)
              _ _ _ _ _ _ Hprefix) as [[x Hx]| ->]; [discriminate|].
  cbn in Hcount. fold (rateLimitedAmong obs k) in Hcount.
  unfold rotationDomain in Hreturn. cbv zeta in Hreturn.
  set (domain := domainAt domainsToTry
                   (Z.rem (start + Z.of_nat k) (len domainsToTry))) in *.
  unfold bind at 1 in Hreturn.
  destruct (forLoop 2 0 _ t_k s) as [[[t1|returned]|e] s1] eqn:Hinner;
    try discriminate.
  unfold ret in Hreturn. injection Hreturn as -> ->.
  assert (forall a t_a,
            rateLimitedDomains t_a = rateLimitedDomains t_k ->
            rotationAttempt obs domainsToTry m k domain a t_a s
            = (Ok (Return (credential, t)), s') ->
            exists account auth,
              accounts obs k a = Ok account
              /\ authenticateMailTm (authNow obs k a) (tokens obs k a)
                 = Ok auth
              /\ remote_address credential
                 = generateLocalPart (draws obs k a) +:+ "@" +:+ domain
              /\ remote_accountId credential = optProp account "id"
              /\ remote_token credential = auth_token auth
              /\ rateLimitedDomains t = rateLimitedAmong obs k
              /\ s' = setRotationIndex
                        ((domainRotationIndex s + 1) mod len domainsToTry) s)
    as Hpass.
  { intros a t_a Ht_a Hrun.
    pose proof (rotationAttempt_flow _ _ _ _ _ _ _ _ _ _ Hrun) as Hnone.
    cbn in Hnone.
    destruct (createAndAuthenticate_fields obs domain k a
                (advanceRotation domainsToTry) s _ Hnone eq_refl)
      as (account & auth & credential0 & Ha & Hd & Hcreate & Haddr & _ & _
          & Hid & Htok & _).
    unfold rotationAttempt, tryCatch in Hrun. unfold bind at 1 in Hrun.
    rewrite Hcreate in Hrun. cbn in Hrun. injection Hrun as -> -> <-.
    exists account, auth. repeat split; try assumption.
    - rewrite Ht_a. lia.
    - rewrite (rem_mod_len domainsToTry (domainRotationIndex s + 1)
                 ltac:(lia) Hne). reflexivity. }
  apply forLoop_two_returns in Hinner.
  destruct Hinner as [Hfirst|(t1 & s1 & Hfirst & Hsecond)].
  - destruct (Hpass 0%nat t_k eq_refl Hfirst)
      as (account & auth & Ha & Hd & Haddr & Hid & Htok & Hrate & Hs').
    exists k, 0%nat, domain, account, auth.
    split; [exact Hk|]. split; [lia|].
    split; [apply (domainAt_trial _ _ _ HC Hne)|].
    repeat split; try assumption. discriminate.
  - pose proof (rotationAttempt_flow _ _ _ _ _ _ _ _ _ _ Hfirst) as Hflow.
    cbn in Hflow. destruct Hflow as (e & He & Hcollision & _ & Ht1).
    destruct (rotationAttempt_state _ _ _ _ _ _ _ _ _ _ Hbodies Hfirst)
      as [[x Hx]| ->]; [discriminate|].
    destruct (Hpass 1%nat t1 Ht1 Hsecond)
      as (account & auth & Ha & Hd & Haddr & Hid & Htok & Hrate & Hs').
    exists k, 1%nat, domain, account, auth.
    split; [exact Hk|]. split; [lia|].
    split; [apply (domainAt_trial _ _ _ HC Hne)|].
    repeat split; try assumption. intros _. eauto.
Qed.

End ProvisioningAttempts.

(** ** Mailbox registry: creation, expiry and cleanup *)

Section RegistryLife.

Context {rt : JsRuntime}.

(** The three outcomes of a lookup. *)
Lemma ensureMailbox_cases (now : Z) (id : string) (s : Server) :
  ensureMailbox now id s
  = match mailboxes s !! id with
    | None =>
        (Throw (withStatus 404 (newError "Mailbox not found or expired")), s)
    | Some m =>
        if now >? expiresAt m
        then (Throw (withStatus 410 (newError "Mailbox expired")),
              setMailboxes (delete id (mailboxes s)) s)
        else (Ok m, s)
    end.
Proof.
  unfold ensureMailbox, bind, getState, modify, throw, ret.
  destruct (mailboxes s !! id) as [m|]; [|reflexivity].
  destruct (now >? expiresAt m); reflexivity.
Qed.

(** X11.  Reading a mailbox after its expiry answers 410 and removes
    it from the registry; from then on reading it or extending it answers
    404, at any instant, and does not bring it back. *)
Theorem expired_mailbox_is_gone (now : Z) (id : string) (s : Server)
    (m : Mailbox) :
  mailboxes s !! id = Some m ->
  expiresAt m < now ->
  let answered := respond (getMailbox now id) s in
  res_status (fst answered) = 410
  /\ mailboxes (snd answered) = delete id (mailboxes s)
  /\ (forall later,
        res_status (fst (respond (getMailbox later id) (snd answered))) = 404)
  /\ (forall later extendNow,
        res_status (fst (respond (postExtend later extendNow id)
                           (snd answered))) = 404
        /\ mailboxes (snd (respond (postExtend later extendNow id)
                             (snd answered)))
           = delete id (mailboxes s)).
Proof.
  intros Hm Hdead. cbv zeta.
  assert (respond (getMailbox now id) s
          = (errorHandler (withStatus 410 (newError "Mailbox expired")),
             setMailboxes (delete id (mailboxes s)) s)) as ->.
  { unfold respond, getMailbox, bind.
    rewrite (ensureMailbox_expired _ _ _ _ Hm Hdead). reflexivity. }
  cbn [fst snd]. split; [reflexivity|]. split; [reflexivity|].
  assert (forall later,
            ensureMailbox later id (setMailboxes (delete id (mailboxes s)) s)
            = (Throw (withStatus 404 (newError "Mailbox not found or expired")),
               setMailboxes (delete id (mailboxes s)) s)) as Hgone.
  { intros later. apply ensureMailbox_missing. cbn. apply lookup_delete_eq. }
  split.
  - intros later. unfold respond, getMailbox, bind. rewrite Hgone.
    reflexivity.
  - intros later extendNow. unfold respond, postExtend, bind. rewrite Hgone.
    split; reflexivity.
Qed.

(** X12.  [POST /api/mailboxes/:mailboxId/messages] answers 404 for a
    mailbox that is not registered, 410 for one that has expired and 501
    otherwise, then with the fixed body and without changing the state; it
    never changes another mailbox. *)
Theorem postMessages_not_supported (now : Z) (id : string) (s : Server) :
  let answered := respond (postMessages now id) s in
  res_status (fst answered)
  = match mailboxes s !! id with
    | None => 404
    | Some m => if now >? expiresAt m then 410 else 501
    end
  /\ (forall m, mailboxes s !! id = Some m -> now <= expiresAt m ->
        snd answered = s
        /\ res_body (fst answered)
           = JObj [ ("error",
                     JStr "Sending emails via API is not supported. Send from any email client to this address.");
                    ("status", JNum 501) ])
  /\ (forall id', id' <> id ->
        mailboxes (snd answered) !! id' = mailboxes s !! id').
Proof.
  cbv zeta. unfold respond, postMessages, bind.
  rewrite ensureMailbox_cases.
  destruct (mailboxes s !! id) as [m|] eqn:Hm.
  - destruct (Z.gtb_spec now (expiresAt m)) as [Hdead|Hlive]; cbn.
    + split; [reflexivity|]. split; [intros m' [= <-] Hlive; lia|].
      intros id' Hid'. apply lookup_delete_ne. congruence.
    + split; [reflexivity|]. split; [intros; split; reflexivity|].
      reflexivity.
  - cbn. split; [reflexivity|]. split; [discriminate|reflexivity].
Qed.

(** X13.  A mailbox that [createMailbox] returns is registered under
    its id, created at the instant of the call, expires fifteen minutes
    later and has no message counted; reading it answers 200 with its
    public fields up to the expiry and 410 after it. *)
Theorem createMailbox_round_trip (obs : Observed) (id : string) (now : Z)
    (preferredDomain : option string) (s s' : Server) (mailbox : Mailbox) :
  createMailbox obs id now preferredDomain s = (Ok mailbox, s') ->
  mailboxes s' = <[id := mailbox]> (mailboxes s)
  /\ mailboxId mailbox = id
  /\ createdAt mailbox = now
  /\ expiresAt mailbox = now + 15 * 60 * 1000
  /\ lastMessageCount mailbox = 0
  /\ (forall t, t <= now + 15 * 60 * 1000 ->
        respond (getMailbox t id) s'
        = (mkResponse 200 (buildMailboxResponse mailbox), s'))
  /\ (forall t, now + 15 * 60 * 1000 < t ->
        res_status (fst (respond (getMailbox t id) s')) = 410).
Proof.
  unfold createMailbox. unfold bind at 1.
  pose proof (provisionMailboxWithMailTm_keeps_mailboxes obs preferredDomain s)
    as Hkeeps.
  destruct (provisionMailboxWithMailTm obs preferredDomain s)
    as [[remote|e] s1]; [|discriminate].
  cbn in Hkeeps. cbn. intros [= <- <-]. cbn.
  rewrite Hkeeps.
  split; [reflexivity|]. repeat (split; [reflexivity|]).
  split.
  - intros t Ht. unfold respond, getMailbox, bind.
    erewrite ensureMailbox_live; [reflexivity| |].
    + cbn. apply lookup_insert_eq.
    + cbn. unfold ttlMs, MAILBOX_TTL_MINUTES. lia.
  - intros t Ht. unfold respond, getMailbox, bind.
    erewrite ensureMailbox_expired; [reflexivity| |].
    + cbn. apply lookup_insert_eq.
    + cbn. unfold ttlMs, MAILBOX_TTL_MINUTES. lia.
Qed.

(** X14.  A [POST /api/mailboxes] that does not answer 201 leaves the
    registry as it was. *)
Theorem createMailbox_failure_stores_nothing (obs : Observed) (id : string)
    (now : Z) (domain : option string) (s : Server) :
  let answered := respond (postMailboxes obs id now domain) s in
  res_status (fst answered) <> 201 ->
  mailboxes (snd answered) = mailboxes s.
Proof.
  cbv zeta. unfold respond, postMailboxes, createMailbox.
  pose proof (provisionMailboxWithMailTm_keeps_mailboxes obs
                (requestedDomain domain) s) as Hkeeps.
  destruct (provisionMailboxWithMailTm obs (requestedDomain domain) s)
    as [[remote|e] s1] eqn:Hrun; cbn in Hkeeps.
  - rewrite (bind_Ok _ _ _ _ _ (bind_Ok _ _ _ _ _ Hrun)). cbn.
    intros Hstatus. contradiction Hstatus. reflexivity.
  - rewrite (bind_Throw _ _ _ _ _ (bind_Throw _ _ _ _ _ Hrun)). cbn.
    intros _. exact Hkeeps.
Qed.

(** X15.  The periodic cleanup removes the mailboxes whose expiry is
    past and no other; running it again at the same instant changes
    nothing; it leaves the cursor and the catalog cache alone; and from
    that instant on a mailbox is read with 200 after the cleanup exactly
    when it would have been without it. *)
Theorem cleanup_removes_expired (now : Z) (s : Server) :
  let cleaned := snd (cleanup now s) in
  (forall id,
     mailboxes cleaned !! id
     = match mailboxes s !! id with
       | Some m => if now >? expiresAt m then None else Some m
       | None => None
       end)
  /\ snd (cleanup now cleaned) = cleaned
  /\ domainRotationIndex cleaned = domainRotationIndex s
  /\ cachedDomains cleaned = cachedDomains s
  /\ (forall t id body, now <= t ->
        fst (respond (getMailbox t id) cleaned) = mkResponse 200 body
        <-> fst (respond (getMailbox t id) s) = mkResponse 200 body).
Proof.
  cbv zeta. unfold cleanup, modify. cbn [snd].
  assert (forall id,
            filter (fun entry : string * Mailbox => now <= expiresAt entry.2)
              (mailboxes s) !! id
            = match mailboxes s !! id with
              | Some m => if now >? expiresAt m then None else Some m
              | None => None
              end) as Hlookup.
  { intros id. rewrite map_lookup_filter.
    destruct (mailboxes s !! id) as [m|]; [|reflexivity]. cbn.
    destruct (Z.gtb_spec now (expiresAt m)).
    - rewrite option_guard_False by (cbn; lia). reflexivity.
    - rewrite option_guard_True by (cbn; lia). reflexivity. }
  split; [exact Hlookup|]. split; [|split; [reflexivity|split; [reflexivity|]]].
  - unfold setMailboxes. cbn. f_equal. apply map_eq. intros id.
    rewrite map_lookup_filter, Hlookup.
    destruct (mailboxes s !! id) as [m|]; [|reflexivity].
    destruct (Z.gtb_spec now (expiresAt m)); [reflexivity|]. cbn.
    rewrite option_guard_True by (cbn; lia). reflexivity.
  - intros t id body Ht. unfold respond, getMailbox, bind.
    rewrite !ensureMailbox_cases. cbn [mailboxes setMailboxes].
    rewrite Hlookup.
    destruct (mailboxes s !! id) as [m|]; [|reflexivity].
    destruct (Z.gtb_spec now (expiresAt m)) as [Hdead|Hlive].
    + destruct (Z.gtb_spec t (expiresAt m)); [|lia].
      cbn. split; discriminate.
    + destruct (Z.gtb_spec t (expiresAt m)); cbn; reflexivity.
Qed.

End RegistryLife.

(** ** Reading the inbox: tokens, failures and records *)

Section InboxReads.

Context {rt : JsRuntime}.

(** X16.  [ensureMailTmToken] returns the stored token without
    authenticating when the token is truthy and its expiry is ahead.  When
    it returns a token, that token is the one stored in the mailbox, whose
    address, password and expiry are unchanged, and a later call before
    the token's expiry returns it again; when it throws, the mailbox is
    unchanged and the error is the one of the authentication. *)
Theorem ensureMailTmToken_reuses_token (inbox : Inbox) (mailbox : Mailbox) :
  (truthy (token mailbox) = true ->
   checkNow inbox < tokenExpiresAt mailbox ->
   ensureMailTmToken inbox mailbox = (Ok (token mailbox), mailbox))
  /\ (forall tok mailbox1,
        ensureMailTmToken inbox mailbox = (Ok tok, mailbox1) ->
        token mailbox1 = tok
        /\ address mailbox1 = address mailbox
        /\ password mailbox1 = password mailbox
        /\ expiresAt mailbox1 = expiresAt mailbox
        /\ (truthy tok = true ->
            forall later : Inbox,
              checkNow later < tokenExpiresAt mailbox1 ->
              ensureMailTmToken later mailbox1 = (Ok tok, mailbox1)))
  /\ (forall e mailbox1,
        ensureMailTmToken inbox mailbox = (Throw e, mailbox1) ->
        mailbox1 = mailbox
        /\ authenticateMailTm (authNowInbox inbox)
             (tokenRequest inbox (address mailbox) (password mailbox))
           = Throw e).
Proof.
  assert (forall (i : Inbox) (m : Mailbox),
            truthy (token m) = true -> checkNow i < tokenExpiresAt m ->
            ensureMailTmToken i m = (Ok (token m), m)) as Hreuse.
  { intros i m Htruthy Hfresh. unfold ensureMailTmToken. rewrite Htruthy.
    destruct (Z.ltb_spec (checkNow i) (tokenExpiresAt m)); [reflexivity|lia]. }
  split; [apply Hreuse|]. split.
  - intros tok mailbox1 Hrun.
    assert (token mailbox1 = tok /\ address mailbox1 = address mailbox
            /\ password mailbox1 = password mailbox
            /\ expiresAt mailbox1 = expiresAt mailbox) as Hfields.
    { revert Hrun. unfold ensureMailTmToken.
      destruct (_ && _); [intros [= <- <-]; repeat split|].
      destruct (authenticateMailTm _ _) as [auth|e]; [|discriminate].
      intros [= <- <-]. repeat split. }
    destruct Hfields as (Htok & Haddr & Hpw & Hexp).
    repeat (split; [assumption|]).
    intros Htruthy later Hfresh. rewrite <- Htok in *.
    apply Hreuse; assumption.
  - intros e mailbox1. unfold ensureMailTmToken.
    destruct (_ && _); [discriminate|].
    destruct (authenticateMailTm _ _) as [auth|e0]; [discriminate|].
    intros [= <- <-]. split; reflexivity.
Qed.

Lemma mapThrowing_None {A B} (f : A -> option B) (l : list A) :
  mapThrowing f l = None <-> Exists (fun x => f x = None) l.
Proof.
  induction l as [|x l IH]; cbn.
  - split; [discriminate|intros H; inversion H].
  - destruct (f x) as [y|] eqn:Hx.
    + destruct (mapThrowing f l) as [ys|].
      * split; [discriminate|]. intros H. inversion H; subst; [congruence|].
        apply IH in H1. discriminate.
      * split; [intros _; right; apply IH; reflexivity|reflexivity].
    + split; [intros _; left; exact Hx|reflexivity].
Qed.

Lemma prop_None (v : JsVal) (k : string) :
  prop v k = None <-> isNullish v = true.
Proof. destruct v; cbn; split; congruence. Qed.

Lemma normalizeMessage_None (v : JsVal) :
  normalizeMessage v = None <-> isNullish v = true.
Proof.
  unfold normalizeMessage. rewrite <- (prop_None v "id").
  destruct (prop v "id"); split; congruence.
Qed.

(** The values of the detail calls that succeeded. *)
Lemma fulfilledValues_detail (detail : nat -> Result JsVal)
    (members : list JsVal) (v : JsVal) :
  v ∈ fulfilledValues (imap (fun i _ => detail i) members)
  <-> exists i, (i < length members)%nat /\ detail i = Ok v.
Proof.
  rewrite (imap_seq_0 members detail). unfold fulfilledValues.
  rewrite list_elem_of_omap. split.
  - intros (r & Hr & Hv). apply list_elem_of_fmap in Hr.
    destruct Hr as (i & -> & Hi). apply elem_of_seq in Hi.
    exists i. split; [lia|]. destruct (detail i); congruence.
  - intros (i & Hi & Hv). exists (detail i). split.
    + apply list_elem_of_fmap. exists i. split; [reflexivity|].
      apply elem_of_seq. lia.
    + rewrite Hv. reflexivity.
Qed.



Lemma fetchMailboxMessages_count inbox mailbox messages mailbox' :
  fetchMailboxMessages inbox mailbox = (Ok messages, mailbox') ->
  lastMessageCount mailbox' = len messages
  /\ mailboxId mailbox' = mailboxId mailbox
  /\ expiresAt mailbox' = expiresAt mailbox.
Proof.
  assert (mailboxId (snd (ensureMailTmToken inbox mailbox)) = mailboxId mailbox
          /\ expiresAt (snd (ensureMailTmToken inbox mailbox))
             = expiresAt mailbox) as Hkept.
  { unfold ensureMailTmToken. destruct (_ && _); [split; reflexivity|].
    destruct (authenticateMailTm _ _); split; reflexivity. }
  unfold fetchMailboxMessages.
  destruct (ensureMailTmToken inbox mailbox) as [[token|e] mailbox1];
    [|discriminate].
  cbn [snd] in Hkept.
  destruct (listRequest inbox token) as [listing|e]; [|discriminate].
  cbv zeta. destruct (negb _).
  { intros [= <- <-]. cbn. tauto. }
  destruct (jsOr _ _) as [| | | | |summaries|]; try discriminate.
  destruct (mapThrowing _ summaries); [|discriminate].
  destruct (mapThrowing normalizeMessage _); [|discriminate].
  intros [= <- <-]. cbn. tauto.
Qed.

(** X19.  A successful [GET /api/mailboxes/:mailboxId/messages]
    answers 200 with the messages and the public fields of the mailbox,
    whose [messageCount] is the number of messages returned; the mailbox
    with that count is the one registered afterwards, and reading it
    before its expiry answers the same public fields. *)
Theorem getMessages_reports_count (now : Z) (inbox : Inbox) (id : string)
    (s s' : Server) (response : Response) :
  getMessages now inbox id s = (Ok response, s') ->
  exists (mailbox' : Mailbox) (messages : list JsVal),
    response
    = mkResponse 200
        (JObj [ ("mailbox", buildMailboxResponse mailbox');
                ("messages", JArr messages) ])
    /\ optProp (buildMailboxResponse mailbox') "messageCount"
       = JNum (len messages)
    /\ mailboxes s' = <[id := mailbox']> (mailboxes s)
    /\ (forall t, t <= expiresAt mailbox' ->
          respond (getMailbox t id) s'
          = (mkResponse 200 (buildMailboxResponse mailbox'), s')).
Proof.
  unfold getMessages. unfold bind at 1. rewrite ensureMailbox_cases.
  destruct (mailboxes s !! id) as [mailbox|] eqn:Hm; [|discriminate].
  destruct (now >? expiresAt mailbox); [discriminate|].
  unfold bind, onMailbox.
  destruct (fetchMailboxMessages inbox mailbox) as [[messages|e] mailbox']
    eqn:Hfetch; [|discriminate].
  destruct (fetchMailboxMessages_count _ _ _ _ Hfetch) as (Hcount & _ & Hexp).
  unfold ret. intros [= <- <-]. exists mailbox', messages.
  split; [reflexivity|]. split.
  - cbn. rewrite Hcount. destruct (len messages =? 0) eqn:E; [|reflexivity].
    apply Z.eqb_eq in E. rewrite E. reflexivity.
  - split; [reflexivity|]. intros t Ht. unfold respond, getMailbox, bind.
    erewrite ensureMailbox_live; [reflexivity| |exact Ht].
    cbn. apply lookup_insert_eq.
Qed.

End InboxReads.

(** ** Random identifiers and the candidates of the rotation *)

Section Identifiers.

Context {rt : JsRuntime}.

Lemma get_occursIn (s : string) (i : nat) :
  (i < String.length s)%nat ->
  exists c, String.get i s = Some c /\ occursIn c s = true.
Proof.
  revert i. induction s as [|c' s IH]; intros i Hi; cbn in Hi; [lia|].
  destruct i as [|i]; cbn.
  - exists c'. rewrite Ascii.eqb_refl. split; reflexivity.
  - destruct (IH i ltac:(lia)) as (c & Hc & Hin). exists c.
    rewrite Hin, orb_true_r. split; [exact Hc|reflexivity].
Qed.

(** A draw from a string that is not empty is one of its characters. *)
Lemma randomChar_occursIn (s : string) (draw : nat) :
  s <> "" ->
  exists c, randomChar s draw = String c "" /\ occursIn c s = true.
Proof.
  intros Hs. unfold randomChar, charAt.
  assert (String.length s <> 0)%nat as Hlen by (destruct s; [contradiction|discriminate]).
  destruct (get_occursIn s (draw mod String.length s)
              (Nat.mod_upper_bound _ _ Hlen)) as (c & -> & Hc).
  eauto.
Qed.

Lemma length_append (a b : string) :
  String.length (a +:+ b) = (String.length a + String.length b)%nat.
Proof.
  induction a as [|c a IH]; [reflexivity|].
  rewrite append_String. cbn. rewrite IH. reflexivity.
Qed.

Lemma madeOf_append (chars a b : string) :
  madeOf chars (a +:+ b) = madeOf chars a && madeOf chars b.
Proof.
  induction a as [|c a IH]; [reflexivity|].
  rewrite append_String. cbn. rewrite IH, andb_assoc. reflexivity.
Qed.

Lemma occursIn_append (c : ascii) (a b : string) :
  occursIn c (a +:+ b) = occursIn c a || occursIn c b.
Proof.
  induction a as [|c' a IH]; [reflexivity|].
  rewrite append_String. cbn. rewrite IH, orb_assoc. reflexivity.
Qed.

(** Joining single characters. *)
Lemma concat_characters (chars : string) (parts : list string) :
  Forall (fun p => exists c, p = String c "" /\ occursIn c chars = true)
    parts ->
  String.length (String.concat "" parts) = length parts
  /\ madeOf chars (String.concat "" parts) = true.
Proof.
  induction 1 as [|p parts (c & -> & Hc) Hparts [IHlen IHmade]];
    [split; reflexivity|].
  cbn [String.concat]. destruct parts as [|q parts].
  - cbn. rewrite Hc. split; reflexivity.
  - change (String c "" +:+ "" +:+ String.concat "" (q :: parts))
      with (String c (String.concat "" (q :: parts))).
    cbn [String.length madeOf length]. rewrite IHlen, IHmade, Hc.
    split; reflexivity.
Qed.

Lemma generateIdentifier_characters (draw : nat -> nat) (n : nat) :
  String.length (generateIdentifier draw n) = n
  /\ madeOf alphabet (generateIdentifier draw n) = true.
Proof.
  unfold generateIdentifier.
  destruct (concat_characters alphabet
              (map (fun i => randomChar alphabet (draw i)) (seq 0 n)))
    as [Hlen Hmade].
  - apply Forall_forall. intros p Hp.
    apply list_elem_of_In, in_map_iff in Hp. destruct Hp as (i & <- & _).
    apply randomChar_occursIn. discriminate.
  - rewrite Hlen, length_map, length_seq. split; [reflexivity|exact Hmade].
Qed.

(** X20.  A generated local part has ten characters, all of them
    lower-case letters or digits, and starts with a letter. *)
Theorem generateLocalPart_shape (draw : nat -> nat) :
  String.length (generateLocalPart draw) = 10%nat
  /\ madeOf alphabet (generateLocalPart draw) = true
  /\ exists first rest,
       generateLocalPart draw = String first rest
       /\ occursIn first letters = true.
Proof.
  unfold generateLocalPart. cbv zeta.
  destruct (randomChar_occursIn letters (draw 0%nat) ltac:(discriminate))
    as (first & -> & Hfirst).
  destruct (concat_characters alphabet
              (map (fun i => randomChar alphabet (draw (S i)))
                 (seq 0 (MAILBOX_LOCAL_PART_LENGTH - 1))))
    as [Hlen Hmade].
  { apply Forall_forall. intros p Hp.
    apply list_elem_of_In, in_map_iff in Hp. destruct Hp as (i & <- & _).
    apply randomChar_occursIn. discriminate. }
  rewrite length_map, length_seq in Hlen.
  rewrite append_String. cbn [String.length madeOf].
  change ("" +:+ ?x) with x. rewrite Hlen, Hmade.
  split; [reflexivity|]. split.
  - rewrite andb_true_r.
    change alphabet with (letters +:+ "0123456789").
    rewrite occursIn_append, Hfirst. reflexivity.
  - eauto.
Qed.

(** X21.  A generated password has twenty-four characters, all of them
    lower-case letters or digits; [generateIdentifier] gives as many
    characters of that alphabet as it is asked for. *)
Theorem generatePassword_shape (draw : nat -> nat) :
  String.length (generatePassword draw) = 24%nat
  /\ madeOf alphabet (generatePassword draw) = true
  /\ (forall n, String.length (generateIdentifier draw n) = n
                /\ madeOf alphabet (generateIdentifier draw n) = true).
Proof.
  split; [apply generateIdentifier_characters|].
  split; [apply generateIdentifier_characters|].
  intros n. apply generateIdentifier_characters.
Qed.

End Identifiers.

Section Candidates.

Context {rt : JsRuntime}.

Lemma moveToFront_perm (name : string) (l : list string) :
  moveToFront name l ≡ₚ l.
Proof.
  destruct (moveToFront_cases name l)
    as [[_ ->]|(l1 & x & l2 & -> & _ & _ & ->)]; [reflexivity|].
  apply Permutation_middle.
Qed.

Lemma moveChain_perm (names : list string) (l : list string) :
  fold_left (fun l name => moveToFront name l) names l ≡ₚ l.
Proof.
  revert l. induction names as [|name names IH]; intros l; [reflexivity|].
  cbn [fold_left]. etransitivity; [apply IH|apply moveToFront_perm].
Qed.

Lemma reorderDomains_perm (l : list string) : reorderDomains l ≡ₚ l.
Proof.
  unfold reorderDomains.
  etransitivity; [apply moveChain_perm|apply sortDomains_perm].
Qed.

(** X22.  The reordering of the domains to try loses and adds nothing:
    its result is a permutation of its input.  So the list tried on is a
    permutation of the preferred names available when there is one, and of
    all the names of the catalog otherwise. *)
Theorem reorderDomains_permutation (l : list string) :
  reorderDomains l ≡ₚ l
  /\ length (reorderDomains l) = length l
  /\ (forall d, d ∈ reorderDomains l <-> d ∈ l)
  /\ (forall availablePreferred allDomainStrings,
        domainsToTryOf availablePreferred allDomainStrings
        ≡ₚ match availablePreferred with
           | [] => allDomainStrings
           | _ :: _ => availablePreferred
           end).
Proof.
  pose proof (reorderDomains_perm l) as Hperm.
  split; [exact Hperm|]. split; [apply Permutation_length, Hperm|].
  split; [intros d; apply elem_of_Permutation_proper, Hperm|].
  intros availablePreferred allDomainStrings. unfold domainsToTryOf.
  etransitivity; [apply reorderDomains_perm|].
  destruct availablePreferred as [|d rest]; [reflexivity|].
  unfold len. cbn [length].
  destruct (Z.gtb_spec (Z.of_nat (S (length rest))) 0); [reflexivity|lia].
Qed.

Lemma trialDomain_elem (domainsToTry : list string) (C : Z) (k : nat)
    (domain : string) :
  trialDomain domainsToTry C k = Some domain -> domain ∈ domainsToTry.
Proof. unfold trialDomain. apply list_elem_of_lookup_2. Qed.

Lemma domainsToTryOf_candidates (preferred allDomainStrings : list string) :
  domainsToTryOf (sortDomains preferred) allDomainStrings
  ≡ₚ match preferred with
     | [] => allDomainStrings
     | _ :: _ => preferred
     end.
Proof.
  unfold domainsToTryOf.
  etransitivity; [apply reorderDomains_perm|].
  pose proof (sortDomains_perm preferred) as Hsort.
  destruct preferred as [|d rest]; [reflexivity|].
  assert ((len (sortDomains (d :: rest)) >? 0) = true) as ->.
  { apply Z.gtb_lt. unfold len.
    rewrite (Permutation_length Hsort). cbn [length]. lia. }
  exact Hsort.
Qed.

Lemma candidate_preferred (domain : string) (names allDomainStrings : list string) :
  domain ∈ match List.filter isPreferred names with
           | [] => allDomainStrings
           | _ :: _ => List.filter isPreferred names
           end ->
  List.filter isPreferred names <> [] ->
  isPreferred domain = true.
Proof.
  intros Hin Hpreferred.
  destruct (List.filter isPreferred names) as [|d rest] eqn:Hp;
    [contradiction|].
  rewrite <- Hp in Hin. apply list_elem_of_In, filter_In in Hin. tauto.
Qed.


End Candidates.

(** ** Closed instances *)

#[local] Existing Instance asciiRuntime.

(** The lexicographic order of [asciiRuntime] is a consistent collation. *)
Lemma asciiCollation : ConsistentCollation asciiRuntime.
Proof.
  split; cbn.
  - intros a b. apply String.compare_antisym.
  - intros a b c Hab Hbc.
    assert (String.le a b) as Hab'.
    { unfold String.le, String.leb. destruct (String.compare a b); cbn; auto. }
    assert (String.le b c) as Hbc'.
    { unfold String.le, String.leb. destruct (String.compare b c); cbn; auto. }
    pose proof (transitivity Hab' Hbc') as Hac.
    unfold String.le, String.leb in Hac. intros Hgt. rewrite Hgt in Hac.
    exact Hac.
  - intros a b. apply String.compare_eq_iff.
Qed.


(** C3, as stated, fails.  When every fetch of a call is cut by the time
    ceiling, the call throws the abort error after three retries, and that
    error has no [status]. *)
Lemma timeout_status_fails : ~ timeoutHasStatusTimeout (rt := asciiRuntime).
Proof.
  intros Hclaim.
  destruct (Hclaim (fun _ => Rejected abortError) eq_refl) as (e & Hrun & Hs).
  vm_compute in Hrun. injection Hrun as <-. discriminate Hs.
Qed.

(** C10, as stated, fails on the messages route.  Two registries hold the
    same mailbox except for its [token]; the upstream accepts one of the
    two tokens.  The route answers 200 with the inbox in one run and 401
    with an error in the other. *)
Lemma messages_depend_on_token :
  ~ messagesIgnoreCredentials (rt := asciiRuntime).
Proof.
  intros Hclaim.
  specialize (Hclaim 2000 strictInbox "box-1"
                (sampleServer (JStr "fresh")) (sampleServer (JStr "stale"))).
  assert (agreeButCredentials (sampleServer (JStr "fresh"))
            (sampleServer (JStr "stale"))) as Hagree.
  { split; [reflexivity|]. split; [reflexivity|]. intros id. cbn.
    destruct (decide ("box-1" = id)) as [<-|Hne].
    - rewrite !lookup_singleton_eq. repeat split.
    - rewrite !lookup_singleton_ne by exact Hne. exact I. }
  specialize (Hclaim Hagree). vm_compute in Hclaim. discriminate Hclaim.
Qed.




(** *** The runs behind the failing readings *)

Example reorderDomains_ten_names :
  reorderDomains
    [ "aaa.com"; "asia-mail.com"; "badfist.com"; "besenica.com";
      "comfythings.com"; "doer.sbs"; "ekii.de"; "elyxstore.com";
      "ketoblisslabs.com"; "mail.tm" ]
  = [ "mail.tm"; "elyxstore.com"; "ketoblisslabs.com"; "ekii.de";
      "doer.sbs"; "asia-mail.com"; "besenica.com"; "badfist.com";
      "comfythings.com"; "aaa.com" ].
Proof. reflexivity. Qed.

Example mailTmRequest_all_timeouts :
  mailTmRequest (fun _ => Rejected abortError) 0 3
  = (Throw abortError, [ 1000; 2000; 4000 ]).
Proof. reflexivity. Qed.

Example getAvailableDomains_after_empty_refresh :
  let failure := withStatus 503 (newError "Service Unavailable") in
  let s1 :=
    snd (getAvailableDomains 1000 (Ok (catalogOf [ "mail.tm" ]))
           initialServer) in
  let s2 := snd (getAvailableDomains 700000 (Ok (catalogOf [])) s1) in
  cache_items (cachedDomains s1) = [ JStr "mail.tm" ]
  /\ cachedDomains s2 = mkCache 1300000 []
  /\ getAvailableDomains 700001 (Throw failure) s2 = (Throw failure, s2).
Proof. repeat split. Qed.

Example rotateThrough_empty_account_body :
  rotateThrough emptyAccountBody [ "mail.tm"; "ekii.de"; "doer.sbs" ]
    initialServer
  = (Throw (newError rateLimitedMessage), setRotationIndex 2 initialServer).
Proof. reflexivity. Qed.

Example fetchMailboxMessages_empty_detail_body :
  fetchMailboxMessages emptyDetailBody (sampleMailbox (JStr "fresh"))
  = (Throw typeError, sampleMailbox (JStr "fresh")).
Proof. reflexivity. Qed.

Example getMessages_fresh_token :
  fst (respond (getMessages 2000 strictInbox "box-1")
         (sampleServer (JStr "fresh")))
  = mkResponse 200
      (JObj [ ("mailbox", buildMailboxResponse (sampleMailbox (JStr "fresh")));
              ("messages", JArr []) ]).
Proof. reflexivity. Qed.

Example getMessages_stale_token :
  fst (respond (getMessages 2000 strictInbox "box-1")
         (sampleServer (JStr "stale")))
  = mkResponse 401
      (JObj [ ("error", JStr "Invalid JWT Token"); ("status", JNum 401) ]).
Proof. reflexivity. Qed.

(** *** Instances of the theorems *)

(** A catalog with two preferred names and the cursor at 4: the pick is
    the preferred name at index 4 mod 2 and the cursor ends at 5 mod 2. *)
Lemma pickMailTmDomain_rotation_witness :
  0 <= domainRotationIndex (setRotationIndex 4 initialServer)
  /\ fst (pickMailTmDomain (rt := asciiRuntime) 1000
            (Ok (catalogOf [ "mail.tm"; "example.org"; "Ekii.de" ])) None
            (setRotationIndex 4 initialServer))
     = Ok (Some "mail.tm")
  /\ domainRotationIndex
       (snd (pickMailTmDomain (rt := asciiRuntime) 1000
               (Ok (catalogOf [ "mail.tm"; "example.org"; "Ekii.de" ])) None
               (setRotationIndex 4 initialServer)))
     = 1.
Proof.
  split; [discriminate|].
  destruct (pickMailTmDomain_rotation (rt := asciiRuntime) 1000
              (Ok (catalogOf [ "mail.tm"; "example.org"; "Ekii.de" ]))
              None (setRotationIndex 4 initialServer)
              (setCachedDomains
                 (mkCache 601000
                    [ JStr "mail.tm"; JStr "example.org"; JStr "Ekii.de" ])
                 (setRotationIndex 4 initialServer))
              [ JStr "mail.tm"; JStr "example.org"; JStr "Ekii.de" ]
              eq_refl ltac:(discriminate) eq_refl ltac:(discriminate))
    as [Hpreferred _].
  destruct Hpreferred as (selected & Hselected & Hrun & Hcursor & _);
    [discriminate|].
  vm_compute in Hselected. injection Hselected as <-.
  split; [exact Hrun|exact Hcursor].
Defined.


(** Every fetch of the call is cut by the time ceiling. *)
Lemma mailTmRequest_timeout_witness :
  (fun _ : nat => Rejected abortError)
    (length (snd (mailTmRequest (rt := asciiRuntime)
                    (fun _ => Rejected abortError) 0 3)))
  = Rejected abortError
  /\ length (snd (mailTmRequest (rt := asciiRuntime)
                    (fun _ => Rejected abortError) 0 3)) = 3%nat
  /\ fst (mailTmRequest (rt := asciiRuntime)
            (fun _ => Rejected abortError) 0 3) = Throw abortError.
Proof.
  split; [reflexivity|].
  destruct (mailTmRequest_timeout (rt := asciiRuntime)
              (fun _ => Rejected abortError) eq_refl)
    as (Hlen & Hrun & _).
  split; [exact Hlen|exact Hrun].
Defined.


(** A registered mailbox with 899 s left is extended at instant 2001. *)
Lemma postExtend_resets_witness :
  mailboxes (sampleServer (JStr "fresh")) !! "box-1"
  = Some (sampleMailbox (JStr "fresh"))
  /\ 2000 <= expiresAt (sampleMailbox (JStr "fresh"))
  /\ exists stored,
       mailboxes (snd (postExtend 2000 2001 "box-1"
                         (sampleServer (JStr "fresh")))) !! "box-1"
       = Some stored
       /\ expiresAt stored = 902001
       /\ address stored = "kq3v9x0a1b@mail.tm".
Proof.
  split; [reflexivity|]. split; [discriminate|].
  destruct (postExtend_resets 2000 2001 "box-1" (sampleServer (JStr "fresh"))
              (sampleMailbox (JStr "fresh")) eq_refl ltac:(discriminate))
    as [(stored & Hstored & Hexpires & _ & Haddress & _) _].
  exists stored. split; [exact Hstored|]. split; [exact Hexpires|].
  exact Haddress.
Defined.





(** A first read at instant 1000 fills the cache, which serves every read
    before instant 601000. *)
Lemma getAvailableDomains_served_from_cache_witness :
  catalogEntries (catalogOf [ "mail.tm" ]) [ JStr "mail.tm" ]
  /\ fst (getAvailableDomains 1000 (Ok (catalogOf [ "mail.tm" ]))
            initialServer)
     = Ok [ JStr "mail.tm" ]
  /\ forall now request, now < 601000 ->
       getAvailableDomains now request
         (snd (getAvailableDomains 1000 (Ok (catalogOf [ "mail.tm" ]))
                 initialServer))
       = (Ok [ JStr "mail.tm" ],
          snd (getAvailableDomains 1000 (Ok (catalogOf [ "mail.tm" ]))
                 initialServer)).
Proof.
  split; [reflexivity|].
  destruct (getAvailableDomains_served_from_cache 1000
              (catalogOf [ "mail.tm" ]) [ JStr "mail.tm" ] initialServer
              (or_introl eq_refl) eq_refl ltac:(discriminate))
    as (Hrun & _ & _ & Hcached & _).
  split; [exact Hrun|exact Hcached].
Defined.

(** An empty catalog is returned and the next read asks the upstream
    again. *)
Lemma getAvailableDomains_empty_not_cached_witness :
  catalogEntries (catalogOf []) []
  /\ fst (getAvailableDomains 1000 (Ok (catalogOf [])) initialServer) = Ok []
  /\ fst (getAvailableDomains 1001 (Ok (catalogOf [ "mail.tm" ]))
            (snd (getAvailableDomains 1000 (Ok (catalogOf []))
                    initialServer)))
     = Ok [ JStr "mail.tm" ].
Proof.
  split; [reflexivity|].
  destruct (getAvailableDomains_empty_not_cached 1000 (catalogOf [])
              initialServer (or_introl eq_refl) eq_refl)
    as (Hrun & _ & Hagain & _).
  split; [exact Hrun|].
  exact (Hagain 1001 (catalogOf [ "mail.tm" ]) [ JStr "mail.tm" ] eq_refl).
Defined.

(** A request for EKII.DE is served with the name as the catalog writes
    it, and the cursor stays where it was. *)
Lemma pickMailTmDomain_requested_witness :
  fst (pickMailTmDomain 1000
         (Ok (catalogOf [ "mail.tm"; "example.org"; "Ekii.de" ]))
         (Some "EKII.DE") (setRotationIndex 4 initialServer))
  = Ok (Some "Ekii.de")
  /\ domainRotationIndex
       (snd (pickMailTmDomain 1000
               (Ok (catalogOf [ "mail.tm"; "example.org"; "Ekii.de" ]))
               (Some "EKII.DE") (setRotationIndex 4 initialServer))) = 4.
Proof.
  destruct (pickMailTmDomain_requested (rt := asciiRuntime) 1000
              (Ok (catalogOf [ "mail.tm"; "example.org"; "Ekii.de" ]))
              "EKII.DE" (setRotationIndex 4 initialServer)
              (setCachedDomains
                 (mkCache 601000
                    [ JStr "mail.tm"; JStr "example.org"; JStr "Ekii.de" ])
                 (setRotationIndex 4 initialServer))
              [ JStr "mail.tm"; JStr "example.org"; JStr "Ekii.de" ]
              ltac:(discriminate) eq_refl ltac:(discriminate))
    as (Hrun & Hcursor & _).
  rewrite Hrun. split; [reflexivity|exact Hcursor].
Defined.

(** A catalog whose only entry has no name. *)
Lemma pickMailTmDomain_empty_catalog_witness :
  listsDomains (Ok namelessCatalog)
  /\ fst (pickMailTmDomain 1000 (Ok namelessCatalog) None initialServer)
     = Throw (newError "Domain list is empty").
Proof.
  assert (listsDomains (Ok namelessCatalog)) as Hlists
    by (exists [ JNum 5 ]; reflexivity).
  split; [exact Hlists|].
  destruct (pickMailTmDomain_empty_catalog (rt := asciiRuntime) 1000 (Ok namelessCatalog) None
              initialServer
              (setCachedDomains (mkCache 601000 [ JNum 5 ]) initialServer)
              [ JNum 5 ] Hlists eq_refl eq_refl)
    as [Hrun _].
  rewrite Hrun. reflexivity.
Defined.

(** The first address is refused as already used, the second one is
    created. *)
Lemma provisionRequested_attempts_witness :
  attemptError collidingThenCreated 0 0
  = Some (withStatus 422 (newError "address: This value is already used."))
  /\ attemptError collidingThenCreated 0 1 = None
  /\ exists account auth credential,
       provisionRequested collidingThenCreated "Example.org" initialServer
       = (Ok credential,
          setCachedDomains
            (mkCache 601000 [ JStr "example.org"; JStr "mail.tm" ])
            initialServer)
       /\ accounts collidingThenCreated 0 1 = Ok account
       /\ remote_address credential
          = generateLocalPart (draws collidingThenCreated 0 1)
              +:+ "@" +:+ "example.org"
       /\ remote_accountId credential = optProp account "id"
       /\ remote_token credential = auth_token auth.
Proof.
  split; [reflexivity|]. split; [reflexivity|].
  destruct (provisionRequested_attempts (rt := asciiRuntime) collidingThenCreated "Example.org"
              initialServer
              (setCachedDomains
                 (mkCache 601000 [ JStr "example.org"; JStr "mail.tm" ])
                 initialServer)
              "example.org" 1 eq_refl ltac:(lia))
    as (_ & _ & Hcreated).
  - intros [|a] Ha; [|lia]. eexists. split; reflexivity.
  - destruct (Hcreated ltac:(lia) eq_refl)
      as (account & auth & credential & Haccount & _ & Hrun & Haddress
          & Hid & Htoken).
    exists account, auth, credential.
    split; [exact Hrun|]. split; [exact Haccount|].
    split; [exact Haddress|]. split; [exact Hid|exact Htoken].
Defined.

(** A call for mail.tm with the cursor at 4. *)
Lemma provisionMailboxWithMailTm_requested_frame_witness :
  requestedDomain (Some "mail.tm") = Some "mail.tm"
  /\ domainRotationIndex
       (snd (provisionMailboxWithMailTm collidingThenCreated (Some "mail.tm")
               (setRotationIndex 4 initialServer))) = 4
  /\ mailboxes
       (snd (provisionMailboxWithMailTm collidingThenCreated (Some "mail.tm")
               (setRotationIndex 4 initialServer))) = ∅.
Proof.
  split; [reflexivity|].
  exact (provisionMailboxWithMailTm_requested_frame (rt := asciiRuntime) collidingThenCreated
           (Some "mail.tm") "mail.tm" (setRotationIndex 4 initialServer)
           eq_refl).
Defined.

(** Both catalog reads come back empty. *)
Lemma provisionMailboxWithMailTm_no_domains_witness :
  requestedDomain None = None
  /\ fst (provisionMailboxWithMailTm allRateLimited None initialServer)
     = Throw (newError "No domains available").
Proof.
  split; [reflexivity|].
  destruct (provisionMailboxWithMailTm_no_domains (rt := asciiRuntime) allRateLimited None
              initialServer
              (setCachedDomains (mkCache 601000 []) initialServer) eq_refl)
    as [Hempty _].
  destruct (Hempty [] []
              (setCachedDomains (mkCache 601000 []) initialServer))
    as [Hrun _];
    [exists []; reflexivity|exists []; reflexivity
     |reflexivity|reflexivity|reflexivity|reflexivity|].
  rewrite Hrun. reflexivity.
Defined.


(** The inbox of the sample mailbox: three summaries, two details. *)
Lemma getMessages_reports_count_witness :
  exists (response : Response) (s' : Server) (mailbox' : Mailbox)
         (messages : list JsVal),
    getMessages 2000 threeSummaries "box-1" (sampleServer (JStr "fresh"))
    = (Ok response, s')
    /\ res_status response = 200
    /\ optProp (res_body response) "messages" = JArr messages
    /\ optProp (buildMailboxResponse mailbox') "messageCount"
       = JNum (len messages)
    /\ mailboxes s' !! "box-1" = Some mailbox'.
Proof.
  destruct (getMessages 2000 threeSummaries "box-1"
              (sampleServer (JStr "fresh")))
    as [[response|e] s'] eqn:Hrun; [|vm_compute in Hrun; discriminate].
  destruct (getMessages_reports_count (rt := asciiRuntime) 2000 threeSummaries "box-1"
              (sampleServer (JStr "fresh")) s' response Hrun)
    as (mailbox' & messages & -> & Hcount & Hstored & _).
  exists (mkResponse 200
            (JObj [ ("mailbox", buildMailboxResponse mailbox');
                    ("messages", JArr messages) ])), s', mailbox', messages.
  split; [reflexivity|]. split; [reflexivity|]. split; [reflexivity|].
  split; [exact Hcount|]. rewrite Hstored. apply lookup_insert_eq.
Defined.

(** The sample mailbox expires at 901000 and is read at 902000. *)
Lemma expired_mailbox_is_gone_witness :
  mailboxes (sampleServer JNull) !! "box-1" = Some (sampleMailbox JNull)
  /\ res_status (fst (respond (getMailbox 902000 "box-1")
                        (sampleServer JNull))) = 410
  /\ res_status
       (fst (respond (getMailbox 902001 "box-1")
               (snd (respond (getMailbox 902000 "box-1")
                       (sampleServer JNull))))) = 404.
Proof.
  split; [reflexivity|].
  destruct (expired_mailbox_is_gone (rt := asciiRuntime) 902000 "box-1" (sampleServer JNull)
              (sampleMailbox JNull) eq_refl ltac:(reflexivity))
    as (Hstatus & _ & Hlater & _).
  split; [exact Hstatus|exact (Hlater 902001)].
Defined.

(** A mailbox created at instant 7000 is registered until 907000. *)
Lemma createMailbox_round_trip_witness :
  exists (mailbox : Mailbox) (s' : Server),
    createMailbox mixedCatalog "box-9" 7000 None initialServer
    = (Ok mailbox, s')
    /\ mailboxes s' !! "box-9" = Some mailbox
    /\ expiresAt mailbox = 907000
    /\ res_status (fst (respond (getMailbox 907000 "box-9") s')) = 200
    /\ res_status (fst (respond (getMailbox 907001 "box-9") s')) = 410.
Proof.
  destruct (createMailbox mixedCatalog "box-9" 7000 None initialServer)
    as [[mailbox|e] s'] eqn:Hrun; [|vm_compute in Hrun; discriminate].
  destruct (createMailbox_round_trip (rt := asciiRuntime) mixedCatalog "box-9" 7000 None
              initialServer s' mailbox Hrun)
    as (Hstored & _ & _ & Hexpires & _ & Hlive & Hdead).
  exists mailbox, s'. split; [reflexivity|].
  split; [rewrite Hstored; apply lookup_insert_eq|].
  split; [exact Hexpires|]. split.
  - rewrite (Hlive 907000 ltac:(reflexivity)). reflexivity.
  - exact (Hdead 907001 ltac:(reflexivity)).
Defined.

(** The catalog is empty: the route answers 500 and registers nothing. *)
Lemma createMailbox_failure_stores_nothing_witness :
  res_status (fst (respond (postMailboxes allRateLimited "box-2" 1000 None)
                     (sampleServer JNull))) = 500
  /\ mailboxes (snd (respond (postMailboxes allRateLimited "box-2" 1000 None)
                       (sampleServer JNull)))
     = mailboxes (sampleServer JNull).
Proof.
  split; [reflexivity|].
  apply (createMailbox_failure_stores_nothing (rt := asciiRuntime) allRateLimited "box-2" 1000
           None (sampleServer JNull)).
  vm_compute. discriminate.
Defined.
